(** * AstroWound-MEASURE: calibration, quality and measurement core

    A shallow embedding of the three engines of the repository
    ([src/engine/calibration.ts], [src/engine/quality.ts] and the
    measurement engine) together with the properties stated about them.

    ** Number model

    A JavaScript [number] is modelled by [num]: an exact rational, or one of
    the special values NaN, +Infinity, -Infinity.  Arithmetic on finite values
    is exact (the rounding of IEEE-754 doubles is not modelled, and neither is
    the sign of zero); the special values follow the IEEE-754 rules that
    JavaScript uses: [0/0 = NaN], [x/0 = +-Infinity], [Infinity - Infinity =
    NaN], every comparison with NaN is false.  Typed arrays ([Float32Array],
    [Int32Array]) are lists of [num] (their rounding to 32 bits is not
    modelled); a [Uint8ClampedArray] is a list of bytes.

    ** Layout

    Definitions come first: numbers, the data model, then the measurement,
    calibration and quality engines, each function under the name it has in
    the source.  The properties follow, and the file ends with the engines
    run on concrete inputs. *)

From Stdlib Require Import QArith Qround Qabs Lqa ZArith Lia Bool String Sorted.
From stdpp Require Import base list.

Local Open Scope Q_scope.

(** ** JavaScript numbers *)

Inductive num : Type :=
| NaN
| Inf (negative : bool)
| Fin (q : Q).

(** Finite results are kept in lowest terms, so that equal results are equal
    terms. *)
Definition fin (q : Q) : num := Fin (Qred q).

Definition Infinity : num := Inf false.
Definition negInfinity : num := Inf true.

Definition Qltb (a b : Q) : bool :=
  match a ?= b with Lt => true | _ => false end.

Definition Qeqb (a b : Q) : bool :=
  match a ?= b with Eq => true | _ => false end.

Definition nopp (x : num) : num :=
  match x with
  | NaN => NaN
  | Inf s => Inf (negb s)
  | Fin a => fin (- a)
  end.

Definition nadd (x y : num) : num :=
  match x, y with
  | NaN, _ | _, NaN => NaN
  | Fin a, Fin b => fin (a + b)
  | Fin _, Inf s | Inf s, Fin _ => Inf s
  | Inf s, Inf t => if eqb s t then Inf s else NaN
  end.

Definition nsub (x y : num) : num := nadd x (nopp y).

Definition nmul (x y : num) : num :=
  match x, y with
  | NaN, _ | _, NaN => NaN
  | Fin a, Fin b => fin (a * b)
  | Fin a, Inf s | Inf s, Fin a =>
      if Qeqb a 0 then NaN else Inf (xorb s (Qltb a 0))
  | Inf s, Inf t => Inf (xorb s t)
  end.

Definition ndiv (x y : num) : num :=
  match x, y with
  | NaN, _ | _, NaN => NaN
  | Fin a, Fin b =>
      if Qeqb b 0
      then (if Qeqb a 0 then NaN else Inf (Qltb a 0))
      else fin (a / b)
  | Fin _, Inf _ => Fin 0
  | Inf s, Fin b => Inf (xorb s (Qltb b 0))
  | Inf _, Inf _ => NaN
  end.

(** The relational operators: [None] when an operand is NaN. *)
Definition ncompare (x y : num) : option comparison :=
  match x, y with
  | NaN, _ | _, NaN => None
  | Fin a, Fin b => Some (a ?= b)
  | Fin _, Inf s => Some (if s then Gt else Lt)
  | Inf s, Fin _ => Some (if s then Lt else Gt)
  | Inf s, Inf t =>
      Some (if eqb s t then Eq else if s then Lt else Gt)
  end.

Definition nlt (x y : num) : bool :=
  match ncompare x y with Some Lt => true | _ => false end.
Definition nle (x y : num) : bool :=
  match ncompare x y with Some Lt | Some Eq => true | _ => false end.
Definition ngt (x y : num) : bool := nlt y x.
Definition nge (x y : num) : bool := nle y x.
(** [x === y] on numbers. *)
Definition nseq (x y : num) : bool :=
  match ncompare x y with Some Eq => true | _ => false end.
(** [x !== y] on numbers. *)
Definition nsne (x y : num) : bool := negb (nseq x y).

Declare Scope js_scope.
Delimit Scope js_scope with js.
Bind Scope js_scope with num.
Notation "x + y" := (nadd x y) : js_scope.
Notation "x - y" := (nsub x y) : js_scope.
Notation "x * y" := (nmul x y) : js_scope.
Notation "x / y" := (ndiv x y) : js_scope.
Notation "- x" := (nopp x) : js_scope.
Notation "x <? y" := (nlt x y) : js_scope.
Notation "x <=? y" := (nle x y) : js_scope.
Notation "x >? y" := (ngt x y) : js_scope.
Notation "x >=? y" := (nge x y) : js_scope.
Notation "x === y" := (nseq x y) (at level 70, no associativity) : js_scope.
Notation "x !== y" := (nsne x y) (at level 70, no associativity) : js_scope.

(** Integers as numbers (array lengths, loop counters, byte values). *)
Definition ofZ (z : Z) : num := Fin (inject_Z z).
Definition ofNat (n : nat) : num := ofZ (Z.of_nat n).

(** *** The [Math] object *)

Definition Math_abs (x : num) : num :=
  match x with
  | NaN => NaN
  | Inf _ => Inf false
  | Fin a => fin (Qabs a)
  end.

(** [Math.min] and [Math.max] return NaN as soon as one argument is NaN. *)
Definition Math_min (x y : num) : num :=
  match ncompare x y with
  | None => NaN
  | Some Gt => y
  | Some _ => x
  end.

Definition Math_max (x y : num) : num :=
  match ncompare x y with
  | None => NaN
  | Some Lt => y
  | Some _ => x
  end.

Definition Math_floor (x : num) : num :=
  match x with
  | Fin a => ofZ (Qfloor a)
  | _ => x
  end.

Definition Math_ceil (x : num) : num :=
  match x with
  | Fin a => ofZ (Qceiling a)
  | _ => x
  end.

(** [Math.round] rounds to the nearest integer, ties towards +Infinity. *)
Definition Math_round (x : num) : num :=
  match x with
  | Fin a => ofZ (Qfloor (a + (1 # 2)))
  | _ => x
  end.

(** [Math.pow] at the non-negative integer exponents the engines use. *)
Fixpoint Math_pow (x : num) (n : nat) : num :=
  match n with
  | O => Fin 1
  | S n' => (x * Math_pow x n')%js
  end.

(** Truthiness of a number: [0] and NaN are falsy. *)
Definition truthy (x : num) : bool :=
  match x with
  | NaN => false
  | Inf _ => true
  | Fin a => negb (Qeqb a 0)
  end.

(** A reference square root on the rationals: the integer square root of
    the numerator scaled by [4^32], so the result is within [2^-32] of the
    real square root from below and exact on squares of small fractions. *)
Definition sqrtQ (a : Q) : Q :=
  let a := Qred a in
  let d := Zpos (Qden a) in
  let k := (2 ^ 32)%Z in
  Qred (Qmake (Z.sqrt (Qnum a * d * k * k)) (Pos.mul (Qden a) (Z.to_pos k))).

Definition sqrtRef (x : num) : num :=
  match x with
  | NaN => NaN
  | Inf s => if s then NaN else Inf false
  | Fin a => if Qltb a 0 then NaN else Fin (sqrtQ a)
  end.

(** ** Arrays, loops and sorting *)

(** Reading past the end of an array of numbers yields [undefined], which
    behaves as NaN in arithmetic and makes every comparison false. *)
#[global] Instance num_inhabited : Inhabited num := populate NaN.

(** [for (let i = lo; i < hi; i++) body] as a fold over the loop state. *)
Definition forRange {S : Type} (lo hi : nat) (body : nat -> S -> S) (s : S) : S :=
  fold_left (fun s i => body i s) (seq lo (hi - lo)) s.

(** [Array.prototype.sort(cmp)]: a stable sort; [a] stays before [b] unless
    [cmp(a, b) > 0]. *)
Fixpoint sortInsert {A : Type} (cmp : A -> A -> num) (a : A) (l : list A) : list A :=
  match l with
  | [] => [a]
  | b :: l' => if (cmp a b >? Fin 0)%js then b :: sortInsert cmp a l' else a :: l
  end.

Definition sortBy {A : Type} (cmp : A -> A -> num) (l : list A) : list A :=
  foldr (sortInsert cmp) [] l.

(** [l.slice(-n)]: the last [n] elements. *)
Definition sliceLast {A : Type} (n : nat) (l : list A) : list A :=
  drop (length l - n)%nat l.

(** [l.reduce((a, b) => a + b, 0)]. *)
Definition sumNums (l : list num) : num :=
  fold_left (fun a b => (a + b)%js) l (Fin 0).

(** A function either returns a value or throws [new Error(message)]. *)
Inductive result (A : Type) : Type :=
| Return (a : A)
| Throw (message : string).
Arguments Return {A} a.
Arguments Throw {A} message.

(** ** Data model ([src/types/index.ts]) *)

Record Point : Type := mkPoint { px : num; py : num }.

(** [p.x] of an element read past the end of an array is never evaluated by
    the engines (all their indices are in range); the default is inert. *)
#[global] Instance Point_inhabited : Inhabited Point := populate (mkPoint NaN NaN).

Inductive MarkerType : Type := ruler | circle | qr | grid.

Record CalibrationData : Type := mkCalibration {
  detected : bool;
  pixelsPerCm : num;
  confidence : num;
  markerType : MarkerType;
  referencePoints : list Point
}.

(** [ImageData]: RGBA bytes, row-major. *)
Record ImageData : Type := mkImage {
  data : list Byte.byte;
  width : nat;
  height : nat
}.

(** [data[i]] of a [Uint8ClampedArray]. *)
Definition byteAt (d : list Byte.byte) (i : nat) : num :=
  match d !! i with
  | Some b => ofZ (Z.of_N (Byte.to_N b))
  | None => NaN
  end.

Record SegmentationResult : Type := mkSegmentation {
  mask : ImageData;
  contour : list Point;
  seg_confidence : num
}.

Record WoundMeasurement : Type := mkMeasurement {
  m_area : num;
  m_length : num;
  m_width : num;
  m_perimeter : num
}.

(** A [Date] is its time value in milliseconds. *)
Record WoundAssessment : Type := mkAssessment {
  a_id : string;
  capturedAt : Z;
  measurement : WoundMeasurement
}.

Record HealingProgress : Type := mkProgress {
  assessmentId : string;
  date : Z;
  area : num;
  areaChange : num;
  areaChangePercent : num;
  healingRate : num;
  projectedHealingDate : option num
}.

Inductive Trend : Type := improving | stable | worsening.

Record WoundAnalytics : Type := mkAnalytics {
  woundId : string;
  initialArea : num;
  currentArea : num;
  totalReduction : num;
  totalReductionPercent : num;
  averageHealingRate : num;
  healingVelocity : num;
  assessmentCount : nat;
  daysSinceOnset : num;
  progressHistory : list HealingProgress;
  trend : Trend
}.

Record Rect : Type := mkRect { r_width : num; r_height : num; r_angle : num }.

Record QualityThresholds : Type := mkThresholds {
  minBlurScore : num;
  minLightingScore : num;
  minCalibrationConfidence : num;
  maxPerspectiveDistortion : num
}.

Definition DEFAULT_THRESHOLDS : QualityThresholds :=
  {| minBlurScore := Fin 0.7;
     minLightingScore := Fin 0.6;
     minCalibrationConfidence := Fin 0.8;
     maxPerspectiveDistortion := Fin 15 |}.

Record BlurResult : Type := mkBlur { blur_score : num; blur_passed : bool }.

Record LightingResult : Type := mkLighting {
  lighting_score : num;
  lighting_passed : bool;
  issues : list string
}.

Record PerspectiveResult : Type := mkPerspective {
  distortion : num;
  corrected : bool
}.

Record QualityCheck : Type := mkQuality {
  passed : bool;
  blur : BlurResult;
  lighting : LightingResult;
  q_detected : bool;
  q_confidence : num;
  perspective : PerspectiveResult
}.

(** Hough lines and circle candidates of the calibration engine. *)
Record HoughLine : Type := mkLine { rho : num; theta : num; votes : num }.

Record Circle : Type := mkCircle {
  centerX : num;
  centerY : num;
  radius : num;
  circularity : num
}.

Local Open Scope nat_scope.
Local Open Scope js_scope.

Section Engines.

(** [Math.sqrt], [Math.atan2], [Math.cos] and [Math.sin] return
    implementation-approximated values; they are parameters of the model,
    and the results below hold for every implementation of them. *)
Variable Math_sqrt : num -> num.
Variable Math_atan2 : num -> num -> num.
Variable Math_cos : num -> num.
Variable Math_sin : num -> num.

(** ** Measurement engine *)

(** [round(value, decimals)] *)
Definition round (value : num) (decimals : nat) : num :=
  let multiplier := Math_pow (Fin 10) decimals in
  Math_round (value * multiplier) / multiplier.

(** [daysBetween(date1, date2)].  The difference of the two time values and
    its quotient by [msPerDay] are exact here; in binary64 they are exact or
    rounded without crossing a half-integer as long as both dates are valid
    and at most 2^52 ms apart, which is the range the properties below
    are stated for. *)
Definition daysBetween (date1 date2 : Z) : num :=
  let msPerDay := Fin 24 * Fin 60 * Fin 60 * Fin 1000 in
  Math_round ((ofZ date2 - ofZ date1) / msPerDay).

(** [calculateAreaFromMask]: counts the pixels whose red channel exceeds 127. *)
Definition calculateAreaFromMask (mask : ImageData) : num :=
  forRange 0 (width mask * height mask)
    (fun i count =>
       if byteAt (data mask) (i * 4) >? Fin 127 then count + Fin 1 else count)
    (Fin 0).

(** [calculatePerimeter] *)
Definition calculatePerimeter (contour : list Point) : num :=
  if Nat.ltb (length contour) 3 then Fin 0
  else
    forRange 0 (length contour)
      (fun i perimeter =>
         let current := contour !!! i in
         let next := contour !!! ((i + 1) mod length contour)%nat in
         let dx := px next - px current in
         let dy := py next - py current in
         perimeter + Math_sqrt (dx * dx + dy * dy))
      (Fin 0).

(** [crossProduct(p1, p2, p3)]: cross product of (p1->p2) and (p1->p3). *)
Definition crossProduct (p1 p2 p3 : Point) : num :=
  (px p2 - px p1) * (py p3 - py p1) - (py p2 - py p1) * (px p3 - px p1).

(** The test of the "find lowest point" loop of [convexHull]. *)
Definition lowerThan (p q : Point) : bool :=
  (py p <? py q) || ((py p === py q) && (px p <? px q)).

Definition findLowest (points : list Point) : nat :=
  forRange 1 (length points)
    (fun i lowest => if lowerThan (points !!! i) (points !!! lowest) then i else lowest)
    0.

(** [[sorted[0], sorted[lowest]] = [sorted[lowest], sorted[0]]] *)
Definition swapFirst (sorted : list Point) (lowest : nat) : list Point :=
  let a := sorted !!! lowest in
  let b := sorted !!! 0 in
  <[lowest := b]> (<[0 := a]> sorted).

(** The hull is a stack; it is kept here with its top first and reversed on
    return.  [popWhile] is the inner [while] loop of the Graham scan: it pops
    while the stack holds more than one point and the turn is not strictly
    left. *)
Fixpoint popWhile (hull : list Point) (p : Point) : list Point :=
  match hull with
  | top :: rest =>
      match rest with
      | second :: _ =>
          if crossProduct second top p <=? Fin 0 then popWhile rest p else hull
      | [] => hull
      end
  | [] => hull
  end.

Definition scanStep (hull : list Point) (p : Point) : list Point :=
  p :: popWhile hull p.

(** [convexHull].  The source sorts [sorted.slice(1)], a fresh copy, and
    drops the result: [sorted] keeps the input order after the swap. *)
Definition convexHull (points : list Point) : list Point :=
  if Nat.ltb (length points) 3 then points
  else
    let lowest := findLowest points in
    let sorted := swapFirst points lowest in
    let anchor := sorted !!! 0 in
    let _ :=
      sortBy (fun a b =>
                let angleA := Math_atan2 (py a - py anchor) (px a - px anchor) in
                let angleB := Math_atan2 (py b - py anchor) (px b - px anchor) in
                angleA - angleB)
             (drop 1 sorted) in
    rev (fold_left scanStep (drop 2 sorted) [sorted !!! 1; sorted !!! 0]).

(** [rotatePoint(point, angle, center)] *)
Definition rotatePoint (point : Point) (angle : num) (center : Point) : Point :=
  let cos := Math_cos angle in
  let sin := Math_sin angle in
  let dx := px point - px center in
  let dy := py point - py center in
  {| px := px center + dx * cos - dy * sin;
     py := py center + dx * sin + dy * cos |}.

(** Bounding box of the rotated points: (minX, maxX, minY, maxY). *)
Definition boundingBox (rotated : list Point) : num * num * num * num :=
  fold_left
    (fun '(minX, maxX, minY, maxY) p =>
       (Math_min minX (px p), Math_max maxX (px p),
        Math_min minY (py p), Math_max maxY (py p)))
    rotated (Infinity, negInfinity, Infinity, negInfinity).

(** [minAreaRect]: tries each hull edge as the base of the rectangle. *)
Definition minAreaRect (hull : list Point) : Rect :=
  if Nat.ltb (length hull) 3 then {| r_width := Fin 0; r_height := Fin 0; r_angle := Fin 0 |}
  else
    snd
      (forRange 0 (length hull)
         (fun i '(minArea, bestRect) =>
            let p1 := hull !!! i in
            let p2 := hull !!! ((i + 1) mod length hull)%nat in
            let angle := Math_atan2 (py p2 - py p1) (px p2 - px p1) in
            let rotated := map (fun p => rotatePoint p (- angle) (hull !!! 0)) hull in
            let '(minX, maxX, minY, maxY) := boundingBox rotated in
            let width := maxX - minX in
            let height := maxY - minY in
            let area := width * height in
            if area <? minArea
            then (area, {| r_width := width; r_height := height; r_angle := angle |})
            else (minArea, bestRect))
         (Infinity, {| r_width := Fin 0; r_height := Fin 0; r_angle := Fin 0 |})).

(** [calculateLengthWidth]: (length, width) in pixels. *)
Definition calculateLengthWidth (contour : list Point) : num * num :=
  if Nat.ltb (length contour) 3 then (Fin 0, Fin 0)
  else
    let hull := convexHull contour in
    let minRect := minAreaRect hull in
    (Math_max (r_width minRect) (r_height minRect),
     Math_min (r_width minRect) (r_height minRect)).

(** [calculateMeasurements] *)
Definition calculateMeasurements (segmentation : SegmentationResult)
    (calibration : CalibrationData) : result WoundMeasurement :=
  if negb (detected calibration) || (pixelsPerCm calibration <=? Fin 0)
  then Throw "Valid calibration required for measurement"
  else
    let pixelsPerCm := pixelsPerCm calibration in
    let pixelsPerCmSquared := pixelsPerCm * pixelsPerCm in
    let areaPixels := calculateAreaFromMask (mask segmentation) in
    let area := areaPixels / pixelsPerCmSquared in
    let perimeterPixels := calculatePerimeter (contour segmentation) in
    let perimeter := perimeterPixels / pixelsPerCm in
    let '(lengthPixels, widthPixels) := calculateLengthWidth (contour segmentation) in
    let length := lengthPixels / pixelsPerCm in
    let width := widthPixels / pixelsPerCm in
    Return {| m_area := round area 2;
              m_length := round length 2;
              m_width := round width 2;
              m_perimeter := round perimeter 2 |}.

(** The largest time value of a [Date], in ms. *)
Definition maxTime : Z := 8640000000000000.

(** [TimeClip]: a time value that is not finite or lies beyond [maxTime] is
    NaN, the time value of an Invalid Date. *)
Definition TimeClip (time : num) : num :=
  match time with
  | Fin t => if Qltb (inject_Z maxTime) (Qabs t) then NaN else Fin t
  | _ => NaN
  end.

(** [calculateHealingProgress].  [projectedHealingDate] adds whole days to
    the capture date ([setDate]); a day is taken as 86400000 ms, and the
    result is clipped as [setDate] clips it: a date out of range is an
    Invalid Date. *)
Definition progressEntry (sorted : list WoundAssessment) (i : nat) : HealingProgress :=
  let current := sorted !! i in
  let previous := if Nat.ltb 0 i then sorted !! (i - 1)%nat else None in
  let currentArea :=
    match current with Some c => m_area (measurement c) | None => NaN end in
  let currentDate :=
    match current with Some c => capturedAt c | None => 0%Z end in
  let previousArea :=
    match previous with Some p => m_area (measurement p) | None => currentArea end in
  let areaChange := currentArea - previousArea in
  let areaChangePercent :=
    if previousArea >? Fin 0 then (areaChange / previousArea) * Fin 100 else Fin 0 in
  let healingRate :=
    match previous with
    | Some p =>
        let daysDiff := daysBetween (capturedAt p) currentDate in
        if daysDiff >? Fin 0 then (- areaChange) / daysDiff else Fin 0
    | None => Fin 0
    end in
  let projectedHealingDate :=
    if (healingRate >? Fin 0) && (currentArea >? Fin 0)
    then
      let daysToHeal := currentArea / healingRate in
      Some (TimeClip (ofZ currentDate + Math_ceil daysToHeal * Fin 86400000))
    else None in
  {| assessmentId := match current with Some c => a_id c | None => EmptyString end;
     date := currentDate;
     area := currentArea;
     areaChange := round areaChange 2;
     areaChangePercent := round areaChangePercent 1;
     healingRate := round healingRate 3;
     projectedHealingDate := projectedHealingDate |}.

Definition calculateHealingProgress (assessments : list WoundAssessment)
    : list HealingProgress :=
  if Nat.eqb (length assessments) 0 then []
  else
    let sorted :=
      sortBy (fun a b => ofZ (capturedAt a) - ofZ (capturedAt b)) assessments in
    map (progressEntry sorted) (seq 0 (length sorted)).

(** The trend rule of [calculateWoundAnalytics]. *)
Definition trendOf (progress : list HealingProgress) : Trend :=
  if Nat.leb 2 (length progress)
  then
    let recentProgress := sliceLast 3 progress in
    let avgChange :=
      fold_left (fun sum p => sum + areaChangePercent p) recentProgress (Fin 0)
      / ofNat (length recentProgress) in
    if avgChange <? Fin (-5) then improving
    else if avgChange >? Fin 5 then worsening
    else stable
  else stable.

(** [calculateWoundAnalytics]; [now] is the value of [new Date()]. *)
Definition calculateWoundAnalytics (woundId : string)
    (assessments : list WoundAssessment) (onset now : Z) : WoundAnalytics :=
  let progress := calculateHealingProgress assessments in
  if Nat.eqb (length progress) 0
  then
    {| woundId := woundId; initialArea := Fin 0; currentArea := Fin 0;
       totalReduction := Fin 0; totalReductionPercent := Fin 0;
       averageHealingRate := Fin 0; healingVelocity := Fin 0;
       assessmentCount := 0; daysSinceOnset := Fin 0;
       progressHistory := []; trend := stable |}
  else
    let initialArea := match progress !! 0 with Some p => area p | None => NaN end in
    let currentArea :=
      match progress !! (length progress - 1)%nat with Some p => area p | None => NaN end in
    let totalReduction := initialArea - currentArea in
    let totalReductionPercent :=
      if initialArea >? Fin 0 then (totalReduction / initialArea) * Fin 100 else Fin 0 in
    let healingRates :=
      map healingRate (List.filter (fun p => healingRate p >? Fin 0) progress) in
    let averageHealingRate :=
      if Nat.ltb 0 (length healingRates)
      then sumNums healingRates / ofNat (length healingRates)
      else Fin 0 in
    let healingVelocity := averageHealingRate * Fin 7 in
    let daysSinceOnset := daysBetween onset now in
    {| woundId := woundId;
       initialArea := round initialArea 2;
       currentArea := round currentArea 2;
       totalReduction := round totalReduction 2;
       totalReductionPercent := round totalReductionPercent 1;
       averageHealingRate := round averageHealingRate 3;
       healingVelocity := round healingVelocity 2;
       assessmentCount := length assessments;
       daysSinceOnset := daysSinceOnset;
       progressHistory := progress;
       trend := trendOf progress |}.

(** ** Calibration engine *)

(** [CALIBRATION_SPECS] *)
Definition ruler_tickSpacingCm : num := Fin 1.
Definition ruler_minTickCount : nat := 5.
Definition circle_diameterCm : num := Fin 2.5.
Definition grid_cellSizeCm : num := Fin 1.
Definition grid_minCells : nat := 4.

(** The pixel-level stages that rest on trigonometry or on whole-image
    accumulators are parameters: the Hough line transform, the tick
    projection, the Hough circle accumulator (its peaks with the circularity
    [calculateCircularity] gives them), Sobel edges and Harris corners. *)
Variable sobelEdgeDetection : list num -> nat -> nat -> list num.
Variable houghLineTransform : list num -> nat -> nat -> list HoughLine.
Variable detectTickMarks : list num -> nat -> nat -> list HoughLine -> list Point.
Variable houghCirclePeaks : list num -> nat -> nat -> list Circle.
Variable harrisCornerDetection : list num -> nat -> nat -> list Point.

(** [toGrayscale] *)
Definition toGrayscale (data : list Byte.byte) (width height : nat) : list num :=
  map (fun i =>
         let r := byteAt data (i * 4) in
         let g := byteAt data (i * 4 + 1) in
         let b := byteAt data (i * 4 + 2) in
         Fin 0.299 * r + Fin 0.587 * g + Fin 0.114 * b)
      (seq 0 (width * height)).

(** [createFailedCalibration] *)
Definition createFailedCalibration (markerType : MarkerType) : CalibrationData :=
  {| detected := false; pixelsPerCm := Fin 0; confidence := Fin 0;
     markerType := markerType; referencePoints := [] |}.

(** Average of the [theta] of a group of lines. *)
Definition averageTheta (group : list HoughLine) : num :=
  fold_left (fun sum l => sum + theta l) group (Fin 0) / ofNat (length group).

(** The group search of [findParallelLines]: the line joins the first group
    whose average angle is within the tolerance, or starts a new group. *)
Fixpoint addToGroups (line : HoughLine) (groups : list (list HoughLine))
    : list (list HoughLine) :=
  match groups with
  | [] => [[line]]
  | group :: groups' =>
      if Math_abs (theta line - averageTheta group) <? Fin 0.1
      then (group ++ [line]) :: groups'
      else group :: addToGroups line groups'
  end.

(** [findParallelLines] *)
Definition findParallelLines (lines : list HoughLine) : list HoughLine :=
  let parallelGroups := fold_left (fun groups line => addToGroups line groups) lines [] in
  fold_left (fun a b => if Nat.ltb (length b) (length a) then a else b) parallelGroups [].

(** Distances between consecutive points. *)
Definition spacingsOf (points : list Point) : list num :=
  map (fun i =>
         let dx := px (points !!! i) - px (points !!! (i - 1)%nat) in
         let dy := py (points !!! i) - py (points !!! (i - 1)%nat) in
         Math_sqrt (dx * dx + dy * dy))
      (seq 1 (length points - 1)).

(** [calculateAverageSpacing] *)
Definition calculateAverageSpacing (points : list Point) : num :=
  if Nat.ltb (length points) 2 then Fin 0
  else sumNums (spacingsOf points) / ofNat (length points - 1).

(** Coefficient of variation of a list of spacings. *)
Definition coefficientOfVariation (spacings : list num) : num :=
  let mean := sumNums spacings / ofNat (length spacings) in
  let variance :=
    fold_left (fun sum s => sum + Math_pow (s - mean) 2) spacings (Fin 0)
    / ofNat (length spacings) in
  Math_sqrt variance / mean.

(** [calculateTickConfidence] *)
Definition calculateTickConfidence (ticks : list Point) : num :=
  if Nat.ltb (length ticks) 3 then Fin 0
  else
    let cv := coefficientOfVariation (spacingsOf ticks) in
    Math_max (Fin 0) (Fin 1 - cv * Fin 2).

(** [detectRuler] *)
Definition detectRuler (imageData : ImageData) : CalibrationData :=
  let width := width imageData in
  let height := height imageData in
  let grayscale := toGrayscale (data imageData) width height in
  let edges := sobelEdgeDetection grayscale width height in
  let lines := houghLineTransform edges width height in
  let parallelLines := findParallelLines lines in
  if Nat.ltb (length parallelLines) 2 then createFailedCalibration ruler
  else
    let ticks := detectTickMarks grayscale width height parallelLines in
    if Nat.ltb (length ticks) ruler_minTickCount then createFailedCalibration ruler
    else
      let avgTickSpacing := calculateAverageSpacing ticks in
      {| detected := true;
         pixelsPerCm := avgTickSpacing / ruler_tickSpacingCm;
         confidence := calculateTickConfidence ticks;
         markerType := ruler;
         referencePoints := ticks |}.

(** [houghCircleTransform] keeps the accumulator peaks whose circularity
    exceeds 0.7. *)
Definition houghCircleTransform (edges : list num) (width height : nat) : list Circle :=
  List.filter (fun c => circularity c >? Fin 0.7) (houghCirclePeaks edges width height).

(** [circles.reduce((a, b) => a.circularity > b.circularity ? a : b)] *)
Definition bestCircleOf (first : Circle) (others : list Circle) : Circle :=
  fold_left (fun a b => if circularity a >? circularity b then a else b) others first.

(** [detectCircle] *)
Definition detectCircle (imageData : ImageData) : CalibrationData :=
  let width := width imageData in
  let height := height imageData in
  let grayscale := toGrayscale (data imageData) width height in
  let edges := sobelEdgeDetection grayscale width height in
  match houghCircleTransform edges width height with
  | [] => createFailedCalibration circle
  | first :: others =>
      let bestCircle := bestCircleOf first others in
      let diameterPixels := radius bestCircle * Fin 2 in
      {| detected := true;
         pixelsPerCm := diameterPixels / circle_diameterCm;
         confidence := circularity bestCircle;
         markerType := circle;
         referencePoints :=
           [ {| px := centerX bestCircle; py := centerY bestCircle |};
             {| px := centerX bestCircle + radius bestCircle; py := centerY bestCircle |} ] |}
  end.

(** [a.x - b.x || a.y - b.y] *)
Definition compareXY (a b : Point) : num :=
  if truthy (px a - px b) then px a - px b else py a - py b.

(** [findGridPattern]: the corners sorted by x, then y. *)
Definition findGridPattern (corners : list Point) : list Point :=
  if Nat.ltb (length corners) 4 then []
  else sortBy compareXY corners.

(** The spacings collected by [calculateGridCellSize]. *)
Definition gridSpacings (gridPoints : list Point) : list num :=
  flat_map (fun i =>
              let dx := Math_abs (px (gridPoints !!! i) - px (gridPoints !!! (i - 1)%nat)) in
              let dy := Math_abs (py (gridPoints !!! i) - py (gridPoints !!! (i - 1)%nat)) in
              (if dx >? Fin 5 then [dx] else []) ++ (if dy >? Fin 5 then [dy] else []))
           (seq 1 (length gridPoints - 1)).

(** [calculateGridCellSize]: the median spacing, [0] when there is none. *)
Definition calculateGridCellSize (gridPoints : list Point) : num :=
  let spacings := sortBy (fun a b => a - b) (gridSpacings gridPoints) in
  match spacings !! (length spacings / 2)%nat with
  | Some s => if truthy s then s else Fin 0
  | None => Fin 0
  end.

(** [calculateGridConfidence] *)
Definition calculateGridConfidence (gridPoints : list Point) : num :=
  if Nat.ltb (length gridPoints) 4 then Fin 0
  else Math_min (Fin 1) (ofNat (length gridPoints) / Fin 20).

(** [detectGrid] *)
Definition detectGrid (imageData : ImageData) : CalibrationData :=
  let width := width imageData in
  let height := height imageData in
  let grayscale := toGrayscale (data imageData) width height in
  let corners := harrisCornerDetection grayscale width height in
  let gridPoints := findGridPattern corners in
  if Nat.ltb (length gridPoints) (grid_minCells * 4) then createFailedCalibration grid
  else
    let cellSizePixels := calculateGridCellSize gridPoints in
    {| detected := true;
       pixelsPerCm := cellSizePixels / grid_cellSizeCm;
       confidence := calculateGridConfidence gridPoints;
       markerType := grid;
       referencePoints := gridPoints |}.

(** [detectCalibration]: ruler, then circle, then grid; otherwise the best
    of the three by [reduce]. *)
Definition detectCalibration (imageData : ImageData) : CalibrationData :=
  let rulerResult := detectRuler imageData in
  if detected rulerResult && (confidence rulerResult >? Fin 0.8) then rulerResult
  else
    let circleResult := detectCircle imageData in
    if detected circleResult && (confidence circleResult >? Fin 0.8) then circleResult
    else
      let gridResult := detectGrid imageData in
      if detected gridResult && (confidence gridResult >? Fin 0.8) then gridResult
      else
        fold_left (fun a b => if confidence a >? confidence b then a else b)
                  [circleResult; gridResult] rulerResult.

(** [manualCalibration].  The squares and the quotient are exact here; in
    binary64 [dx * dx] underflows to 0 for a difference below about 1e-162
    and the quotient for a huge [distanceCm], so the properties that need a
    positive scale are stated for points that are [clearlyDistinct] and
    distances of at most [1 / tiny]. *)
Definition manualCalibration (point1 point2 : Point) (distanceCm : num) : CalibrationData :=
  let dx := px point2 - px point1 in
  let dy := py point2 - py point1 in
  let distancePixels := Math_sqrt (dx * dx + dy * dy) in
  {| detected := true;
     pixelsPerCm := distancePixels / distanceCm;
     confidence := Fin 1;
     markerType := ruler;
     referencePoints := [point1; point2] |}.

(** ** Quality check engine *)

(** The engine's [thresholds] field. *)
Variable thresholds : QualityThresholds.

(** The Laplacian kernel of [checkBlur]. *)
Definition laplacianKernel : list (list num) :=
  [ [Fin 0; Fin 1; Fin 0];
    [Fin 1; Fin (-4); Fin 1];
    [Fin 0; Fin 1; Fin 0] ].

(** The kernel sum at pixel (x, y): [ky] and [kx] run from -1 to 1. *)
Definition kernelSum (kernel : list (list num)) (grayscale : list num)
    (width x y : nat) : num :=
  forRange 0 3
    (fun j sum =>
       forRange 0 3
         (fun k sum =>
            sum + grayscale !!! ((y + j - 1) * width + (x + k - 1))%nat
                  * (kernel !!! j) !!! k)
         sum)
    (Fin 0).

(** The Laplacian response: interior pixels receive the kernel sum, the
    one-pixel border keeps the initial zero. *)
Definition laplacianOf (grayscale : list num) (width height : nat) : list num :=
  forRange 1 (height - 1)
    (fun y laplacian =>
       forRange 1 (width - 1)
         (fun x laplacian =>
            <[(y * width + x)%nat := kernelSum laplacianKernel grayscale width x y]> laplacian)
         laplacian)
    (replicate (width * height) (Fin 0)).

(** The nonzero responses: their sum and their count. *)
Definition nonzeroSum (laplacian : list num) : num * num :=
  fold_left
    (fun '(mean, count) v =>
       if v !== Fin 0 then (mean + v, count + Fin 1) else (mean, count))
    laplacian (Fin 0, Fin 0).

Definition nonzeroSquares (laplacian : list num) (mean : num) : num :=
  fold_left
    (fun variance v =>
       if v !== Fin 0 then variance + Math_pow (v - mean) 2 else variance)
    laplacian (Fin 0).

(** [checkBlur]; its grayscale conversion is the formula of [toGrayscale]. *)
Definition checkBlur (imageData : ImageData) : BlurResult :=
  let width := width imageData in
  let height := height imageData in
  let grayscale := toGrayscale (data imageData) width height in
  let laplacian := laplacianOf grayscale width height in
  let '(mean, count) := nonzeroSum laplacian in
  let mean := mean / count in
  let variance := nonzeroSquares laplacian mean in
  let variance := variance / count in
  let normalizedScore := Math_min (Fin 1) (variance / Fin 1000) in
  {| blur_score := Math_round (normalizedScore * Fin 100) / Fin 100;
     blur_passed := normalizedScore >=? minBlurScore thresholds |}.

(** An index into a typed array: a non-negative integer. *)
Definition arrayIndex (x : num) : option nat :=
  match x with
  | Fin q =>
      if Qeqb (inject_Z (Qfloor q)) q && (0 <=? Qfloor q)%Z
      then Some (Z.to_nat (Qfloor q))
      else None
  | _ => None
  end.

(** [histogram[i]++]; a write outside the array does nothing. *)
Definition increment (histogram : list num) (i : num) : list num :=
  match arrayIndex i with
  | Some n => alter (fun c => c + Fin 1) n histogram
  | None => histogram
  end.

(** [Math.round(0.299 * r + 0.587 * g + 0.114 * b)] of pixel [i]. *)
Definition brightnessAt (data : list Byte.byte) (i : nat) : num :=
  let r := byteAt data (i * 4) in
  let g := byteAt data (i * 4 + 1) in
  let b := byteAt data (i * 4 + 2) in
  Math_round (Fin 0.299 * r + Fin 0.587 * g + Fin 0.114 * b).

Record LightingStats : Type := mkStats {
  totalBrightness : num;
  minBrightness : num;
  maxBrightness : num;
  brightnessHistogram : list num
}.

(** The brightness loop of [checkLighting]. *)
Definition lightingStats (imageData : ImageData) : LightingStats :=
  forRange 0 (width imageData * height imageData)
    (fun i s =>
       let brightness := brightnessAt (data imageData) i in
       {| totalBrightness := totalBrightness s + brightness;
          minBrightness := Math_min (minBrightness s) brightness;
          maxBrightness := Math_max (maxBrightness s) brightness;
          brightnessHistogram := increment (brightnessHistogram s) brightness |})
    {| totalBrightness := Fin 0;
       minBrightness := Fin 255;
       maxBrightness := Fin 0;
       brightnessHistogram := replicate 256 (Fin 0) |}.

Definition avgBrightness (imageData : ImageData) : num :=
  totalBrightness (lightingStats imageData)
  / ofNat (width imageData * height imageData).

Definition lightingIssues (imageData : ImageData) : list string :=
  let s := lightingStats imageData in
  let pixels := ofNat (width imageData * height imageData) in
  let avgBrightness := avgBrightness imageData in
  let dynamicRange := maxBrightness s - minBrightness s in
  let darkPixels := sumNums (take 50 (brightnessHistogram s)) in
  let darkPercentage := darkPixels / pixels in
  let brightPixels := sumNums (drop 245 (brightnessHistogram s)) in
  let brightPercentage := brightPixels / pixels in
  (if avgBrightness <? Fin 50 then ["Image is too dark"%string] else [])
  ++ (if avgBrightness >? Fin 200 then ["Image is too bright"%string] else [])
  ++ (if dynamicRange <? Fin 100 then ["Low contrast - poor lighting"%string] else [])
  ++ (if darkPercentage >? Fin 0.3 then ["Significant shadows detected"%string] else [])
  ++ (if brightPercentage >? Fin 0.1 then ["Overexposed regions detected"%string] else []).

(** [checkLighting] *)
Definition checkLighting (imageData : ImageData) : LightingResult :=
  let s := lightingStats imageData in
  let avgBrightness := avgBrightness imageData in
  let dynamicRange := maxBrightness s - minBrightness s in
  let issues := lightingIssues imageData in
  let score := Fin 1 in
  let score := score - Math_abs (avgBrightness - Fin 128) / Fin 256 * Fin 0.3 in
  let score := score - Math_max (Fin 0) ((Fin 150 - dynamicRange) / Fin 150) * Fin 0.3 in
  let score := score - ofNat (length issues) * Fin 0.15 in
  let score := Math_max (Fin 0) (Math_min (Fin 1) score) in
  {| lighting_score := Math_round (score * Fin 100) / Fin 100;
     lighting_passed :=
       (score >=? minLightingScore thresholds) && Nat.leb (length issues) 1;
     issues := issues |}.

(** [checkPerspective] *)
Definition checkPerspective (calibrationData : CalibrationData) : PerspectiveResult :=
  if negb (detected calibrationData)
     || Nat.ltb (length (referencePoints calibrationData)) 2
  then {| distortion := Fin 0; corrected := false |}
  else
    let distortion :=
      match markerType calibrationData with
      | ruler =>
          if Nat.leb 3 (length (referencePoints calibrationData))
          then coefficientOfVariation (spacingsOf (referencePoints calibrationData)) * Fin 45
          else Fin 0
      | _ => Fin 0
      end in
    let isCorrectable := distortion <=? maxPerspectiveDistortion thresholds in
    {| distortion := Math_round (distortion * Fin 10) / Fin 10;
       corrected := isCorrectable |}.

(** [runQualityChecks] *)
Definition runQualityChecks (imageData : ImageData)
    (calibrationData : CalibrationData) : QualityCheck :=
  let blurResult := checkBlur imageData in
  let lightingResult := checkLighting imageData in
  let perspectiveResult := checkPerspective calibrationData in
  let allPassed :=
    blur_passed blurResult
    && lighting_passed lightingResult
    && detected calibrationData
    && (confidence calibrationData >=? minCalibrationConfidence thresholds)
    && corrected perspectiveResult in
  {| passed := allPassed;
     blur := blurResult;
     lighting := lightingResult;
     q_detected := detected calibrationData;
     q_confidence := confidence calibrationData;
     perspective := perspectiveResult |}.

(** ** Reference notions used by the properties *)

(** The area of a polygon given by its vertices in order (shoelace formula). *)
Definition polygonArea (vertices : list Point) : num :=
  Math_abs
    (forRange 0 (length vertices)
       (fun i sum =>
          let p := vertices !!! i in
          let q := vertices !!! ((i + 1) mod length vertices)%nat in
          sum + (px p * py q - px q * py p))
       (Fin 0))
  / Fin 2.

(** Axis-aligned bounding box area of a point set. *)
Definition boundingBoxArea (points : list Point) : num :=
  let '(minX, maxX, minY, maxY) := boundingBox points in
  (maxX - minX) * (maxY - minY).

Definition clockwiseTriangle : list Point :=
  [ mkPoint (Fin 0) (Fin 0); mkPoint (Fin 0) (Fin 10); mkPoint (Fin 10) (Fin 0) ].

(** Consecutive triples of the hull stack (top first) turn strictly left:
    the test of the scan's [while] loop fails on them. *)
Fixpoint goodStack (hull : list Point) : Prop :=
  match hull with
  | [] => True
  | top :: rest =>
      match rest with
      | second :: third :: _ => (crossProduct third second top <=? Fin 0) = false
      | _ => True
      end
      /\ goodStack rest
  end.

(** The trend rule in the words of the specification: the average of the
    [areaChangePercent] of the last (up to) 3 progress entries, classified
    against -5 and 5. *)
Definition averageChange (progress : list HealingProgress) : num :=
  sumNums (map areaChangePercent (sliceLast 3 progress))
  / ofNat (length (sliceLast 3 progress)).

Definition classifyTrend (avgChange : num) : Trend :=
  if avgChange <? Fin (-5) then improving
  else if avgChange >? Fin 5 then worsening
  else stable.

(** The rational value of a finite number, and finite sums. *)
Definition numValue (x : num) : Q :=
  match x with
  | Fin q => q
  | _ => 0%Q
  end.

Definition isFin (x : num) : Prop := exists q : Q, x = Fin q.

Definition Qsum (l : list Q) : Q := foldr Qplus 0%Q l.

(** The number of brightness values below 50. *)
Definition darkCount (brightness : list num) : Q :=
  Qsum (map (fun b => if Qltb (numValue b) 50 then 1%Q else 0%Q) brightness).

(** The brightness of every pixel, in pixel order. *)
Definition brightnessValues (imageData : ImageData) : list num :=
  map (brightnessAt (data imageData)) (seq 0 (width imageData * height imageData)).

(** A perfectly uniform image: every pixel has the colour (r, g, b). *)
Definition isUniform (imageData : ImageData) (r g b : Byte.byte) : Prop :=
  forall i : nat,
    (i < width imageData * height imageData)%nat ->
    data imageData !! (i * 4)%nat = Some r
    /\ data imageData !! (i * 4 + 1)%nat = Some g
    /\ data imageData !! (i * 4 + 2)%nat = Some b.

(** A Laplacian response that the variance loops of [checkBlur] skip. *)
Definition isZeroResponse (v : num) : Prop := (v !== Fin 0) = false.

(** ** Concrete inputs *)

(** Trigonometry at the angle 0, where it is exact ([atan2(0, x) = 0] for
    [x > 0], [cos 0 = 1], [sin 0 = 0]).  It stands in for [Math.atan2],
    [Math.cos] and [Math.sin] when the engine is run on the inputs below:
    a contour of fewer than 3 points never reaches them, and on the
    axis-aligned square the box of every edge is the same 10 by 10 box. *)
Definition flatAtan2 : num -> num -> num := fun _ _ => Fin 0.
Definition flatCos : num -> num := fun _ => Fin 1.
Definition flatSin : num -> num := fun _ => Fin 0.

(** A corner detector that finds nothing. *)
Definition noCorners : list num -> nat -> nat -> list Point := fun _ _ _ => [].

Definition byteOf (n : N) : Byte.byte :=
  match Byte.of_N n with
  | Some b => b
  | None => Byte.xff
  end.

(** An opaque gray image from the gray level of each pixel. *)
Definition grayImage (width height : nat) (levels : list N) : ImageData :=
  {| data := flat_map (fun v => [byteOf v; byteOf v; byteOf v; byteOf 255]) levels;
     width := width;
     height := height |}.

(** A 4x4 checkerboard of gray levels 0 and 60: sharp, with average
    brightness 30. *)
Definition darkCheckerboard : ImageData :=
  grayImage 4 4 [0; 60; 0; 60; 60; 0; 60; 0; 0; 60; 0; 60; 60; 0; 60; 0]%N.

(** A 3x3 image of the single gray level 30. *)
Definition uniformGray : ImageData :=
  grayImage 3 3 [30; 30; 30; 30; 30; 30; 30; 30; 30]%N.

(** A 10x10 all-foreground mask with its square contour, at 10 px per cm. *)
Definition unitSquare : SegmentationResult :=
  {| mask := grayImage 10 10 (replicate 100 255%N);
     contour := [ mkPoint (Fin 0) (Fin 0); mkPoint (Fin 10) (Fin 0);
                  mkPoint (Fin 10) (Fin 10); mkPoint (Fin 0) (Fin 10) ];
     seg_confidence := Fin 1 |}.

(** A segmentation whose contour has only two points. *)
Definition twoPointContour : SegmentationResult :=
  {| mask := grayImage 10 10 (replicate 100 255%N);
     contour := [ mkPoint (Fin 0) (Fin 0); mkPoint (Fin 10) (Fin 0) ];
     seg_confidence := Fin 1 |}.

Definition tenPixelsPerCm : CalibrationData :=
  {| detected := true; pixelsPerCm := Fin 10; confidence := Fin 1;
     markerType := ruler;
     referencePoints := [ mkPoint (Fin 0) (Fin 0); mkPoint (Fin 10) (Fin 0) ] |}.

(** A detected circle marker: centre and one rim point, as [detectCircle]
    reports it. *)
Definition circleCalibration : CalibrationData :=
  {| detected := true; pixelsPerCm := Fin 20; confidence := Fin 0.9;
     markerType := circle;
     referencePoints := [ mkPoint (Fin 50) (Fin 50); mkPoint (Fin 75) (Fin 50) ] |}.

Definition assessmentOn (day : Z) (area : Q) : WoundAssessment :=
  {| a_id := "assessment";
     capturedAt := day * 86400000;
     measurement :=
       {| m_area := Fin area; m_length := Fin 0; m_width := Fin 0;
          m_perimeter := Fin 0 |} |}.

(** Sixteen corners 4 px apart along a diagonal, and a corner detector
    that reports them. *)
Definition diagonalCorners : list Point :=
  map (fun k => mkPoint (ofNat (4 * k)) (ofNat (4 * k))) (seq 0 16).

Definition fixedCorners : list num -> nat -> nat -> list Point :=
  fun _ _ _ => diagonalCorners.

(** The same triangle as [clockwiseTriangle], listed counter-clockwise. *)
Definition counterClockwiseTriangle : list Point :=
  [ mkPoint (Fin 0) (Fin 0); mkPoint (Fin 10) (Fin 0); mkPoint (Fin 0) (Fin 10) ].

(** Stand-ins for the pixel-level stages on a synthetic frame that shows
    both markers: two parallel Hough lines and five ticks spaced 21, 19, 21,
    19 px (coefficient of variation 0.05, ruler confidence 0.9), and one
    circle peak of circularity 0.85. *)
Definition sameEdges : list num -> nat -> nat -> list num := fun grayscale _ _ => grayscale.

Definition twoParallelLines : list num -> nat -> nat -> list HoughLine :=
  fun _ _ _ =>
    [ {| rho := Fin 10; theta := Fin 0; votes := Fin 50 |};
      {| rho := Fin 30; theta := Fin 0; votes := Fin 40 |} ].

Definition fiveTicks : list num -> nat -> nat -> list HoughLine -> list Point :=
  fun _ _ _ _ =>
    [ mkPoint (Fin 0) (Fin 0); mkPoint (Fin 21) (Fin 0); mkPoint (Fin 40) (Fin 0);
      mkPoint (Fin 61) (Fin 0); mkPoint (Fin 80) (Fin 0) ].

Definition oneCirclePeak : list num -> nat -> nat -> list Circle :=
  fun _ _ _ =>
    [ {| centerX := Fin 50; centerY := Fin 50; radius := Fin 25;
         circularity := Fin 0.85 |} ].

(** ** Further functions of the engines *)

(** Magnitudes between [tiny] and [1 / tiny] are those at which a binary64
    product or quotient of two numbers neither underflows nor overflows;
    [relativeMargin] is far above the relative error of a few binary64
    operations at such magnitudes (2^-53 each). *)
Definition tiny : Q := 1 # (2 ^ 500).
Definition relativeMargin : Q := 1 # (2 ^ 40).

(** Two coordinates that differ by at least [tiny] and by at least the
    fraction [relativeMargin] of their magnitudes: their binary64 difference
    is not 0 and its square does not underflow. *)
Definition apart (a b : Q) : Prop :=
  (tiny <= Qabs (b - a) /\ relativeMargin * (Qabs a + Qabs b) <= Qabs (b - a))%Q.

(** Two points with coordinates of magnitude at most [1 / tiny] that are
    [apart] in x or in y. *)
Definition clearlyDistinct (x1 y1 x2 y2 : Q) : Prop :=
  (Qabs x1 <= 1 / tiny /\ Qabs y1 <= 1 / tiny
   /\ Qabs x2 <= 1 / tiny /\ Qabs y2 <= 1 / tiny)%Q
  /\ (apart x1 x2 \/ apart y1 y2).

(** [Math.PI]: the double nearest to pi, as the exact fraction it is. *)
Definition Math_PI : num := Fin (884279719003555 # 281474976710656).

(** [calculateVolume] *)
Definition calculateVolume (area depth : num) : num :=
  round (Fin 0.327 * area * depth) 2.

Record ValidationResult : Type := mkValidation {
  isValid : bool;
  warnings : list string
}.

(** [validateMeasurement].  The two ratios are exact quotients here; the
    source compares their binary64 roundings, which can differ from them by
    a few units in the last place, and divides by a signed zero.  The
    properties below are therefore stated with the relative margin
    [relativeMargin] on each comparison and only for cases that do not
    depend on the sign of a zero. *)
Definition validateMeasurement (measurement : WoundMeasurement) : ValidationResult :=
  let aspectRatio := m_length measurement / m_width measurement in
  let expectedArea := (Math_PI / Fin 4) * m_length measurement * m_width measurement in
  let areaRatio := m_area measurement / expectedArea in
  let warnings :=
    (if m_area measurement >? Fin 1000
     then ["Area exceeds 1000 cm² - verify calibration"%string] else [])
    ++ (if (m_length measurement >? Fin 50) || (m_width measurement >? Fin 50)
        then ["Dimensions exceed 50 cm - verify calibration"%string] else [])
    ++ (if aspectRatio >? Fin 10
        then ["Unusual aspect ratio detected - verify segmentation"%string] else [])
    ++ (if (areaRatio <? Fin 0.3) || (areaRatio >? Fin 1.5)
        then ["Area inconsistent with dimensions - verify segmentation"%string] else []) in
  {| isValid := Nat.eqb (length warnings) 0; warnings := warnings |}.

(** [issues.includes(text)] *)
Definition includes (issues : list string) (text : string) : bool :=
  existsb (String.eqb text) issues.

(** [getRecommendations] *)
Definition getRecommendations (check : QualityCheck) : list string :=
  (if negb (blur_passed (blur check))
   then [ "Hold the camera steady or use a tripod"%string;
          "Ensure adequate lighting for faster shutter speed"%string;
          "Clean the camera lens"%string ]
   else [])
  ++ (if negb (lighting_passed (lighting check))
      then
        (if includes (issues (lighting check)) "Image is too dark"
         then [ "Increase ambient lighting"%string;
                "Use the camera flash if available"%string ]
         else [])
        ++ (if includes (issues (lighting check)) "Image is too bright"
            then [ "Reduce direct lighting on the wound"%string;
                   "Avoid harsh overhead lights"%string ]
            else [])
        ++ (if includes (issues (lighting check)) "Significant shadows detected"
            then [ "Use diffused lighting"%string;
                   "Adjust camera angle to reduce shadows"%string ]
            else [])
      else [])
  ++ (if negb (q_detected check)
      then [ "Ensure the calibration ruler is visible in the frame"%string;
             "Place the ruler on the same plane as the wound"%string;
             "Avoid covering the ruler markings"%string ]
      else [])
  ++ (if negb (corrected (perspective check))
      then [ "Position the camera perpendicular to the wound surface"%string;
             "Maintain consistent distance from the wound"%string ]
      else []).

(** [calculateCircularity] *)
Definition calculateCircularity (edgePoints : list Point) (cx cy radius : num) : num :=
  let tolerance := radius * Fin 0.1 in
  let onCircle :=
    fold_left
      (fun onCircle point =>
         let dist := Math_sqrt (Math_pow (px point - cx) 2 + Math_pow (py point - cy) 2) in
         if Math_abs (dist - radius) <? tolerance then onCircle + Fin 1 else onCircle)
      edgePoints (Fin 0) in
  let expectedPoints := Fin 2 * Math_PI * radius in
  Math_min (Fin 1) (onCircle / expectedPoints).

(** [calculatePercentile]; [None] is the [undefined] read past the end of
    the sorted copy. *)
Definition calculatePercentile (data : list num) (percentile : num) : option num :=
  let sorted := sortBy (fun a b => a - b) data in
  let idx := Math_floor ((percentile / Fin 100) * ofNat (length sorted)) in
  match arrayIndex idx with
  | Some i => sorted !! i
  | None => None
  end.

(** The histogram bin of a value in [otsuThreshold]. *)
Definition otsuBin (v : num) : num :=
  Math_min (Fin 255) (Math_max (Fin 0) (Math_floor v)).

Record OtsuState : Type := mkOtsu {
  o_sumB : num;
  o_wB : num;
  o_maximum : num;
  o_threshold : num;
  o_stopped : bool
}.

(** One iteration of the threshold loop of [otsuThreshold]; [o_stopped]
    records the [break]. *)
Definition otsuStep (histogram : list num) (total sum : num) (i : nat)
    (s : OtsuState) : OtsuState :=
  if o_stopped s then s
  else
    let wB := o_wB s + histogram !!! i in
    if wB === Fin 0
    then {| o_sumB := o_sumB s; o_wB := wB; o_maximum := o_maximum s;
            o_threshold := o_threshold s; o_stopped := false |}
    else
      let wF := total - wB in
      if wF === Fin 0
      then {| o_sumB := o_sumB s; o_wB := wB; o_maximum := o_maximum s;
              o_threshold := o_threshold s; o_stopped := true |}
      else
        let sumB := o_sumB s + ofNat i * histogram !!! i in
        let mB := sumB / wB in
        let mF := (sum - sumB) / wF in
        let between := wB * wF * Math_pow (mB - mF) 2 in
        if between >? o_maximum s
        then {| o_sumB := sumB; o_wB := wB; o_maximum := between;
                o_threshold := ofNat i; o_stopped := false |}
        else {| o_sumB := sumB; o_wB := wB; o_maximum := o_maximum s;
                o_threshold := o_threshold s; o_stopped := false |}.

(** [otsuThreshold] *)
Definition otsuThreshold (data : list num) : num :=
  let histogram :=
    fold_left (fun histogram v => increment histogram (otsuBin v)) data
      (replicate 256 (Fin 0)) in
  let total := ofNat (length data) in
  let sum :=
    forRange 0 256 (fun i sum => sum + ofNat i * histogram !!! i) (Fin 0) in
  o_threshold
    (forRange 0 256 (otsuStep histogram total sum)
       {| o_sumB := Fin 0; o_wB := Fin 0; o_maximum := Fin 0;
          o_threshold := Fin 0; o_stopped := false |}).


(** A 4x4 checkerboard of gray levels 60 and 200: sharp and evenly lit. *)
Definition brightCheckerboard : ImageData :=
  grayImage 4 4
    [60; 200; 60; 200; 200; 60; 200; 60; 60; 200; 60; 200; 200; 60; 200; 60]%N.

(** A detected circle marker whose confidence is below the default
    minimum. *)
Definition weakCircleCalibration : CalibrationData :=
  {| detected := true; pixelsPerCm := Fin 20; confidence := Fin 0.75;
     markerType := circle;
     referencePoints := [ mkPoint (Fin 50) (Fin 50); mkPoint (Fin 75) (Fin 50) ] |}.

(** The pixels a mask marks as wound: those whose red byte exceeds 127. *)
Definition isForeground (mask : ImageData) (i : nat) : bool :=
  match data mask !! (i * 4)%nat with
  | Some b => (127 <? Byte.to_N b)%N
  | None => false
  end.

Definition foregroundCount (mask : ImageData) : nat :=
  length (List.filter (isForeground mask) (seq 0 (width mask * height mask))).

(** Chronological order of assessments. *)
Definition earlier (a b : WoundAssessment) : Prop :=
  (capturedAt a <= capturedAt b)%Z.

(** Five ticks spaced 1, 1, 1 and 97 px, and a circle accumulator without
    peaks. *)
Definition unevenTicks : list num -> nat -> nat -> list HoughLine -> list Point :=
  fun _ _ _ _ =>
    [ mkPoint (Fin 0) (Fin 0); mkPoint (Fin 1) (Fin 0); mkPoint (Fin 2) (Fin 0);
      mkPoint (Fin 3) (Fin 0); mkPoint (Fin 100) (Fin 0) ].

Definition noCircles : list num -> nat -> nat -> list Circle := fun _ _ _ => [].

(** [count] points on a line: the first at (x0, y0), each one (dx, dy) from
    the one before. *)
Definition evenTicks (x0 y0 dx dy : Q) (count : nat) : list Point :=
  map (fun k => mkPoint (Fin (x0 + inject_Z (Z.of_nat k) * dx))
                        (Fin (y0 + inject_Z (Z.of_nat k) * dy)))
      (seq 0 count).

(** A number that is NaN, +Infinity or a non-negative rational. *)
Definition notNegative (x : num) : Prop :=
  x = NaN \/ x = Inf false \/ exists q : Q, x = Fin q /\ (0 <= q)%Q.

(** A reported score: NaN, or a whole number of hundredths between 0 and 1. *)
Definition isScore (x : num) : Prop :=
  x = NaN
  \/ exists (q : Q) (k : Z), x = Fin q /\ (0 <= k <= 100)%Z /\ (q * 100 == inject_Z k)%Q.

(** A 20 by 10 px rectangular contour around the all-foreground mask. *)
Definition wideRectangle : SegmentationResult :=
  {| mask := grayImage 10 10 (replicate 100 255%N);
     contour := [ mkPoint (Fin 0) (Fin 0); mkPoint (Fin 20) (Fin 0);
                  mkPoint (Fin 20) (Fin 10); mkPoint (Fin 0) (Fin 10) ];
     seg_confidence := Fin 1 |}.

(** The brightness [checkLighting] gives a pixel of colour (r, g, b). *)
Definition brightnessOf (r g b : Byte.byte) : num :=
  Math_round (Fin 0.299 * ofZ (Z.of_N (Byte.to_N r))
              + Fin 0.587 * ofZ (Z.of_N (Byte.to_N g))
              + Fin 0.114 * ofZ (Z.of_N (Byte.to_N b))).
(** The tick that [detectTickMarks] reports for the profile position [i]:
    [(i - profileLength / 2) * cos + width / 2] and the same with [sin] and
    [height]. *)
Definition tickAt (cos sin : num) (width height profileLength : nat) (i : Z) : Point :=
  {| px := (ofZ i - ofNat profileLength / Fin 2) * cos + ofNat width / Fin 2;
     py := (ofZ i - ofNat profileLength / Fin 2) * sin + ofNat height / Fin 2 |}.

(** A finite number above 0. *)
Definition positiveFin (x : num) : Prop := exists r : Q, x = Fin r /\ (0 < r)%Q.

(** Stand-ins for a frame with five ticks on a horizontal line, at the
    profile positions 10, 31, 50, 71, 90 of a profile of length 100, and with
    one circle peak of radius 1 whose seven edge points lie on it. *)
Definition lineTicks : list num -> nat -> nat -> list HoughLine -> list Point :=
  fun _ width height _ =>
    map (tickAt (Fin 1) (Fin 0) width height 100) [10; 31; 50; 71; 90]%Z.

Definition rimPoints : list Point := replicate 7 (mkPoint (Fin 1) (Fin 0)).

Definition rimPeak : list num -> nat -> nat -> list Circle :=
  fun _ _ _ =>
    [ {| centerX := Fin 0; centerY := Fin 0; radius := Fin 1;
         circularity := Fin 1 |} ].

(** * Properties *)

(** ** Facts about numbers *)

Ltac qcmp :=
  repeat match goal with
    | H : context [Qred ?a] |- _ =>
        lazymatch goal with
        | _ : Qred a == a |- _ => fail
        | _ => pose proof (Qred_correct a)
        end
    | |- context [Qred ?a] =>
        lazymatch goal with
        | _ : Qred a == a |- _ => fail
        | _ => pose proof (Qred_correct a)
        end
    end;
  repeat match goal with
    | |- context [Qcompare ?a ?b] => destruct (Qcompare_spec a b)
    | H : context [Qcompare ?a ?b] |- _ => destruct (Qcompare_spec a b)
    end;
  simpl in *; try discriminate; try reflexivity; try lra.

Ltac num_unfold :=
  unfold ngt, nge, nlt, nle, nseq, nsne, Math_min, Math_max, ncompare,
    nsub, nadd, nopp, nmul, ndiv, fin, Qltb, Qeqb, ofNat, ofZ in *.

Ltac num_cases :=
  repeat match goal with
    | x : num |- _ => destruct x as [| [|] |?]
    end;
  num_unfold; simpl in *; try discriminate; try reflexivity; qcmp.

Lemma nlt_irrefl (a : num) : (a <? a) = false.
Proof. num_cases. Qed.

Lemma nlt_trans (a b c : num) :
  (a <? b) = true -> (b <? c) = true -> (a <? c) = true.
Proof. num_cases. Qed.

Lemma nseq_trans (a b c : num) :
  (a === b) = true -> (b === c) = true -> (a === c) = true.
Proof. num_cases. Qed.

Lemma nlt_seq_l (a b c : num) :
  (a === b) = true -> (b <? c) = true -> (a <? c) = true.
Proof. num_cases. Qed.

Lemma nlt_seq_r (a b c : num) :
  (a <? b) = true -> (b === c) = true -> (a <? c) = true.
Proof. num_cases. Qed.

Lemma ngt_not_nle (a : num) : (a >? Fin 0) = true -> (a <=? Fin 0) = false.
Proof. num_cases. Qed.

Lemma ndiv_zero_pos (a : num) : (a >? Fin 0) = true -> Fin 0 / a = Fin 0.
Proof.
  destruct a as [| [|] | q]; num_unfold; simpl; try discriminate; try reflexivity.
  intros H. destruct (Qcompare_spec q 0).
  - exfalso. qcmp.
  - exfalso. qcmp.
  - reflexivity.
Qed.

(** ** Measurement engine *)

(** C1. [calculateMeasurements] throws exactly when the calibration is
    undetected or its scale is [<= 0]; with a detected calibration and a
    positive scale it returns a measurement. *)
Theorem calculateMeasurements_throws_iff
    (segmentation : SegmentationResult) (calibration : CalibrationData) :
  ((exists message, calculateMeasurements segmentation calibration = Throw message)
   <-> (detected calibration = false
        \/ (pixelsPerCm calibration <=? Fin 0) = true))
  /\ (detected calibration = true ->
      (pixelsPerCm calibration >? Fin 0) = true ->
      exists m, calculateMeasurements segmentation calibration = Return m).
Proof.
  unfold calculateMeasurements.
  destruct (detected calibration) eqn:Hd;
    destruct (pixelsPerCm calibration <=? Fin 0) eqn:Hp; simpl.
  - split.
    + split; [auto | intros _; eauto].
    + intros _ Hpos. apply ngt_not_nle in Hpos. congruence.
  - destruct (calculateLengthWidth (contour segmentation)) as [l w].
    split.
    + split.
      * intros [message H]. discriminate.
      * intros [H | H]; discriminate.
    + intros _ _. eauto.
  - split; [split; [auto | intros _; eauto] | discriminate].
  - split; [split; [auto | intros _; eauto] | discriminate].
Qed.

(** C9. A contour of fewer than 3 points, measured under a valid calibration,
    gives perimeter, length and width 0 and no error. *)
Theorem degenerate_contour_measures_zero
    (segmentation : SegmentationResult) (calibration : CalibrationData) :
  (length (contour segmentation) < 3)%nat ->
  detected calibration = true ->
  (pixelsPerCm calibration >? Fin 0) = true ->
  exists m,
    calculateMeasurements segmentation calibration = Return m
    /\ m_perimeter m = Fin 0 /\ m_length m = Fin 0 /\ m_width m = Fin 0.
Proof.
  intros Hlen Hd Hpos.
  unfold calculateMeasurements, calculateLengthWidth, calculatePerimeter.
  rewrite Hd, (ngt_not_nle _ Hpos). simpl.
  apply Nat.ltb_lt in Hlen. rewrite Hlen.
  rewrite (ndiv_zero_pos _ Hpos).
  eexists. split; [reflexivity |]. simpl. repeat split; reflexivity.
Qed.

(** C8. On the triangle (0,0), (0,10), (10,0), listed clockwise, the scan
    runs over the unsorted points, pops (0,10) and leaves two points; the
    rectangle then has area 0: within the bounding box area 100, but below
    the area 50 of the triangle, which is its own convex hull. *)
Theorem minAreaRect_below_hull_area :
  convexHull clockwiseTriangle = [mkPoint (Fin 0) (Fin 0); mkPoint (Fin 10) (Fin 0)]
  /\ minAreaRect (convexHull clockwiseTriangle)
     = {| r_width := Fin 0; r_height := Fin 0; r_angle := Fin 0 |}
  /\ calculateLengthWidth clockwiseTriangle = (Fin 0, Fin 0)
  /\ polygonArea clockwiseTriangle = Fin 50
  /\ boundingBoxArea clockwiseTriangle = Fin 100
  /\ (r_width (minAreaRect (convexHull clockwiseTriangle))
      * r_height (minAreaRect (convexHull clockwiseTriangle))
      <? polygonArea clockwiseTriangle) = true.
Proof.
  assert (H : convexHull clockwiseTriangle
              = [mkPoint (Fin 0) (Fin 0); mkPoint (Fin 10) (Fin 0)])
    by reflexivity.
  split; [exact H |].
  unfold calculateLengthWidth. rewrite H.
  repeat split; reflexivity.
Qed.
(** *** The hull scan *)

Lemma lowerThan_irrefl (p : Point) : lowerThan p p = false.
Proof. unfold lowerThan. rewrite !nlt_irrefl. apply andb_false_r. Qed.

Lemma lowerThan_trans (p l m : Point) :
  lowerThan p l = true -> lowerThan l m = true -> lowerThan p m = true.
Proof.
  unfold lowerThan. rewrite !orb_true_iff, !andb_true_iff.
  intros [H | [H1 H2]] [G | [G1 G2]].
  - left. eapply nlt_trans; eassumption.
  - left. eapply nlt_seq_r; eassumption.
  - left. eapply nlt_seq_l; eassumption.
  - right. split; [eapply nseq_trans | eapply nlt_trans]; eassumption.
Qed.

Lemma lowerThan_min (p l m : Point) :
  lowerThan p m = false -> lowerThan l m = true -> lowerThan p l = false.
Proof.
  intros Hpm Hlm. destruct (lowerThan p l) eqn:Hpl; [| reflexivity].
  rewrite (lowerThan_trans _ _ _ Hpl Hlm) in Hpm. discriminate.
Qed.

(** The "find lowest" loop returns an index below which no point lies. *)
Lemma findLowest_prefix (points : list Point) (k : nat) :
  let lowest :=
    fold_left
      (fun lowest i =>
         if lowerThan (points !!! i) (points !!! lowest) then i else lowest)
      (seq 1 k) 0%nat in
  (lowest <= k)%nat
  /\ forall j, (j <= k)%nat ->
       lowerThan (points !!! j) (points !!! lowest) = false.
Proof.
  cbv zeta. induction k as [| k [IHle IHmin]].
  - simpl. split; [lia |]. intros j Hj. replace j with 0%nat by lia.
    apply lowerThan_irrefl.
  - rewrite seq_S, fold_left_app. cbn [fold_left Nat.add].
    set (lowest := fold_left _ (seq 1 k) 0%nat) in *.
    destruct (lowerThan (points !!! S k) (points !!! lowest)) eqn:Hlow.
    + split; [lia |]. intros j Hj.
      destruct (decide (j = S k)) as [-> | Hne].
      * apply lowerThan_irrefl.
      * eapply lowerThan_min; [apply IHmin; lia | exact Hlow].
    + split; [lia |]. intros j Hj.
      destruct (decide (j = S k)) as [-> | Hne]; [exact Hlow | apply IHmin; lia].
Qed.

Lemma findLowest_spec (points : list Point) :
  (0 < length points)%nat ->
  (findLowest points < length points)%nat
  /\ forall q, q ∈ points -> lowerThan q (points !!! findLowest points) = false.
Proof.
  intros Hlen. unfold findLowest, forRange.
  destruct (findLowest_prefix points (length points - 1)) as [Hle Hmin].
  split; [lia |].
  intros q Hq. apply list_elem_of_lookup in Hq as [j Hj].
  pose proof (lookup_lt_Some _ _ _ Hj) as Hlt.
  apply list_lookup_total_correct in Hj. subst q.
  apply Hmin. lia.
Qed.

Lemma findLowest_first (points : list Point) :
  (forall q, q ∈ points -> lowerThan q (points !!! 0%nat) = false) ->
  findLowest points = 0%nat.
Proof.
  intros Hmin. unfold findLowest, forRange.
  assert (H : forall l, Forall (fun i => (i < length points)%nat) l ->
              fold_left
                (fun lowest i =>
                   if lowerThan (points !!! i) (points !!! lowest) then i else lowest)
                l 0%nat = 0%nat).
  { induction l as [| i l IH]; [reflexivity |].
    intros Hall. apply Forall_cons in Hall as [Hi Hall]. simpl.
    rewrite Hmin; [apply IH, Hall |].
    apply list_elem_of_lookup. exists i.
    apply list_lookup_lookup_total_lt, Hi. }
  apply H. apply Forall_forall. intros i Hi.
  apply elem_of_seq in Hi. lia.
Qed.

Lemma swapFirst_elem (points : list Point) (lowest : nat) (q : Point) :
  (lowest < length points)%nat ->
  q ∈ swapFirst points lowest -> q ∈ points.
Proof.
  intros Hlow Hq. unfold swapFirst in Hq.
  apply list_elem_of_lookup in Hq as [i Hi].
  apply list_lookup_insert_Some in Hi as [(_ & <- & _) | (_ & Hi)].
  - apply list_elem_of_lookup. exists 0%nat.
    apply list_lookup_lookup_total_lt. lia.
  - apply list_lookup_insert_Some in Hi as [(_ & <- & _) | (_ & Hi)].
    + apply list_elem_of_lookup. exists lowest.
      apply list_lookup_lookup_total_lt. lia.
    + apply list_elem_of_lookup. eauto.
Qed.

Lemma swapFirst_head (points : list Point) (lowest : nat) :
  (lowest < length points)%nat ->
  swapFirst points lowest !!! 0%nat = points !!! lowest.
Proof.
  intros Hlow. unfold swapFirst.
  destruct (decide (lowest = 0%nat)) as [-> | Hne].
  - rewrite list_lookup_total_insert_eq; [reflexivity |].
    rewrite length_insert. lia.
  - rewrite list_lookup_total_insert_ne by exact Hne.
    apply list_lookup_total_insert_eq. lia.
Qed.

Lemma swapFirst_length (points : list Point) (lowest : nat) :
  length (swapFirst points lowest) = length points.
Proof. unfold swapFirst. rewrite !length_insert. reflexivity. Qed.

Lemma goodStack_app (l1 l2 : list Point) : goodStack (l1 ++ l2) -> goodStack l2.
Proof.
  induction l1 as [| p l1 IH]; simpl; [auto |]. intros [_ H]. apply IH, H.
Qed.

Lemma popWhile_good (hull : list Point) (p : Point) :
  goodStack hull -> goodStack (popWhile hull p).
Proof.
  induction hull as [| top rest IH]; [auto |].
  intros Hgood. simpl. destruct rest as [| second rest']; [exact Hgood |].
  destruct (crossProduct second top p <=? Fin 0); [| exact Hgood].
  apply IH. apply Hgood.
Qed.

Lemma popWhile_top (hull : list Point) (p : Point) :
  match popWhile hull p with
  | top :: second :: _ => (crossProduct second top p <=? Fin 0) = false
  | _ => True
  end.
Proof.
  induction hull as [| top rest IH]; [exact I |].
  simpl. destruct rest as [| second rest']; [exact I |].
  destruct (crossProduct second top p <=? Fin 0) eqn:Hturn; [exact IH | exact Hturn].
Qed.

Lemma popWhile_nonempty (hull : list Point) (p : Point) :
  hull <> [] -> popWhile hull p <> [].
Proof.
  induction hull as [| top rest IH]; [congruence |].
  intros _. simpl. destruct rest as [| second rest']; [congruence |].
  destruct (crossProduct second top p <=? Fin 0); [| congruence].
  apply IH. congruence.
Qed.

Lemma popWhile_last (hull : list Point) (p : Point) :
  last (popWhile hull p) = last hull.
Proof.
  induction hull as [| top rest IH]; [reflexivity |].
  simpl popWhile. destruct rest as [| second rest']; [reflexivity |].
  destruct (crossProduct second top p <=? Fin 0); [| reflexivity].
  rewrite IH. reflexivity.
Qed.

Lemma popWhile_elem (hull : list Point) (p q : Point) :
  q ∈ popWhile hull p -> q ∈ hull.
Proof.
  induction hull as [| top rest IH]; [auto |].
  simpl. destruct rest as [| second rest']; [auto |].
  destruct (crossProduct second top p <=? Fin 0); [| auto].
  intros H. apply elem_of_cons. right. apply IH, H.
Qed.

Lemma popWhile_id (hull : list Point) (p : Point) :
  goodStack (p :: hull) -> popWhile hull p = hull.
Proof.
  destruct hull as [| top [| second rest]]; simpl; try reflexivity.
  intros [H _]. rewrite H. reflexivity.
Qed.

Lemma scanStep_good (hull : list Point) (p : Point) :
  goodStack hull -> goodStack (scanStep hull p).
Proof.
  intros Hgood. unfold scanStep. simpl. split.
  - pose proof (popWhile_top hull p) as Htop.
    destruct (popWhile hull p) as [| top [| second rest]]; auto.
  - apply popWhile_good, Hgood.
Qed.

Lemma scan_spec (rest hull : list Point) :
  hull <> [] -> goodStack hull ->
  let stack := fold_left scanStep rest hull in
  goodStack stack
  /\ last stack = last hull
  /\ (forall q, q ∈ stack -> q ∈ rest \/ q ∈ hull)
  /\ ((2 <= length hull)%nat -> (2 <= length stack)%nat).
Proof.
  revert hull. induction rest as [| p rest IH]; intros hull Hne Hgood; simpl.
  - repeat split; auto.
  - destruct (IH (scanStep hull p)) as (Hg & Hlast & Helem & Hlen).
    + unfold scanStep. congruence.
    + apply scanStep_good, Hgood.
    + repeat split.
      * exact Hg.
      * rewrite Hlast. unfold scanStep.
        pose proof (popWhile_nonempty hull p Hne) as Hpop.
        destruct (popWhile hull p) as [| top r] eqn:Hp; [congruence |].
        rewrite <- (popWhile_last hull p), Hp. reflexivity.
      * intros q Hq. apply Helem in Hq as [Hq | Hq].
        -- left. apply elem_of_cons. auto.
        -- unfold scanStep in Hq. apply elem_of_cons in Hq as [-> | Hq].
           ++ left. apply elem_of_cons. auto.
           ++ right. eapply popWhile_elem, Hq.
      * intros _. apply Hlen. unfold scanStep.
        pose proof (popWhile_nonempty hull p Hne) as Hpop.
        destruct (popWhile hull p); [congruence | simpl; lia].
Qed.

(** Scanning the points of a stack that is already good pushes them back
    without popping. *)
Lemma scan_replay (rest hull : list Point) :
  goodStack (rev rest ++ hull) ->
  fold_left scanStep rest hull = rev rest ++ hull.
Proof.
  revert hull. induction rest as [| p rest IH]; intros hull Hgood; [reflexivity |].
  simpl in *. rewrite <- app_assoc in Hgood. simpl in Hgood.
  unfold scanStep at 2.
  rewrite (popWhile_id hull p (goodStack_app _ _ Hgood)).
  rewrite (IH (p :: hull) Hgood), <- app_assoc. reflexivity.
Qed.

(** C7. Applying [convexHull] to its own output returns that output: the
    hull computation is idempotent, as a list and therefore as a set. *)
Theorem convexHull_idempotent (points : list Point) :
  convexHull (convexHull points) = convexHull points
  /\ forall p, p ∈ convexHull (convexHull points) <-> p ∈ convexHull points.
Proof.
  assert (Heq : convexHull (convexHull points) = convexHull points);
    [| split; [exact Heq | intros p; rewrite Heq; tauto]].
  destruct (Nat.ltb (length points) 3) eqn:Hlen.
  { assert (H : convexHull points = points)
      by (unfold convexHull; rewrite Hlen; reflexivity).
    rewrite !H. reflexivity. }
  apply Nat.ltb_ge in Hlen.
  destruct (findLowest_spec points) as [Hlow Hmin]; [lia |].
  set (sorted := swapFirst points (findLowest points)).
  set (stack := fold_left scanStep (drop 2 sorted) [sorted !!! 1%nat; sorted !!! 0%nat]).
  assert (Hhull : convexHull points = rev stack).
  { unfold convexHull. apply Nat.ltb_ge in Hlen. rewrite Hlen. reflexivity. }
  assert (Hslen : length sorted = length points) by apply swapFirst_length.
  destruct (scan_spec (drop 2 sorted) [sorted !!! 1%nat; sorted !!! 0%nat])
    as (Hgood & Hlast & Helem & Hlen2); [congruence | simpl; tauto |].
  fold stack in Hgood, Hlast, Helem, Hlen2.
  simpl in Hlast. specialize (Hlen2 ltac:(simpl; lia)).
  assert (Hsub : forall q, q ∈ stack -> lowerThan q (sorted !!! 0%nat) = false).
  { intros q Hq. unfold sorted at 1. rewrite swapFirst_head by exact Hlow.
    apply Hmin. apply (swapFirst_elem _ (findLowest points)); [exact Hlow |].
    fold sorted. apply Helem in Hq as [Hq | Hq].
    - apply list_elem_of_lookup in Hq as [i Hi].
      rewrite lookup_drop in Hi. apply list_elem_of_lookup. eauto.
    - apply list_elem_of_lookup.
      apply elem_of_cons in Hq as [-> | Hq];
        [| apply elem_of_cons in Hq as [-> | Hq]; [| inversion Hq]].
      + exists 1%nat. apply list_lookup_lookup_total_lt. lia.
      + exists 0%nat. apply list_lookup_lookup_total_lt. lia. }
  apply last_Some in Hlast as [above Hstack].
  rewrite Hhull.
  assert (Hrev : rev stack = sorted !!! 0%nat :: rev above).
  { rewrite Hstack, rev_app_distr. reflexivity. }
  destruct (rev above) as [| h1 suf] eqn:Habove.
  { apply (f_equal (@length Point)) in Habove.
    rewrite length_rev in Habove. rewrite Hstack, length_app in Hlen2.
    simpl in *. lia. }
  rewrite Hrev.
  unfold convexHull.
  destruct (Nat.ltb (length (sorted !!! 0%nat :: h1 :: suf)) 3) eqn:Hshort;
    [reflexivity |].
  rewrite findLowest_first.
  - simpl. rewrite scan_replay.
    + rewrite rev_app_distr, rev_involutive. reflexivity.
    + replace (rev suf ++ [h1; sorted !!! 0%nat])
        with (rev (sorted !!! 0%nat :: h1 :: suf))
        by (simpl; rewrite <- !app_assoc; reflexivity).
      rewrite <- Hrev, rev_involutive. exact Hgood.
  - intros q Hq. simpl. apply Hsub.
    rewrite <- Hrev in Hq. apply list_elem_of_In. apply list_elem_of_In in Hq.
    apply in_rev. exact Hq.
Qed.
(** ** Calibration engine *)

Lemma detectRuler_cases (imageData : ImageData) :
  detectRuler imageData = createFailedCalibration ruler
  \/ detected (detectRuler imageData) = true.
Proof.
  unfold detectRuler.
  destruct (Nat.ltb (length (findParallelLines _)) 2); [left; reflexivity |].
  destruct (Nat.ltb (length (detectTickMarks _ _ _ _)) ruler_minTickCount);
    [left | right]; reflexivity.
Qed.

Lemma bestCircleOf_elem (first : Circle) (others : list Circle) :
  bestCircleOf first others ∈ first :: others.
Proof.
  unfold bestCircleOf. revert first.
  induction others as [| b others IH]; intros first; simpl.
  - apply elem_of_cons. auto.
  - destruct (circularity first >? circularity b).
    + specialize (IH first). apply elem_of_cons in IH as [-> | IH].
      * apply elem_of_cons. auto.
      * apply elem_of_cons. right. apply elem_of_cons. auto.
    + apply elem_of_cons. right. apply IH.
Qed.

Lemma detectCircle_cases (imageData : ImageData) :
  detectCircle imageData = createFailedCalibration circle
  \/ (detected (detectCircle imageData) = true
      /\ (confidence (detectCircle imageData) >? Fin 0.7) = true).
Proof.
  unfold detectCircle.
  destruct (houghCircleTransform _ _ _) as [| first others] eqn:Hc; [left; reflexivity |].
  right. split; [reflexivity |]. simpl.
  pose proof (bestCircleOf_elem first others) as Hin.
  rewrite <- Hc in Hin. unfold houghCircleTransform in Hin.
  apply list_elem_of_In, filter_In in Hin as [_ Hin]. exact Hin.
Qed.

Lemma detectGrid_cases (imageData : ImageData) :
  detectGrid imageData = createFailedCalibration grid
  \/ (detected (detectGrid imageData) = true
      /\ exists q, confidence (detectGrid imageData) = Fin q).
Proof.
  unfold detectGrid.
  destruct (Nat.ltb (length (findGridPattern _)) (grid_minCells * 4));
    [left; reflexivity |].
  right. split; [reflexivity |]. simpl. unfold calculateGridConfidence.
  destruct (Nat.ltb (length (findGridPattern _)) 4); [eauto |].
  unfold Math_min, ofNat, ofZ, ndiv, fin. simpl.
  destruct (Qcompare _ _); eauto.
Qed.

(** The best-of-three fallback never returns a candidate that another one
    beats, as long as the later two confidences are numbers. *)
Lemma best_of_three (cr cc cg : num) :
  cc <> NaN -> cg <> NaN ->
  let c1 := if cr >? cc then cr else cc in
  let best := if c1 >? cg then c1 else cg in
  (cr >? best) = false /\ (cc >? best) = false /\ (cg >? best) = false.
Proof.
  intros Hc Hg. cbv zeta.
  destruct cr as [| [|] | r], cc as [| [|] | c], cg as [| [|] | g];
    try congruence; num_unfold; simpl; repeat split; qcmp.
Qed.

(** C3. [detectCalibration] returns the ruler result when its confidence
    exceeds 0.8, else the circle result when its confidence does, else the
    grid result when its confidence does; otherwise one of the three that
    none of them beats.  With ruler confidence 0.9 and circle confidence
    0.85 the ruler result is returned. *)
Theorem detectCalibration_priority (imageData : ImageData) :
  let r := detectRuler imageData in
  let c := detectCircle imageData in
  let g := detectGrid imageData in
  let result := detectCalibration imageData in
  ((confidence r >? Fin 0.8) = true -> result = r)
  /\ ((confidence r >? Fin 0.8) = false ->
      (confidence c >? Fin 0.8) = true -> result = c)
  /\ ((confidence r >? Fin 0.8) = false ->
      (confidence c >? Fin 0.8) = false ->
      (confidence g >? Fin 0.8) = true -> result = g)
  /\ ((confidence r >? Fin 0.8) = false ->
      (confidence c >? Fin 0.8) = false ->
      (confidence g >? Fin 0.8) = false ->
      (result = r \/ result = c \/ result = g)
      /\ forall x, x ∈ [r; c; g] -> (confidence x >? confidence result) = false)
  /\ ((confidence r === Fin 0.9) = true ->
      (confidence c === Fin 0.85) = true -> result = r).
Proof.
  cbv zeta. unfold detectCalibration.
  assert (Hr : (confidence (detectRuler imageData) >? Fin 0.8) = true ->
               detected (detectRuler imageData) = true).
  { destruct (detectRuler_cases imageData) as [-> | ->]; [discriminate | auto]. }
  assert (Hc : (confidence (detectCircle imageData) >? Fin 0.8) = true ->
               detected (detectCircle imageData) = true).
  { destruct (detectCircle_cases imageData) as [-> | [-> _]]; [discriminate | auto]. }
  assert (Hg : (confidence (detectGrid imageData) >? Fin 0.8) = true ->
               detected (detectGrid imageData) = true).
  { destruct (detectGrid_cases imageData) as [-> | [-> _]]; [discriminate | auto]. }
  assert (Hcn : confidence (detectCircle imageData) <> NaN).
  { destruct (detectCircle_cases imageData) as [-> | [_ H]]; [discriminate |].
    intros E. rewrite E in H. discriminate. }
  assert (Hgn : confidence (detectGrid imageData) <> NaN).
  { destruct (detectGrid_cases imageData) as [-> | [_ [q ->]]]; discriminate. }
  destruct (confidence (detectRuler imageData) >? Fin 0.8) eqn:Er.
  { rewrite (Hr eq_refl). simpl.
    repeat split; try discriminate; auto. }
  rewrite andb_false_r.
  destruct (confidence (detectCircle imageData) >? Fin 0.8) eqn:Ec.
  { rewrite (Hc eq_refl). simpl.
    repeat split; try discriminate; auto.
    intros H9 _. exfalso. revert Er H9.
    generalize (confidence (detectRuler imageData)). intros n. num_cases. }
  rewrite andb_false_r.
  destruct (confidence (detectGrid imageData) >? Fin 0.8) eqn:Eg.
  { rewrite (Hg eq_refl). simpl.
    repeat split; try discriminate; auto.
    intros H9 _. exfalso. revert Er H9.
    generalize (confidence (detectRuler imageData)). intros n. num_cases. }
  rewrite andb_false_r. simpl.
  repeat split; try discriminate.
  - destruct (confidence (detectRuler imageData) >? confidence (detectCircle imageData));
      match goal with |- context [if ?b then _ else _] => destruct b end; auto.
  - intros x Hx.
    pose proof (best_of_three (confidence (detectRuler imageData))
                  (confidence (detectCircle imageData))
                  (confidence (detectGrid imageData)) Hcn Hgn) as Hbest.
    cbv zeta in Hbest. revert Hbest.
    destruct (confidence (detectRuler imageData) >? confidence (detectCircle imageData));
      match goal with |- context [if ?b then _ else _] => destruct b end;
      intros (Hb1 & Hb2 & Hb3);
      repeat (apply elem_of_cons in Hx as [-> | Hx]); auto; inversion Hx.
  - intros H9 _. exfalso. revert Er H9.
    generalize (confidence (detectRuler imageData)). intros n. num_cases.
Qed.
Lemma sortInsert_elem {A : Type} (cmp : A -> A -> num) (a x : A) (l : list A) :
  x ∈ sortInsert cmp a l -> x = a \/ x ∈ l.
Proof.
  induction l as [| b l IH]; simpl.
  - intros H. apply elem_of_cons in H as [-> | H]; [auto | inversion H].
  - destruct (cmp a b >? Fin 0); intros H.
    + apply elem_of_cons in H as [-> | H].
      * right. apply elem_of_cons. auto.
      * apply IH in H as [-> | H]; [auto | right; apply elem_of_cons; auto].
    + apply elem_of_cons in H as [-> | H]; auto.
Qed.

Lemma sortBy_elem {A : Type} (cmp : A -> A -> num) (x : A) (l : list A) :
  x ∈ sortBy cmp l -> x ∈ l.
Proof.
  unfold sortBy. induction l as [| a l IH]; simpl; [auto |].
  intros H. apply sortInsert_elem in H as [-> | H]; apply elem_of_cons; auto.
Qed.

Lemma gridSpacings_above (gridPoints : list Point) (s : num) :
  s ∈ gridSpacings gridPoints -> (s >? Fin 5) = true.
Proof.
  unfold gridSpacings. intros H.
  apply list_elem_of_In, in_flat_map in H as (i & _ & H).
  apply in_app_or in H as [H | H];
    match type of H with
    | In _ (if ?b then _ else _) => destruct b eqn:E; [| destruct H]
    end;
    destruct H as [<- | []]; exact E.
Qed.

(** The grid cell size is the median of spacings above 5 px, or 0. *)
Lemma calculateGridCellSize_range (gridPoints : list Point) :
  calculateGridCellSize gridPoints = Fin 0
  \/ (calculateGridCellSize gridPoints >? Fin 5) = true.
Proof.
  unfold calculateGridCellSize.
  destruct (sortBy _ (gridSpacings gridPoints) !! _) as [s |] eqn:Hs; [| auto].
  destruct (truthy s); [| auto]. right.
  eapply gridSpacings_above, sortBy_elem.
  apply list_elem_of_lookup. eauto.
Qed.

Lemma detectGrid_scale (imageData : ImageData) :
  detected (detectGrid imageData) = true ->
  pixelsPerCm (detectGrid imageData) = Fin 0
  \/ (pixelsPerCm (detectGrid imageData) >? Fin 5) = true.
Proof.
  unfold detectGrid.
  destruct (Nat.ltb (length (findGridPattern _)) (grid_minCells * 4));
    [discriminate |].
  intros _. simpl.
  destruct (calculateGridCellSize_range
              (findGridPattern
                 (harrisCornerDetection
                    (toGrayscale (data imageData) (width imageData) (height imageData))
                    (width imageData) (height imageData)))) as [-> | H].
  - left. reflexivity.
  - right. revert H. generalize (calculateGridCellSize (findGridPattern
                 (harrisCornerDetection
                    (toGrayscale (data imageData) (width imageData) (height imageData))
                    (width imageData) (height imageData)))).
    intros n. unfold grid_cellSizeCm.
    destruct n as [| [|] | q]; try (num_cases; fail).
    assert (Hq : (q / 1 == q)%Q) by (field; lra).
    unfold ngt, nlt, ncompare, ndiv, fin, Qeqb. simpl.
    revert Hq. generalize (q / 1)%Q. intros q' Hq. qcmp.
Qed.

Lemma Qsquare_pos (a : Q) : ~ (a == 0)%Q -> (0 < a * a)%Q.
Proof.
  intros Ha. destruct (Qlt_le_dec 0 a) as [H | H]; [nra |].
  assert (a < 0)%Q by (destruct (Qeq_dec a 0); [tauto | lra]). nra.
Qed.

Lemma Qsumsq_zero (a b : Q) : (a * a + b * b <= 0)%Q -> (a == 0 /\ b == 0)%Q.
Proof.
  intros H. split.
  - destruct (Qeq_dec a 0) as [| Ha]; [assumption |].
    pose proof (Qsquare_pos a Ha). assert (0 <= b * b)%Q by nra. lra.
  - destruct (Qeq_dec b 0) as [| Hb]; [assumption |].
    pose proof (Qsquare_pos b Hb). assert (0 <= a * a)%Q by nra. lra.
Qed.

Lemma squaredDistance (x1 y1 x2 y2 : Q) :
  let dx := Fin x2 - Fin x1 in
  let dy := Fin y2 - Fin y1 in
  exists s : Q,
    dx * dx + dy * dy = Fin s
    /\ (s == (x2 - x1) * (x2 - x1) + (y2 - y1) * (y2 - y1))%Q.
Proof.
  cbv zeta. num_unfold. eexists. split; [reflexivity |].
  rewrite !Qred_correct. reflexivity.
Qed.
(** ** Healing analytics *)

Lemma sumNums_map_fold {A : Type} (f : A -> num) (l : list A) (a : num) :
  fold_left (fun sum p => sum + f p) l a = fold_left (fun a b => a + b) (map f l) a.
Proof. revert a. induction l as [| x l IH]; intros a; simpl; [reflexivity | apply IH]. Qed.

Lemma sortInsert_length {A : Type} (cmp : A -> A -> num) (a : A) (l : list A) :
  length (sortInsert cmp a l) = S (length l).
Proof.
  induction l as [| b l IH]; simpl; [reflexivity |].
  destruct (cmp a b >? Fin 0); simpl; [rewrite IH |]; reflexivity.
Qed.

Lemma sortBy_length {A : Type} (cmp : A -> A -> num) (l : list A) :
  length (sortBy cmp l) = length l.
Proof.
  unfold sortBy. induction l as [| a l IH]; simpl; [reflexivity |].
  rewrite sortInsert_length, IH. reflexivity.
Qed.

Lemma calculateHealingProgress_length (assessments : list WoundAssessment) :
  length (calculateHealingProgress assessments) = length assessments.
Proof.
  unfold calculateHealingProgress.
  destruct assessments as [| a l]; [reflexivity |].
  change (Nat.eqb (length (a :: l)) 0) with false. cbv iota.
  rewrite length_map, length_seq. apply sortBy_length.
Qed.

(** The first progress entry has no predecessor: its change is 0 (NaN when
    its area is not finite). *)
Lemma first_entry_change (sorted : list WoundAssessment) :
  areaChangePercent (progressEntry sorted 0) = Fin 0
  \/ areaChangePercent (progressEntry sorted 0) = NaN.
Proof.
  unfold progressEntry. cbn [Nat.ltb Nat.leb areaChangePercent].
  destruct (sorted !! 0%nat) as [c |]; [| left; reflexivity].
  destruct (m_area (measurement c)) as [| [|] | q]; try (left; reflexivity).
  - right. reflexivity.
  - assert (Hz : Fin q - Fin q = Fin 0).
    { num_unfold. f_equal. change 0%Q with (Qred 0).
      apply Qred_complete. rewrite Qred_correct. ring. }
    rewrite Hz. destruct (Fin q >? Fin 0) eqn:Hq; [| left; reflexivity].
    rewrite (ndiv_zero_pos _ Hq). left. reflexivity.
Qed.


(** ** Quality check engine *)

(** C6 (amended). When the marker is not a ruler, or has fewer than 3
    reference points, the perspective check reports distortion 0; it reports
    [corrected = false] only for an undetected calibration or one with fewer
    than 2 reference points, and otherwise [corrected] is the test
    [0 <= maxPerspectiveDistortion]. *)
Theorem checkPerspective_without_ruler (calibrationData : CalibrationData) :
  markerType calibrationData <> ruler
  \/ (length (referencePoints calibrationData) < 3)%nat ->
  distortion (checkPerspective calibrationData) = Fin 0
  /\ corrected (checkPerspective calibrationData)
     = detected calibrationData
       && Nat.leb 2 (length (referencePoints calibrationData))
       && (Fin 0 <=? maxPerspectiveDistortion thresholds).
Proof.
  intros H. unfold checkPerspective.
  destruct (detected calibrationData); [| split; reflexivity].
  destruct (Nat.ltb (length (referencePoints calibrationData)) 2) eqn:Htwo;
    cbn [negb orb andb].
  - apply Nat.ltb_lt in Htwo.
    replace (Nat.leb 2 (length (referencePoints calibrationData))) with false
      by (symmetry; apply Nat.leb_gt; lia).
    split; reflexivity.
  - apply Nat.ltb_ge in Htwo.
    replace (Nat.leb 2 (length (referencePoints calibrationData))) with true
      by (symmetry; apply Nat.leb_le; lia).
    assert (Hd :
      match markerType calibrationData with
      | ruler =>
          if Nat.leb 3 (length (referencePoints calibrationData))
          then coefficientOfVariation (spacingsOf (referencePoints calibrationData)) * Fin 45
          else Fin 0
      | _ => Fin 0
      end = Fin 0).
    { destruct (markerType calibrationData); try reflexivity.
      destruct H as [H | H]; [congruence |].
      replace (Nat.leb 3 (length (referencePoints calibrationData))) with false
        by (symmetry; apply Nat.leb_gt; lia).
      reflexivity. }
    rewrite Hd. split; reflexivity.
Qed.
Lemma Qltb_false (a b : Q) : Qltb a b = false <-> (b <= a)%Q.
Proof.
  unfold Qltb. destruct (Qcompare_spec a b); split; intros; try discriminate;
    try reflexivity; lra.
Qed.

(** *** Sums of finite numbers *)

Lemma fold_nadd_fin_inv (l : list num) (x : num) (t : Q) :
  fold_left (fun a b => a + b) l x = Fin t ->
  (exists a : Q, x = Fin a /\ (t == a + Qsum (map numValue l))%Q)
  /\ Forall isFin l.
Proof.
  revert x. induction l as [| b l IH]; intros x; simpl.
  - intros ->. split; [| constructor]. exists t. split; [reflexivity | ring].
  - intros H. apply IH in H as [(a' & Hx & Ht) Hall].
    destruct x as [| [|] | a], b as [| [|] | q]; simpl in Hx; try discriminate.
    injection Hx as <-. split.
    + exists a. split; [reflexivity |]. rewrite Ht, Qred_correct. simpl. ring.
    + constructor; [exists q; reflexivity | exact Hall].
Qed.

Lemma fold_nadd_fin (l : list num) (a : Q) :
  Forall isFin l ->
  exists t : Q,
    fold_left (fun a b => a + b) l (Fin a) = Fin t
    /\ (t == a + Qsum (map numValue l))%Q.
Proof.
  intros Hall. revert a. induction Hall as [| b l [q ->] _ IH]; intros a; simpl.
  - exists a. split; [reflexivity | ring].
  - destruct (IH (Qred (a + q))) as (t & Ht & Hv).
    exists t. split; [exact Ht |]. rewrite Hv, Qred_correct. simpl. ring.
Qed.

(** *** Brightness values *)

Lemma byteAt_cases (d : list Byte.byte) (i : nat) :
  byteAt d i = NaN \/ exists n : N, byteAt d i = ofZ (Z.of_N n).
Proof. unfold byteAt. destruct (d !! i); eauto. Qed.

Lemma inject_N_nonneg (n : N) : (0 <= inject_Z (Z.of_N n))%Q.
Proof. unfold Qle, inject_Z. simpl. lia. Qed.

Lemma brightnessAt_fin (d : list Byte.byte) (i : nat) (q : Q) :
  brightnessAt d i = Fin q -> exists z : Z, (0 <= z)%Z /\ q = inject_Z z.
Proof.
  unfold brightnessAt.
  destruct (byteAt_cases d (i * 4)) as [-> | [r ->]]; [discriminate |].
  destruct (byteAt_cases d (i * 4 + 1)) as [-> | [g ->]]; [discriminate |].
  destruct (byteAt_cases d (i * 4 + 2)) as [-> | [b ->]]; [discriminate |].
  unfold ofZ, nmul, nadd, fin, Math_round, ofZ.
  match goal with
  | |- Fin (inject_Z (Qfloor ?x)) = _ -> _ => set (e := x)
  end.
  intros H. exists (Qfloor e). split; [| congruence].
  change 0%Z with (Qfloor 0). apply Qfloor_resp_le.
  unfold e. rewrite !Qred_correct.
  pose proof (inject_N_nonneg r). pose proof (inject_N_nonneg g).
  pose proof (inject_N_nonneg b). lra.
Qed.

(** *** The loop of [checkLighting] *)

Lemma lightingStats_fold (d : list Byte.byte) (l : list nat) (s : LightingStats) :
  let s' :=
    fold_left
      (fun s i =>
         let brightness := brightnessAt d i in
         {| totalBrightness := totalBrightness s + brightness;
            minBrightness := Math_min (minBrightness s) brightness;
            maxBrightness := Math_max (maxBrightness s) brightness;
            brightnessHistogram := increment (brightnessHistogram s) brightness |})
      l s in
  totalBrightness s'
  = fold_left (fun a b => a + b) (map (brightnessAt d) l) (totalBrightness s)
  /\ brightnessHistogram s'
     = fold_left increment (map (brightnessAt d) l) (brightnessHistogram s).
Proof.
  cbv zeta. revert s. induction l as [| i l IH]; intros s; simpl.
  - split; reflexivity.
  - destruct (IH {| totalBrightness := totalBrightness s + brightnessAt d i;
                    minBrightness := Math_min (minBrightness s) (brightnessAt d i);
                    maxBrightness := Math_max (maxBrightness s) (brightnessAt d i);
                    brightnessHistogram :=
                      increment (brightnessHistogram s) (brightnessAt d i) |})
      as [H1 H2].
    split; assumption.
Qed.

Lemma lightingStats_total (imageData : ImageData) :
  totalBrightness (lightingStats imageData) = sumNums (brightnessValues imageData).
Proof.
  unfold lightingStats, forRange, sumNums, brightnessValues.
  rewrite Nat.sub_0_r. apply lightingStats_fold.
Qed.

Lemma lightingStats_histogram (imageData : ImageData) :
  brightnessHistogram (lightingStats imageData)
  = fold_left increment (brightnessValues imageData) (replicate 256 (Fin 0)).
Proof.
  unfold lightingStats, forRange, brightnessValues.
  rewrite Nat.sub_0_r. apply lightingStats_fold.
Qed.

(** *** The histogram counts the dark pixels *)

Lemma Qsum_cons (a : Q) (l : list Q) : Qsum (a :: l) = (a + Qsum l)%Q.
Proof. reflexivity. Qed.

Lemma Qsum_alter (l : list num) (k : nat) :
  Forall isFin l -> (k < length l)%nat ->
  (Qsum (map numValue (alter (fun c => (c + Fin 1)%js) k l))
   == Qsum (map numValue l) + 1)%Q.
Proof.
  intros Hall. revert k.
  induction Hall as [| c l [q ->] _ IH]; intros k Hk; [simpl in Hk; lia |].
  destruct k as [| k]; cbn [alter list_alter map]; rewrite !Qsum_cons.
  - simpl. rewrite Qred_correct. ring.
  - simpl in Hk. rewrite IH by lia. ring.
Qed.

Lemma arrayIndex_int (z : Z) :
  (0 <= z)%Z -> arrayIndex (Fin (inject_Z z)) = Some (Z.to_nat z).
Proof.
  intros Hz. unfold arrayIndex. rewrite Qfloor_Z.
  assert (Hc : Qeqb (inject_Z z) (inject_Z z) = true).
  { unfold Qeqb. destruct (Qcompare_spec (inject_Z z) (inject_Z z)); try reflexivity; lra. }
  rewrite Hc. apply Z.leb_le in Hz. rewrite Hz. reflexivity.
Qed.

Lemma increment_dark (histogram : list num) (z : Z) :
  (0 <= z)%Z -> length histogram = 256%nat -> Forall isFin histogram ->
  let histogram' := increment histogram (Fin (inject_Z z)) in
  length histogram' = 256%nat
  /\ Forall isFin histogram'
  /\ (Qsum (map numValue (take 50 histogram'))
      == Qsum (map numValue (take 50 histogram))
         + (if Qltb (inject_Z z) 50 then 1 else 0))%Q.
Proof.
  intros Hz Hlen Hall. cbv zeta. unfold increment. rewrite (arrayIndex_int z Hz).
  split; [rewrite length_alter; exact Hlen |]. split.
  - apply Forall_alter; [exact Hall |]. intros x _ [q ->]. eexists. reflexivity.
  - assert (Hcmp : Qltb (inject_Z z) 50 = true <-> (z < 50)%Z).
    { unfold Qltb. destruct (Qcompare_spec (inject_Z z) 50) as [H | H | H];
        unfold Qeq, Qlt, inject_Z in H; simpl in H; split; intros; try discriminate;
        try reflexivity; lia. }
    destruct (Z.lt_ge_cases z 50) as [Hlt | Hge].
    + rewrite (proj2 Hcmp Hlt).
      rewrite take_alter_lt by lia.
      apply Qsum_alter; [apply Forall_take, Hall |].
      rewrite length_take. lia.
    + assert (Hdark : Qltb (inject_Z z) 50 = false).
      { apply not_true_is_false. intros E. apply Hcmp in E. lia. }
      rewrite Hdark, take_alter_ge by lia. ring.
Qed.

Lemma histogram_dark (brightness : list num) (histogram : list num) :
  Forall (fun b => exists z : Z, (0 <= z)%Z /\ b = Fin (inject_Z z)) brightness ->
  length histogram = 256%nat -> Forall isFin histogram ->
  let histogram' := fold_left increment brightness histogram in
  Forall isFin histogram'
  /\ (Qsum (map numValue (take 50 histogram'))
      == Qsum (map numValue (take 50 histogram)) + darkCount brightness)%Q.
Proof.
  intros Hb. revert histogram.
  induction Hb as [| b l (z & Hz & ->) _ IH]; intros histogram Hlen Hall; simpl.
  - split; [exact Hall |]. unfold darkCount. simpl. ring.
  - destruct (increment_dark histogram z Hz Hlen Hall) as (Hlen' & Hall' & Hsum).
    destruct (IH _ Hlen' Hall') as [Hfin Hdark].
    split; [exact Hfin |]. rewrite Hdark, Hsum. unfold darkCount. simpl. ring.
Qed.

(** Every bright pixel contributes at least 50, every pixel at least 0. *)
Lemma total_above_bright (brightness : list num) :
  Forall (fun b => exists z : Z, (0 <= z)%Z /\ b = Fin (inject_Z z)) brightness ->
  (50 * (inject_Z (Z.of_nat (length brightness)) - darkCount brightness)
   <= Qsum (map numValue brightness))%Q
  /\ (0 <= darkCount brightness)%Q.
Proof.
  intros Hb. induction Hb as [| b l (z & Hz & ->) _ [IH IH0]].
  - split; vm_compute; discriminate.
  - unfold darkCount in *. cbn [length map]. rewrite !Qsum_cons. cbn [numValue].
    rewrite Nat2Z.inj_succ, <- Z.add_1_r, inject_Z_plus.
    assert (Hnn : (0 <= inject_Z z)%Q) by (unfold Qle, inject_Z; simpl; lia).
    change (inject_Z 1) with 1%Q.
    set (dark := Qsum (map (fun b => if Qltb (numValue b) 50 then 1%Q else 0%Q) l)) in *.
    destruct (Qltb (inject_Z z) 50) eqn:E.
    + split; lra.
    + apply Qltb_false in E. split; lra.
Qed.
Lemma nseq_fin_inv (x : num) (q : Q) :
  (x === Fin q) = true -> exists a : Q, x = Fin a /\ (a == q)%Q.
Proof.
  destruct x as [| [|] | a]; try discriminate.
  unfold nseq, ncompare. destruct (Qcompare_spec a q); try discriminate. eauto.
Qed.

Lemma ndiv_fin_inv (x : num) (b r : Q) :
  x / Fin b = Fin r ->
  exists t : Q, x = Fin t /\ ~ (b == 0)%Q /\ r = Qred (t / b).
Proof.
  destruct x as [| [|] | t]; try discriminate.
  unfold ndiv, fin, Qeqb. destruct (Qcompare_spec b 0) as [H | H | H].
  - destruct (Qcompare t 0); discriminate.
  - intros E. injection E as <-. exists t. repeat split. lra.
  - intros E. injection E as <-. exists t. repeat split. lra.
Qed.

(** An average brightness of 30 forces at least 40% of the pixels below 50:
    the image is reported both as too dark and as shadowed. *)
Lemma dark_average_issues (imageData : ImageData) :
  (avgBrightness imageData === Fin 30) = true ->
  (2 <= length (lightingIssues imageData))%nat
  /\ "Image is too dark"%string ∈ lightingIssues imageData.
Proof.
  intros Havg.
  assert (Hdarkavg : (avgBrightness imageData <? Fin 50) = true).
  { revert Havg. generalize (avgBrightness imageData). intros n. num_cases. }
  unfold avgBrightness in Havg. rewrite lightingStats_total in Havg.
  apply nseq_fin_inv in Havg as (avg & Havg & Havg30).
  unfold ofNat, ofZ in Havg.
  apply ndiv_fin_inv in Havg as (t & Hsum & Hpixels & ->).
  rewrite Qred_correct in Havg30.
  apply fold_nadd_fin_inv in Hsum as [(a & Ha & Ht) Hfin].
  injection Ha as <-.
  assert (Hint : Forall (fun b => exists z : Z, (0 <= z)%Z /\ b = Fin (inject_Z z))
                   (brightnessValues imageData)).
  { apply Forall_forall. intros b Hb.
    pose proof (proj1 (Forall_forall _ _) Hfin b Hb) as [q ->].
    apply list_elem_of_In, in_map_iff in Hb as (i & Hb & _).
    apply brightnessAt_fin in Hb as (z & Hz & ->). eauto. }
  destruct (total_above_bright _ Hint) as [Hbright Hnonneg].
  destruct (histogram_dark _ (replicate 256 (Fin 0)) Hint) as [Hhfin Hdark].
  { apply length_replicate. }
  { apply Forall_replicate. exists 0%Q. reflexivity. }
  cbv zeta in Hhfin, Hdark.
  rewrite <- lightingStats_histogram in Hhfin, Hdark.
  destruct (fold_nadd_fin (take 50 (brightnessHistogram (lightingStats imageData))) 0)
    as (d & Hd & Hdv).
  { apply Forall_take, Hhfin. }
  assert (Hzero : (Qsum (map numValue (take 50 (replicate 256 (Fin 0)))) == 0)%Q)
    by (vm_compute; reflexivity).
  rewrite Hdark, Hzero in Hdv.
  unfold brightnessValues in Hbright at 1. rewrite length_map, length_seq in Hbright.
  set (pixels := inject_Z (Z.of_nat (width imageData * height imageData))) in *.
  assert (Hpix : (0 <= pixels)%Q) by (unfold pixels, Qle, inject_Z; simpl; lia).
  assert (Ht30 : (t == 30 * pixels)%Q).
  { rewrite <- (Qmult_div_r t pixels) by exact Hpixels. rewrite Havg30. ring. }
  assert (Hq : (0.3 < d / pixels)%Q) by (apply Qlt_shift_div_l; lra).
  assert (Hshadow :
    (sumNums (take 50 (brightnessHistogram (lightingStats imageData)))
     / ofNat (width imageData * height imageData) >? Fin 0.3) = true).
  { unfold sumNums. rewrite Hd. unfold ofNat, ofZ. fold pixels.
    unfold ndiv, ngt, nlt, ncompare, fin, Qeqb.
    destruct (Qcompare_spec pixels 0) as [H0 | H0 | H0]; [tauto | lra |].
    destruct (Qcompare_spec 0.3 (Qred (d / pixels))) as [E | E | E];
      try reflexivity; rewrite Qred_correct in E; lra. }
  unfold lightingIssues. rewrite Hdarkavg, Hshadow. split.
  - rewrite !length_app. simpl. lia.
  - apply elem_of_app. left. apply elem_of_cons. auto.
Qed.

(** C4. The verdict of [runQualityChecks] is the conjunction of the five
    checks; an image of average brightness 30 is reported as too dark and
    fails, whatever the blur and calibration checks say. *)
Theorem quality_aggregate (imageData : ImageData) (calibrationData : CalibrationData) :
  let report := runQualityChecks imageData calibrationData in
  passed report
  = blur_passed (blur report)
    && lighting_passed (lighting report)
    && q_detected report
    && (q_confidence report >=? minCalibrationConfidence thresholds)
    && corrected (perspective report)
  /\ blur report = checkBlur imageData
  /\ lighting report = checkLighting imageData
  /\ q_detected report = detected calibrationData
  /\ q_confidence report = confidence calibrationData
  /\ perspective report = checkPerspective calibrationData
  /\ ((avgBrightness imageData === Fin 30) = true ->
      passed report = false
      /\ lighting_passed (lighting report) = false
      /\ "Image is too dark"%string ∈ issues (lighting report)).
Proof.
  cbv zeta. repeat (split; [reflexivity |]).
  intros Havg. destruct (dark_average_issues imageData Havg) as [Hlen Hin].
  assert (Hlight : lighting_passed (checkLighting imageData) = false).
  { unfold checkLighting. cbn [lighting_passed].
    replace (Nat.leb (length (lightingIssues imageData)) 1) with false
      by (symmetry; apply Nat.leb_gt; lia).
    apply andb_false_r. }
  unfold runQualityChecks. cbn [passed lighting]. rewrite Hlight.
  rewrite andb_false_r. repeat split. exact Hin.
Qed.
(** *** The blur check on a uniform image *)

Lemma forRange_invariant {S : Type} (P : S -> Prop) (lo hi : nat)
    (body : nat -> S -> S) (s : S) :
  P s ->
  (forall i s, (lo <= i < hi)%nat -> P s -> P (body i s)) ->
  P (forRange lo hi body s).
Proof.
  intros Hs Hbody. unfold forRange.
  assert (H : forall l, Forall (fun i => (lo <= i < hi)%nat) l ->
              forall s, P s -> P (fold_left (fun s i => body i s) l s)).
  { induction l as [| i l IH]; intros Hl s0 Hs0; [exact Hs0 |].
    apply Forall_cons in Hl as [Hi Hl]. simpl. apply IH; auto. }
  apply H; [| exact Hs].
  apply Forall_forall. intros i Hi. apply elem_of_seq in Hi. lia.
Qed.

Lemma toGrayscale_lookup (d : list Byte.byte) (w h j : nat) :
  (j < w * h)%nat ->
  toGrayscale d w h !!! j
  = Fin 0.299 * byteAt d (j * 4) + Fin 0.587 * byteAt d (j * 4 + 1)
    + Fin 0.114 * byteAt d (j * 4 + 2).
Proof.
  intros Hj. unfold toGrayscale. apply list_lookup_total_correct.
  change (map ?f ?l) with (f <$> l).
  rewrite list_lookup_fmap, lookup_seq_lt by exact Hj. reflexivity.
Qed.

Lemma kernelSum_uniform (grayscale : list num) (w h x y : nat) (g0 : Q) :
  (forall j, (j < w * h)%nat -> grayscale !!! j = Fin g0) ->
  (1 <= x)%nat -> (x + 1 < w)%nat -> (1 <= y)%nat -> (y + 1 < h)%nat ->
  isZeroResponse (kernelSum laplacianKernel grayscale w x y).
Proof.
  intros Hgray Hx1 Hx2 Hy1 Hy2. unfold kernelSum, forRange, isZeroResponse.
  cbn [seq Nat.sub fold_left].
  rewrite !Hgray by nia.
  unfold laplacianKernel. cbn [lookup_total list_lookup_total].
  unfold nsne, nseq, ncompare, nadd, nmul, fin.
  match goal with
  | |- context [Qcompare ?a ?b] => destruct (Qcompare_spec a b) as [E | E | E]
  end; try reflexivity; exfalso; rewrite !Qred_correct in E; lra.
Qed.

Lemma laplacianOf_uniform (grayscale : list num) (w h : nat) (g0 : Q) :
  (forall j, (j < w * h)%nat -> grayscale !!! j = Fin g0) ->
  Forall isZeroResponse (laplacianOf grayscale w h).
Proof.
  intros Hgray. unfold laplacianOf.
  apply forRange_invariant.
  - apply Forall_replicate. reflexivity.
  - intros y laplacian Hy Hl. apply forRange_invariant; [exact Hl |].
    intros x laplacian' Hx Hl'. apply Forall_insert; [exact Hl' |].
    apply (kernelSum_uniform grayscale w h x y g0 Hgray); lia.
Qed.

Lemma nonzeroSum_zero (laplacian : list num) :
  Forall isZeroResponse laplacian -> nonzeroSum laplacian = (Fin 0, Fin 0).
Proof.
  intros Hall. unfold nonzeroSum.
  assert (H : forall p : num * num,
            fold_left
              (fun '(mean, count) v =>
                 if v !== Fin 0 then (mean + v, count + Fin 1) else (mean, count))
              laplacian p = p).
  { induction Hall as [| v l Hv _ IH]; intros [mean count]; cbn [fold_left];
      [reflexivity |].
    unfold isZeroResponse in Hv. rewrite Hv. apply IH. }
  apply H.
Qed.

Lemma nonzeroSquares_zero (laplacian : list num) (mean : num) :
  Forall isZeroResponse laplacian -> nonzeroSquares laplacian mean = Fin 0.
Proof.
  intros Hall. unfold nonzeroSquares.
  assert (H : forall p : num,
            fold_left
              (fun variance v =>
                 if v !== Fin 0 then variance + Math_pow (v - mean) 2 else variance)
              laplacian p = p).
  { induction Hall as [| v l Hv _ IH]; intros variance; cbn [fold_left];
      [reflexivity |].
    unfold isZeroResponse in Hv. rewrite Hv. apply IH. }
  apply H.
Qed.

(** With no nonzero response the count is 0 and both divisions are 0/0. *)
Lemma checkBlur_zero_response (imageData : ImageData) :
  Forall isZeroResponse
    (laplacianOf
       (toGrayscale (data imageData) (width imageData) (height imageData))
       (width imageData) (height imageData)) ->
  blur_score (checkBlur imageData) = NaN
  /\ blur_passed (checkBlur imageData) = false.
Proof.
  intros Hzero. unfold checkBlur.
  rewrite (nonzeroSum_zero _ Hzero), (nonzeroSquares_zero _ _ Hzero).
  split; [reflexivity |]. cbn [blur_passed].
  destruct (minBlurScore thresholds) as [| [|] | q]; reflexivity.
Qed.

(** C10. On a perfectly uniform image every Laplacian response is zero, the
    count of nonzero responses is 0, and the unguarded divisions by that
    count make the blur score NaN (and the check fail). *)
Theorem checkBlur_uniform_nan (imageData : ImageData) (r g b : Byte.byte) :
  isUniform imageData r g b ->
  Forall isZeroResponse
    (laplacianOf
       (toGrayscale (data imageData) (width imageData) (height imageData))
       (width imageData) (height imageData))
  /\ nonzeroSum
       (laplacianOf
          (toGrayscale (data imageData) (width imageData) (height imageData))
          (width imageData) (height imageData))
     = (Fin 0, Fin 0)
  /\ blur_score (checkBlur imageData) = NaN
  /\ blur_passed (checkBlur imageData) = false.
Proof.
  intros Huniform.
  assert (Hzero :
    Forall isZeroResponse
      (laplacianOf
         (toGrayscale (data imageData) (width imageData) (height imageData))
         (width imageData) (height imageData))).
  { eapply laplacianOf_uniform. intros j Hj.
    rewrite toGrayscale_lookup by exact Hj.
    destruct (Huniform j Hj) as (Hr & Hg & Hb).
    unfold byteAt. rewrite Hr, Hg, Hb. reflexivity. }
  split; [exact Hzero |]. split; [apply nonzeroSum_zero, Hzero |].
  apply checkBlur_zero_response, Hzero.
Qed.

(** * Further properties *)

(** ** Rounding *)

Lemma Math_pow_ten (decimals : nat) :
  exists P : Q,
    Math_pow (Fin 10) decimals = Fin P
    /\ (P == inject_Z (10 ^ Z.of_nat decimals))%Q.
Proof.
  induction decimals as [| d (P & HP & Hv)].
  - exists 1%Q. split; reflexivity.
  - exists (Qred (10 * P)). split.
    + cbn [Math_pow]. rewrite HP. reflexivity.
    + rewrite Qred_correct, Hv, Nat2Z.inj_succ, Z.pow_succ_r by lia.
      rewrite inject_Z_mult. reflexivity.
Qed.

Lemma pow_ten_pos (decimals : nat) : (0 < inject_Z (10 ^ Z.of_nat decimals))%Q.
Proof.
  unfold Qlt, inject_Z. simpl.
  pose proof (Z.pow_pos_nonneg 10 (Z.of_nat decimals)). lia.
Qed.

Lemma round_spec (value : Q) (decimals : nat) :
  exists r : Q,
    round (Fin value) decimals = Fin r
    /\ (exists k : Z, r * inject_Z (10 ^ Z.of_nat decimals) == inject_Z k)%Q
    /\ (Qabs (r - value) <= (1 # 2) / inject_Z (10 ^ Z.of_nat decimals))%Q.
Proof.
  destruct (Math_pow_ten decimals) as (P & HP & Hv).
  pose proof (pow_ten_pos decimals) as Hpos. rewrite <- Hv in Hpos.
  unfold round. rewrite HP.
  set (k := Qfloor (Qred (value * P) + (1 # 2))).
  assert (Hr : Math_round (Fin value * Fin P) / Fin P = Fin (Qred (inject_Z k / P))).
  { unfold nmul, fin, Math_round, ofZ, ndiv, Qeqb. fold k.
    destruct (Qcompare_spec P 0); try lra; reflexivity. }
  exists (Qred (inject_Z k / P)). split; [exact Hr |].
  assert (Hk : (Qred (inject_Z k / P) * P == inject_Z k)%Q).
  { rewrite Qred_correct. field. lra. }
  pose proof (Qfloor_le (Qred (value * P) + (1 # 2))) as Hlo.
  pose proof (Qlt_floor (Qred (value * P) + (1 # 2))) as Hhi.
  fold k in Hlo, Hhi. rewrite inject_Z_plus in Hhi.
  change (inject_Z 1) with 1%Q in Hhi. rewrite Qred_correct in Hlo, Hhi.
  split.
  - exists k. rewrite <- Hv. exact Hk.
  - rewrite <- Hv. apply Qabs_Qle_condition.
    set (r := Qred (inject_Z k / P)) in *. split.
    + assert (H : (- (1 # 2) <= (r - value) * P)%Q) by lra.
      assert (Hn : (- ((1 # 2) / P) == (- (1 # 2)) / P)%Q) by (field; lra).
      rewrite Hn. apply Qle_shift_div_r; [exact Hpos | exact H].
    + assert (H : ((r - value) * P <= (1 # 2))%Q) by lra.
      apply Qle_shift_div_l; [exact Hpos | exact H].
Qed.

(** X1. [round(value, decimals)] of a finite value is a multiple of
    [10^-decimals] at distance at most half of it from the value. *)
Theorem round_within_half_unit (value : Q) (decimals : nat) :
  exists r : Q,
    round (Fin value) decimals = Fin r
    /\ (exists k : Z, r * inject_Z (10 ^ Z.of_nat decimals) == inject_Z k)%Q
    /\ (Qabs (r - value) <= (1 # 2) / inject_Z (10 ^ Z.of_nat decimals))%Q.
Proof. exact (round_spec value decimals). Qed.

Lemma round_nonneg (value : Q) (decimals : nat) :
  (0 <= value)%Q ->
  exists r : Q, round (Fin value) decimals = Fin r /\ (0 <= r)%Q.
Proof.
  intros Hv. destruct (Math_pow_ten decimals) as (P & HP & HPv).
  pose proof (pow_ten_pos decimals) as Hpos. rewrite <- HPv in Hpos.
  unfold round. rewrite HP.
  unfold nmul, fin, Math_round, ofZ, ndiv, Qeqb.
  destruct (Qcompare_spec P 0); try lra.
  eexists. split; [reflexivity |]. rewrite Qred_correct.
  apply Qle_shift_div_l; [exact Hpos |]. rewrite Qmult_0_l.
  change 0%Q with (inject_Z 0). rewrite <- Zle_Qle.
  change 0%Z with (Qfloor 0). apply Qfloor_resp_le.
  rewrite Qred_correct. nra.
Qed.

(** ** Volume and validation *)

(** X2. For a finite, non-negative area and depth [calculateVolume] returns
    a non-negative multiple of 0.01 within 0.005 of [0.327 * area * depth]. *)
Theorem calculateVolume_spec (area depth : Q) :
  (0 <= area)%Q -> (0 <= depth)%Q ->
  exists v : Q,
    calculateVolume (Fin area) (Fin depth) = Fin v
    /\ (0 <= v)%Q
    /\ (exists k : Z, v * 100 == inject_Z k)%Q
    /\ (Qabs (v - 0.327 * area * depth) <= 1 # 200)%Q.
Proof.
  intros Ha Hd. unfold calculateVolume.
  set (x := Qred (Qred (0.327 * area) * depth)).
  change (Fin 0.327 * Fin area * Fin depth) with (Fin x).
  assert (Hx : (x == 0.327 * area * depth)%Q)
    by (unfold x; rewrite !Qred_correct; reflexivity).
  destruct (round_spec x 2) as (v & Hv & Hk & Hb).
  destruct (round_nonneg x 2) as (v' & Hv' & Hnn); [rewrite Hx; nra |].
  rewrite Hv in Hv'. injection Hv' as <-.
  exists v. repeat split; try assumption.
  rewrite <- Hx. exact Hb.
Qed.

Lemma tiny_pos : (0 < tiny)%Q.
Proof. reflexivity. Qed.

Lemma relativeMargin_pos : (0 < relativeMargin)%Q.
Proof. reflexivity. Qed.

Lemma apart_differ (a b : Q) : apart a b -> ~ (a == b)%Q.
Proof.
  intros [Hfar _] Hab. pose proof tiny_pos as Ht.
  revert Hfar Ht. generalize tiny. intros t Hfar Ht.
  assert (Hd : (b - a == 0)%Q) by (rewrite Hab; ring).
  rewrite Hd in Hfar. change (Qabs 0) with 0%Q in Hfar. lra.
Qed.

Lemma clearlyDistinct_differ (x1 y1 x2 y2 : Q) :
  clearlyDistinct x1 y1 x2 y2 -> ~ (x1 == x2 /\ y1 == y2)%Q.
Proof.
  intros [_ [H | H]] [Hx Hy]; eapply apart_differ; eassumption.
Qed.

Lemma validateMeasurement_exact (area length width perimeter : Q) :
  (0 < length)%Q -> (0 < width)%Q ->
  let ellipse := ((884279719003555 # 281474976710656) / 4 * length * width)%Q in
  isValid (validateMeasurement
             {| m_area := Fin area; m_length := Fin length; m_width := Fin width;
                m_perimeter := Fin perimeter |}) = true
  <-> (area <= 1000 /\ length <= 50 /\ width <= 50 /\ length <= 10 * width
       /\ 0.3 * ellipse <= area /\ area <= 1.5 * ellipse)%Q.
Proof.
  intros Hl Hw ellipse.
  assert (He : (0 < ellipse)%Q).
  { unfold ellipse. apply Qmult_lt_0_compat; [| exact Hw].
    apply Qmult_lt_0_compat; [reflexivity | exact Hl]. }
  unfold validateMeasurement. cbn [isValid m_area m_length m_width].
  assert (Hratio : Fin length / Fin width = Fin (Qred (length / width))).
  { unfold ndiv, fin, Qeqb. destruct (Qcompare_spec width 0); try lra; reflexivity. }
  assert (Hexp : exists e, (Math_PI / Fin 4) * Fin length * Fin width = Fin e
                           /\ (e == ellipse)%Q).
  { eexists. split; [reflexivity |]. unfold ellipse. rewrite !Qred_correct.
    reflexivity. }
  destruct Hexp as (e & -> & Hev). rewrite Hratio.
  assert (Harea : Fin area / Fin e = Fin (Qred (area / e))).
  { unfold ndiv, fin, Qeqb. destruct (Qcompare_spec e 0); try lra; reflexivity. }
  rewrite Harea.
  assert (Hr1 : (Qred (length / width) * width == length)%Q)
    by (rewrite Qred_correct; field; lra).
  assert (Hr2 : (Qred (area / e) * ellipse == area)%Q)
    by (rewrite Qred_correct, <- Hev; field; lra).
  set (ratio := Qred (length / width)) in *.
  set (aratio := Qred (area / e)) in *.
  unfold ngt, nlt, ncompare.
  destruct (Qcompare_spec 1000 area);
    destruct (Qcompare_spec 50 length);
    destruct (Qcompare_spec 50 width);
    destruct (Qcompare_spec 10 ratio);
    destruct (Qcompare_spec aratio 0.3);
    destruct (Qcompare_spec 1.5 aratio);
    cbn [orb app Datatypes.length Nat.eqb];
    (split; [intros Hv; try discriminate; repeat split; nra
            | intros (G1 & G2 & G3 & G4 & G5 & G6); try reflexivity; exfalso; nra]).
Qed.

(** X3. For a finite area and a length and width of at least [tiny],
    [validateMeasurement] accepts when every bound holds with the relative
    margin [relativeMargin] to spare (area <= 1000, both dimensions <= 50,
    length <= 10 times the width, area between 0.3 and 1.5 times
    [(PI / 4) * length * width]), and rejects when one of the bounds is
    exceeded by more than that margin.  Between the two, at a bound, the
    outcome of the source depends on the rounding of its quotients. *)
Theorem validateMeasurement_bounds (area length width perimeter : Q) :
  (tiny <= length)%Q -> (tiny <= width)%Q ->
  let ellipse := ((884279719003555 # 281474976710656) / 4 * length * width)%Q in
  let slack := (1 + relativeMargin)%Q in
  let measurement :=
    {| m_area := Fin area; m_length := Fin length; m_width := Fin width;
       m_perimeter := Fin perimeter |} in
  ((area <= 1000 /\ length <= 50 /\ width <= 50 /\ length * slack <= 10 * width
    /\ 0.3 * ellipse * slack <= area /\ area * slack <= 1.5 * ellipse)%Q ->
   isValid (validateMeasurement measurement) = true)
  /\ ((1000 * slack < area \/ 50 * slack < length \/ 50 * slack < width
       \/ 10 * width * slack < length
       \/ area * slack < 0.3 * ellipse \/ 1.5 * ellipse * slack < area)%Q ->
      isValid (validateMeasurement measurement) = false).
Proof.
  intros Hl Hw ellipse slack measurement.
  pose proof tiny_pos as Ht. pose proof relativeMargin_pos as Hm.
  assert (Hl0 : (0 < length)%Q) by lra.
  assert (Hw0 : (0 < width)%Q) by lra.
  assert (He : (0 < ellipse)%Q).
  { unfold ellipse. apply Qmult_lt_0_compat; [| exact Hw0].
    apply Qmult_lt_0_compat; [reflexivity | exact Hl0]. }
  pose proof (validateMeasurement_exact area length width perimeter Hl0 Hw0) as Hex.
  cbv zeta in Hex. fold ellipse in Hex. fold measurement in Hex.
  unfold slack. revert Hm. generalize relativeMargin. intros margin Hm.
  clear Ht Hl Hw.
  split.
  - intros (H1 & H2 & H3 & H4 & H5 & H6). apply Hex.
    repeat split; try assumption; nra.
  - intros Hbad. apply not_true_is_false. intros Hv. apply Hex in Hv.
    destruct Hv as (H1 & H2 & H3 & H4 & H5 & H6).
    destruct Hbad as [H | [H | [H | [H | [H | H]]]]]; nra.
Qed.

(** X4. For a measurement of width 0 and finite length,
    [validateMeasurement] accepts when the length and the area are 0 too
    (every ratio is 0/0 = NaN, which passes every comparison), and rejects
    when the area is at least [tiny] in absolute value (the area ratio is
    infinite).  Both hold for either sign of the zero width. *)
Theorem validateMeasurement_zero_width (area length perimeter : Q) :
  let measurement :=
    {| m_area := Fin area; m_length := Fin length; m_width := Fin 0;
       m_perimeter := Fin perimeter |} in
  ((area == 0 /\ length == 0)%Q -> isValid (validateMeasurement measurement) = true)
  /\ ((tiny <= Qabs area)%Q -> isValid (validateMeasurement measurement) = false).
Proof.
  cbv zeta.
  unfold validateMeasurement. cbn [isValid m_area m_length m_width].
  assert (Hexp : (Math_PI / Fin 4) * Fin length * Fin 0 = Fin 0).
  { assert (Hq : exists q, Math_PI / Fin 4 = Fin q) by (eexists; reflexivity).
    destruct Hq as (q & ->). unfold nmul, fin. f_equal.
    change 0%Q with (Qred 0). apply Qred_complete. rewrite !Qred_correct. ring. }
  rewrite Hexp.
  unfold ngt, nlt, ncompare, ndiv, Qeqb, Qltb.
  change (0 ?= 0)%Q with Eq. cbv iota.
  split.
  - intros [Ha Hl].
    destruct (Qcompare_spec length 0); try lra. destruct (Qcompare_spec area 0); try lra.
    destruct (Qcompare_spec 1000 area); try lra. destruct (Qcompare_spec 50 length); try lra.
    reflexivity.
  - intros Ha. pose proof tiny_pos as Ht. revert Ha Ht. generalize tiny. intros t Ha Ht.
    assert (Hne : ~ (area == 0)%Q).
    { intros H0. rewrite H0 in Ha. change (Qabs 0) with 0%Q in Ha. lra. }
    destruct (Qcompare_spec area 0) as [H0 | Hneg | Hpos]; [contradiction | |].
    + destruct (Qcompare_spec 1000 area); destruct (Qcompare_spec 50 length);
        destruct (Qcompare_spec length 0); cbn [orb app Datatypes.length Nat.eqb];
        rewrite ?length_app; cbn [Datatypes.length]; try reflexivity;
        destruct (match _ with Lt => _ | _ => _ end); reflexivity.
    + destruct (Qcompare_spec 1000 area); destruct (Qcompare_spec 50 length);
        destruct (Qcompare_spec length 0); cbn [orb app Datatypes.length Nat.eqb];
        rewrite ?length_app; cbn [Datatypes.length]; try reflexivity;
        destruct (match _ with Lt => _ | _ => _ end); reflexivity.
Qed.

(** ** Recommendations *)

(** X5. A report of [runQualityChecks] that passed carries no
    recommendation. *)
Theorem passed_report_has_no_recommendation (imageData : ImageData)
    (calibrationData : CalibrationData) :
  passed (runQualityChecks imageData calibrationData) = true ->
  getRecommendations (runQualityChecks imageData calibrationData) = [].
Proof.
  unfold runQualityChecks, getRecommendations.
  cbn [passed blur lighting q_detected perspective].
  intros Hp.
  apply andb_true_iff in Hp as (Hp & ->).
  apply andb_true_iff in Hp as (Hp & _).
  apply andb_true_iff in Hp as (Hp & ->).
  apply andb_true_iff in Hp as (-> & ->).
  reflexivity.
Qed.

Lemma nlt_not_nge (a b : num) : (a <? b) = true -> (a >=? b) = false.
Proof. num_cases. Qed.

(** X6. The converse fails on the calibration confidence: when the image
    checks pass and the perspective is correctable but the confidence of the
    detected calibration is below the minimum, the report fails and still
    carries no recommendation. *)
Theorem low_confidence_fails_without_recommendation (imageData : ImageData)
    (calibrationData : CalibrationData) :
  blur_passed (checkBlur imageData) = true ->
  lighting_passed (checkLighting imageData) = true ->
  detected calibrationData = true ->
  corrected (checkPerspective calibrationData) = true ->
  (confidence calibrationData <? minCalibrationConfidence thresholds) = true ->
  passed (runQualityChecks imageData calibrationData) = false
  /\ getRecommendations (runQualityChecks imageData calibrationData) = [].
Proof.
  intros Hb Hl Hd Hc Hlow.
  unfold runQualityChecks, getRecommendations.
  cbn [passed blur lighting q_detected perspective].
  rewrite Hb, Hl, Hd, Hc. split; [| reflexivity].
  cbn [andb]. rewrite andb_true_r. apply nlt_not_nge, Hlow.
Qed.

(** ** Area of the mask *)

Lemma Qred_inject_Z (z : Z) : Qred (inject_Z z) = inject_Z z.
Proof.
  unfold Qred, inject_Z.
  pose proof (Z.ggcd_correct_divisors z 1) as H.
  pose proof (Z.ggcd_gcd z 1) as Hg.
  destruct (Z.ggcd z 1) as (g & aa & bb). cbn [fst snd] in *.
  rewrite Z.gcd_1_r in Hg. subst g. destruct H as [Ha Hb].
  assert (Hbb : bb = 1%Z) by lia. subst bb. f_equal. lia.
Qed.

Lemma ofNat_succ (n : nat) : ofNat n + Fin 1 = ofNat (S n).
Proof.
  unfold ofNat, ofZ, nadd, fin. f_equal.
  rewrite <- (Qred_inject_Z (Z.of_nat (S n))).
  apply Qred_complete. unfold inject_Z, Qeq, Qplus. cbn [Qnum Qden]. lia.
Qed.

Lemma byteAt_foreground (mask : ImageData) (i : nat) :
  (byteAt (data mask) (i * 4) >? Fin 127) = isForeground mask i.
Proof.
  unfold byteAt, isForeground. destruct (data mask !! (i * 4)%nat) as [b |];
    [| reflexivity].
  unfold ngt, nlt, ncompare, ofZ.
  change (Fin 127) with (Fin (inject_Z 127)).
  unfold Qcompare, inject_Z. cbn [Qnum Qden]. rewrite !Z.mul_1_r.
  change 127%Z with (Z.of_N 127). rewrite N2Z.inj_compare.
  unfold N.ltb. destruct (127 ?= Byte.to_N b)%N; reflexivity.
Qed.

Lemma calculateAreaFromMask_fold (mask : ImageData) :
  calculateAreaFromMask mask = ofNat (foregroundCount mask).
Proof.
  unfold calculateAreaFromMask, foregroundCount, forRange.
  rewrite Nat.sub_0_r.
  change (Fin 0) with (ofNat 0).
  generalize (seq 0 (width mask * height mask)) as l.
  assert (H : forall l n,
    fold_left (fun (s : num) (i : nat) =>
                 if byteAt (data mask) (i * 4) >? Fin 127 then s + Fin 1 else s)
              l (ofNat n)
    = ofNat (n + length (List.filter (isForeground mask) l))).
  { induction l as [| i l IH]; intros n; cbn [fold_left List.filter].
    - cbn [length]. rewrite Nat.add_0_r. reflexivity.
    - rewrite byteAt_foreground. destruct (isForeground mask i).
      + rewrite ofNat_succ, IH. cbn [length]. f_equal. lia.
      + apply IH. }
  intros l. apply (H l 0%nat).
Qed.

(** X7. [calculateAreaFromMask] returns the number of pixels, among the
    first [width * height], whose red byte exceeds 127; pixels the data array
    does not reach count as background, so the result is a whole number
    between 0 and [width * height]. *)
Theorem calculateAreaFromMask_counts (mask : ImageData) :
  calculateAreaFromMask mask = ofNat (foregroundCount mask)
  /\ (foregroundCount mask <= width mask * height mask)%nat.
Proof.
  split; [apply calculateAreaFromMask_fold |].
  unfold foregroundCount.
  etransitivity; [apply filter_length_le |]. rewrite length_seq. reflexivity.
Qed.

(** X8. With a detected calibration of finite positive scale,
    [calculateMeasurements] returns, and the area it reports is a
    non-negative multiple of 0.01 within 0.005 of the foreground pixel count
    divided by the squared scale. *)
Theorem calculateMeasurements_area (segmentation : SegmentationResult)
    (calibration : CalibrationData) (scale : Q) :
  detected calibration = true ->
  pixelsPerCm calibration = Fin scale ->
  (0 < scale)%Q ->
  exists m a,
    calculateMeasurements segmentation calibration = Return m
    /\ m_area m = Fin a
    /\ (0 <= a)%Q
    /\ (exists k : Z, a * 100 == inject_Z k)%Q
    /\ (Qabs (a - inject_Z (Z.of_nat (foregroundCount (mask segmentation)))
                  / (scale * scale)) <= 1 # 200)%Q.
Proof.
  intros Hd Hs Hpos.
  unfold calculateMeasurements. rewrite Hd, Hs. cbn [negb orb].
  assert (Hle : (Fin scale <=? Fin 0) = false).
  { unfold nle, ncompare. destruct (Qcompare_spec scale 0); try lra; reflexivity. }
  rewrite Hle.
  destruct (calculateLengthWidth (contour segmentation)) as [lengthPixels widthPixels].
  rewrite calculateAreaFromMask_fold.
  set (count := foregroundCount (mask segmentation)).
  assert (Hsq : Fin scale * Fin scale = Fin (Qred (scale * scale))) by reflexivity.
  assert (Hq : (0 < Qred (scale * scale))%Q) by (rewrite Qred_correct; nra).
  assert (Hdiv : ofNat count / Fin (Qred (scale * scale))
                 = Fin (Qred (inject_Z (Z.of_nat count) / Qred (scale * scale)))).
  { unfold ofNat, ofZ, ndiv, fin, Qeqb.
    destruct (Qcompare_spec (Qred (scale * scale)) 0); try lra; reflexivity. }
  set (v := Qred (inject_Z (Z.of_nat count) / Qred (scale * scale))) in *.
  assert (Hv : (v == inject_Z (Z.of_nat count) / (scale * scale))%Q).
  { unfold v. rewrite !Qred_correct. reflexivity. }
  assert (Hv0 : (0 <= v)%Q).
  { rewrite Hv. apply Qle_shift_div_l; [nra |]. rewrite Qmult_0_l.
    change 0%Q with (inject_Z 0). rewrite <- Zle_Qle. lia. }
  destruct (round_spec v 2) as (r & Hr & Hk & Hb).
  destruct (round_nonneg v 2 Hv0) as (r' & Hr' & Hr0).
  rewrite Hr in Hr'. injection Hr' as <-.
  eexists. exists r. split; [reflexivity |]. cbn [m_area].
  rewrite Hsq, Hdiv, Hr. split; [reflexivity |]. split; [exact Hr0 |]. split; [exact Hk |].
  rewrite <- Hv. exact Hb.
Qed.

(** ** Order of the healing progress *)

Lemma sortInsert_perm {A : Type} (cmp : A -> A -> num) (a : A) (l : list A) :
  sortInsert cmp a l ≡ₚ a :: l.
Proof.
  induction l as [| b l IH]; cbn [sortInsert]; [reflexivity |].
  destruct (cmp a b >? Fin 0); [| reflexivity].
  rewrite IH. apply Permutation_swap.
Qed.

Lemma sortBy_perm {A : Type} (cmp : A -> A -> num) (l : list A) :
  sortBy cmp l ≡ₚ l.
Proof.
  unfold sortBy. induction l as [| a l IH]; cbn [foldr]; [reflexivity |].
  rewrite sortInsert_perm, IH. reflexivity.
Qed.

Lemma date_difference_positive (a b : Z) :
  (ofZ a - ofZ b >? Fin 0) = (b <? a)%Z.
Proof.
  unfold ofZ.
  destruct (Z.ltb_spec b a) as [Hz | Hz]; rewrite ?Zlt_Qlt, ?Zle_Qle in Hz;
    revert Hz; generalize (inject_Z a) (inject_Z b); intros x y Hz;
    num_unfold; qcmp.
Qed.

Lemma sortInsert_by_date (a : WoundAssessment) (l : list WoundAssessment) :
  Sorted earlier l ->
  Sorted earlier
    (sortInsert (fun a b => ofZ (capturedAt a) - ofZ (capturedAt b)) a l).
Proof.
  induction l as [| b l IH]; intros Hs; cbn [sortInsert].
  - repeat constructor.
  - rewrite date_difference_positive.
    destruct (Z.ltb_spec (capturedAt b) (capturedAt a)) as [Hlt | Hle].
    + apply Sorted_inv in Hs as [Hs Hhd].
      constructor; [apply IH, Hs |].
      destruct l as [| c l]; cbn [sortInsert].
      * constructor. unfold earlier. lia.
      * rewrite date_difference_positive.
        destruct (Z.ltb_spec (capturedAt c) (capturedAt a)).
        -- constructor. apply HdRel_inv in Hhd. exact Hhd.
        -- constructor. unfold earlier. lia.
    + constructor; [exact Hs |]. constructor. exact Hle.
Qed.

Lemma sortBy_by_date (l : list WoundAssessment) :
  Sorted earlier (sortBy (fun a b => ofZ (capturedAt a) - ofZ (capturedAt b)) l).
Proof.
  unfold sortBy. induction l as [| a l IH]; cbn [foldr]; [constructor |].
  apply sortInsert_by_date, IH.
Qed.

Lemma progress_dates (sorted : list WoundAssessment) :
  map date (map (progressEntry sorted) (seq 0 (length sorted)))
  = map capturedAt sorted.
Proof.
  apply list_eq. intros i.
  change (map date (map (progressEntry sorted) (seq 0 (length sorted))))
    with (date <$> (progressEntry sorted <$> seq 0 (length sorted))).
  change (map capturedAt sorted) with (capturedAt <$> sorted).
  rewrite !list_lookup_fmap.
  destruct (sorted !! i) as [c |] eqn:Hc.
  - rewrite lookup_seq_lt by (apply lookup_lt_Some in Hc; exact Hc).
    cbn. unfold progressEntry. cbn [date]. rewrite Hc. reflexivity.
  - rewrite lookup_seq_ge by (apply lookup_ge_None in Hc; exact Hc).
    reflexivity.
Qed.

(** X9. [calculateHealingProgress] reports the assessments in
    chronological order whatever the order of its input: the dates of its
    entries are the capture dates of the assessments, rearranged, and they
    never decrease. *)
Theorem calculateHealingProgress_chronological (assessments : list WoundAssessment) :
  map date (calculateHealingProgress assessments) ≡ₚ map capturedAt assessments
  /\ Sorted Z.le (map date (calculateHealingProgress assessments)).
Proof.
  unfold calculateHealingProgress.
  destruct assessments as [| a l]; [split; [reflexivity | constructor] |].
  change (Nat.eqb (length (a :: l)) 0) with false. cbv iota zeta.
  rewrite progress_dates.
  set (sorted := sortBy _ (a :: l)).
  split.
  - apply Permutation_map. apply sortBy_perm.
  - pose proof (sortBy_by_date (a :: l)) as Hs. fold sorted in Hs.
    induction Hs as [| c s Hs IH Hhd]; cbn [map]; constructor; [exact IH |].
    destruct Hhd; cbn [map]; constructor. assumption.
Qed.

(** ** Days between two dates *)

Lemma Qfloor_unique (q : Q) (k : Z) :
  (inject_Z k <= q)%Q -> (q < inject_Z (k + 1))%Q -> Qfloor q = k.
Proof.
  intros Hlo Hhi.
  pose proof (Qfloor_le q) as H1. pose proof (Qlt_floor q) as H2.
  assert (Ha : (inject_Z (Qfloor q) < inject_Z (k + 1))%Q) by lra.
  assert (Hb : (inject_Z k < inject_Z (Qfloor q + 1))%Q) by lra.
  rewrite <- Zlt_Qlt in Ha, Hb. lia.
Qed.

(** X10. For two valid dates at most 2^52 ms (about 142000 years) apart,
    [daysBetween] rounds the elapsed time to the nearest whole day, a half
    day rounding up: it is [k] exactly when the elapsed milliseconds lie in
    the half-open window from [k - 1/2] days to [k + 1/2] days.  In that
    range the binary64 subtraction is exact and the rounding of the quotient
    never reaches a half-integer that the exact quotient does not reach. *)
Theorem daysBetween_window (date1 date2 k : Z) :
  (Z.abs date1 <= maxTime)%Z -> (Z.abs date2 <= maxTime)%Z ->
  (Z.abs (date2 - date1) <= 2 ^ 52)%Z ->
  (2 * 86400000 * k - 86400000 <= 2 * (date2 - date1)
   < 2 * 86400000 * k + 86400000)%Z ->
  daysBetween date1 date2 = ofZ k.
Proof.
  intros _ _ _ [Hlo Hhi].
  unfold daysBetween.
  change (Fin 24 * Fin 60 * Fin 60 * Fin 1000) with (Fin 86400000).
  assert (Hd : exists q, (ofZ date2 - ofZ date1) / Fin 86400000 = Fin q
                         /\ (q * 86400000 == inject_Z (date2 - date1))%Q).
  { eexists. split; [reflexivity |].
    rewrite !Qred_correct. unfold Zminus. rewrite inject_Z_plus, inject_Z_opp.
    field. }
  destruct Hd as (q & -> & Hq). cbn [Math_round]. f_equal.
  apply Qfloor_unique.
  - rewrite Zle_Qle in Hlo. revert Hlo. unfold Z.sub at 1.
    rewrite !inject_Z_plus, inject_Z_opp, !inject_Z_mult, <- Hq.
    change (inject_Z 2) with 2%Q. change (inject_Z 86400000) with 86400000%Q.
    lra.
  - rewrite Zlt_Qlt in Hhi. revert Hhi.
    rewrite !inject_Z_mult, !inject_Z_plus, !inject_Z_mult, <- Hq.
    change (inject_Z 2) with 2%Q. change (inject_Z 86400000) with 86400000%Q.
    change (inject_Z 1) with 1%Q.
    lra.
Qed.

(** ** Projected healing date *)

Lemma daysBetween_integer (date1 date2 : Z) :
  exists z : Z, daysBetween date1 date2 = ofZ z.
Proof. unfold daysBetween. eexists. reflexivity. Qed.

Lemma Qceiling_pos (q : Q) : (0 < q)%Q -> (1 <= Qceiling q)%Z.
Proof.
  intros Hq. pose proof (Qle_ceiling q) as H.
  assert (Hc : (inject_Z 0 < inject_Z (Qceiling q))%Q) by (change (inject_Z 0) with 0%Q; lra).
  rewrite <- Zlt_Qlt in Hc. lia.
Qed.

Lemma projected_date_bound (currentArea previousArea : num) (z currentDate : Z) (t : num) :
  let areaChange := currentArea - previousArea in
  let healingRate := if ofZ z >? Fin 0 then (- areaChange) / ofZ z else Fin 0 in
  (if (healingRate >? Fin 0) && (currentArea >? Fin 0)
   then Some (ofZ currentDate + Math_ceil (currentArea / healingRate) * Fin 86400000)
   else None) = Some t ->
  exists q, t = Fin q /\ (inject_Z currentDate <= q)%Q.
Proof.
  intros areaChange healingRate.
  destruct ((healingRate >? Fin 0) && (currentArea >? Fin 0)) eqn:Hc; [| discriminate].
  apply andb_true_iff in Hc as [Hrate Harea].
  intros [= <-].
  subst healingRate areaChange.
  destruct (ofZ z >? Fin 0) eqn:Hz; [| discriminate].
  destruct currentArea as [| [|] | c]; try discriminate;
    destruct previousArea as [| [|] | p]; try discriminate.
  all: unfold ofZ in *; revert Hz Hrate; generalize (inject_Z z); intros d Hz Hrate.
  1-3: exfalso; clear Harea; num_unfold; cbn in *; qcmp.
  - exists (Qred (inject_Z currentDate + Qred 0)). split.
    + num_unfold. cbn in *. qcmp.
    + rewrite !Qred_correct. lra.
  - assert (Hr : exists r, - (Fin c - Fin p) / Fin d = Fin r).
    { num_unfold. destruct (Qcompare_spec d 0); [exfalso; qcmp | |]; eauto. }
    destruct Hr as (r & Hr). rewrite Hr in *.
    assert (Hrpos : (0 < r)%Q) by (clear Hr; num_unfold; qcmp).
    assert (Hcpos : (0 < c)%Q) by (clear Hr; num_unfold; qcmp).
    assert (Hdiv : Fin c / Fin r = Fin (Qred (c / r))).
    { unfold ndiv, fin, Qeqb. destruct (Qcompare_spec r 0); try lra; reflexivity. }
    rewrite Hdiv. cbn [Math_ceil].
    assert (Hceil : (1 <= Qceiling (Qred (c / r)))%Z).
    { apply Qceiling_pos. rewrite Qred_correct. apply Qlt_shift_div_l; lra. }
    eexists. split; [reflexivity |].
    rewrite Zle_Qle in Hceil. revert Hceil.
    generalize (inject_Z (Qceiling (Qred (c / r)))). intros k Hk.
    rewrite !Qred_correct. change (inject_Z 1) with 1%Q in Hk. lra.
Qed.

Lemma TimeClip_cases (q : Q) :
  TimeClip (Fin q) = NaN
  \/ (TimeClip (Fin q) = Fin q /\ (q <= inject_Z maxTime)%Q).
Proof.
  unfold TimeClip. destruct (Qltb (inject_Z maxTime) (Qabs q)) eqn:E; [left; reflexivity |].
  right. split; [reflexivity |]. apply Qltb_false in E.
  pose proof (Qle_Qabs q). lra.
Qed.

(** X11. A projected healing date is an Invalid Date (NaN, when adding
    the days leaves the range of dates) or a valid date that is not before
    the date of its assessment (a day taken as 86400000 ms). *)
Theorem projected_date_not_before (sorted : list WoundAssessment) (i : nat)
    (t : num) :
  projectedHealingDate (progressEntry sorted i) = Some t ->
  t = NaN
  \/ exists q, t = Fin q
       /\ (inject_Z (date (progressEntry sorted i)) <= q <= inject_Z maxTime)%Q.
Proof.
  unfold progressEntry. cbn [projectedHealingDate date].
  destruct (if Nat.ltb 0 i then sorted !! (i - 1)%nat else None) as [p |].
  - destruct (daysBetween_integer (capturedAt p)
                (match sorted !! i with Some c => capturedAt c | None => 0%Z end))
      as (z & ->).
    match goal with
    | |- (if ?c then _ else _) = _ -> _ => destruct c eqn:Hc; [| discriminate]
    end.
    intros [= <-].
    match goal with
    | |- TimeClip ?raw = NaN \/ _ =>
        destruct (projected_date_bound
                    (match sorted !! i with
                     | Some c => m_area (measurement c) | None => NaN end)
                    (m_area (measurement p)) z
                    (match sorted !! i with Some c => capturedAt c | None => 0%Z end)
                    raw) as (q & Hq & Hle)
    end.
    { cbv zeta. rewrite Hc. reflexivity. }
    rewrite Hq. destruct (TimeClip_cases q) as [-> | [-> Hmax]]; [left; reflexivity |].
    right. exists q. split; [reflexivity |]. split; assumption.
  - cbn. discriminate.
Qed.

(** ** Detection of the calibration marker *)

Lemma detectGrid_confidence (imageData : ImageData) :
  detected (detectGrid imageData) = true ->
  exists q, confidence (detectGrid imageData) = Fin q /\ (0.8 <= q <= 1)%Q.
Proof.
  unfold detectGrid.
  destruct (Nat.ltb (length (findGridPattern _)) (grid_minCells * 4)) eqn:Hn;
    [discriminate |].
  intros _. cbn [confidence]. unfold calculateGridConfidence.
  apply Nat.ltb_ge in Hn. change (grid_minCells * 4)%nat with 16%nat in Hn.
  revert Hn. generalize (length (findGridPattern
    (harrisCornerDetection
       (toGrayscale (data imageData) (width imageData) (height imageData))
       (width imageData) (height imageData)))).
  intros n Hn.
  destruct (Nat.ltb_spec n 4); [lia |].
  assert (Hq : (16 <= inject_Z (Z.of_nat n))%Q).
  { change 16%Q with (inject_Z 16). rewrite <- Zle_Qle. lia. }
  unfold ofNat, ofZ. revert Hq. generalize (inject_Z (Z.of_nat n)). intros x Hx.
  assert (Hd : Fin x / Fin 20 = Fin (Qred (x / 20))) by reflexivity.
  rewrite Hd. pose proof (Qred_correct (x / 20)) as Hr.
  assert (Hx20 : (x / 20 * 20 == x)%Q) by (field).
  unfold Math_min, ncompare.
  destruct (Qcompare_spec 1 (Qred (x / 20))); eexists; (split; [reflexivity | lra]).
Qed.

(** X12. A detected grid is given a confidence between 0.8 and 1. *)
Theorem detectGrid_confidence_range (imageData : ImageData) :
  detected (detectGrid imageData) = true ->
  exists q, confidence (detectGrid imageData) = Fin q /\ (0.8 <= q <= 1)%Q.
Proof. exact (detectGrid_confidence imageData). Qed.

(** X13. [detectCalibration] reports a detection exactly when the circle
    or the grid was detected, or the ruler was detected with a confidence
    above 0: a detected ruler of confidence 0 (or NaN) loses the final
    comparison to the failed circle and grid results. *)
Theorem detectCalibration_detected_iff (imageData : ImageData) :
  detected (detectCalibration imageData) = true
  <-> (detected (detectCircle imageData) = true
       \/ detected (detectGrid imageData) = true
       \/ (detected (detectRuler imageData) = true
           /\ (confidence (detectRuler imageData) >? Fin 0) = true)).
Proof.
  unfold detectCalibration. cbn [fold_left].
  pose proof (detectGrid_confidence imageData) as Hg.
  destruct (detectGrid_cases imageData) as [Eg | [Dg _]].
  - clear Hg. rewrite Eg.
    destruct (detectCircle_cases imageData) as [Ec | [Dc Hc]].
    + rewrite Ec. cbn [detected confidence createFailedCalibration andb].
      destruct (detectRuler_cases imageData) as [Er | Dr].
      * rewrite Er. cbn. split; [discriminate | intros [H | [H | [H _]]]; discriminate].
      * rewrite Dr. cbn [andb].
        destruct (confidence (detectRuler imageData) >? Fin 0.8) eqn:H8.
        -- split; [intros _ | intros _; exact Dr].
           right; right. split; [reflexivity |]. revert H8.
           generalize (confidence (detectRuler imageData)). intros n. num_cases.
        -- destruct (confidence (detectRuler imageData) >? Fin 0) eqn:H0.
           ++ cbn [detected confidence]. rewrite H0.
              split; [auto | intros _; exact Dr].
           ++ cbn [detected confidence].
              change (Fin 0 >? Fin 0) with false. cbv iota. cbn [detected].
              split; [discriminate | intros [H | [H | [_ H]]]; discriminate].
    + split; [auto |]. intros _.
      assert (H1 : (Fin 0 >? confidence (detectCircle imageData)) = false).
      { revert Hc. generalize (confidence (detectCircle imageData)).
        intros n. num_cases. }
      assert (H2 : (confidence (detectCircle imageData) >? Fin 0) = true).
      { revert Hc. generalize (confidence (detectCircle imageData)).
        intros n. num_cases. }
      destruct (detected (detectRuler imageData)
                && (confidence (detectRuler imageData) >? Fin 0.8)) eqn:H8.
      { apply andb_true_iff in H8 as [H8 _]. exact H8. }
      destruct (detected (detectCircle imageData)
                && (confidence (detectCircle imageData) >? Fin 0.8)); [exact Dc |].
      cbn [detected confidence createFailedCalibration andb].
      destruct (confidence (detectRuler imageData)
                >? confidence (detectCircle imageData)) eqn:Hrc.
      * assert (H0 : (confidence (detectRuler imageData) >? Fin 0) = true).
        { revert Hc Hrc. generalize (confidence (detectCircle imageData))
            (confidence (detectRuler imageData)). intros n m. num_cases. }
        rewrite H0.
        destruct (detectRuler_cases imageData) as [Er | Dr]; [| exact Dr].
        rewrite Er in H0. discriminate.
      * rewrite H2. exact Dc.
  - destruct (Hg Dg) as (q & Hq & Hlo & Hhi).
    split; [auto |]. intros _.
    destruct (detected (detectRuler imageData)
              && (confidence (detectRuler imageData) >? Fin 0.8)) eqn:H1.
    { apply andb_true_iff in H1 as [H1 _]. exact H1. }
    destruct (detected (detectCircle imageData)
              && (confidence (detectCircle imageData) >? Fin 0.8)) eqn:H2.
    { apply andb_true_iff in H2 as [H2 _]. exact H2. }
    destruct (detected (detectGrid imageData)
              && (confidence (detectGrid imageData) >? Fin 0.8)); [exact Dg |].
    assert (Hz : (Fin 0 >? Fin q) = false) by (num_unfold; qcmp).
    rewrite Hq.
    destruct (confidence (detectRuler imageData)
              >? confidence (detectCircle imageData)).
    + destruct (confidence (detectRuler imageData) >? Fin q) eqn:Hrq; [| exact Dg].
      destruct (detectRuler_cases imageData) as [Er | Dr]; [| exact Dr].
      rewrite Er in Hrq. cbn [confidence createFailedCalibration] in Hrq. congruence.
    + destruct (confidence (detectCircle imageData) >? Fin q) eqn:Hcq; [| exact Dg].
      destruct (detectCircle_cases imageData) as [Ec | [Dc _]]; [| exact Dc].
      rewrite Ec in Hcq. cbn [confidence createFailedCalibration] in Hcq. congruence.
Qed.

(** ** Evenly spaced ticks *)

Lemma nsub_fin (a b c : Q) : (a - b == c)%Q -> Fin a - Fin b = Fin (Qred c).
Proof.
  intros H. unfold nsub, nopp, nadd, fin. f_equal. apply Qred_complete.
  rewrite Qred_correct. rewrite <- H. ring.
Qed.

Lemma map_constant {A B : Type} (f : A -> B) (c : B) (l : list A) :
  (forall x, x ∈ l -> f x = c) -> map f l = replicate (length l) c.
Proof.
  induction l as [| x l IH]; intros H; [reflexivity |].
  cbn [map length replicate]. rewrite (H x) by (apply elem_of_cons; auto).
  f_equal. apply IH. intros y Hy. apply H, elem_of_cons. auto.
Qed.

Lemma evenTicks_lookup (x0 y0 dx dy : Q) (count i : nat) :
  (i < count)%nat ->
  evenTicks x0 y0 dx dy count !!! i
  = mkPoint (Fin (x0 + inject_Z (Z.of_nat i) * dx))
            (Fin (y0 + inject_Z (Z.of_nat i) * dy)).
Proof.
  intros Hi. unfold evenTicks. apply list_lookup_total_correct.
  change (map ?f ?l) with (f <$> l).
  rewrite list_lookup_fmap, lookup_seq_lt by exact Hi. reflexivity.
Qed.

Lemma spacingsOf_evenTicks (x0 y0 dx dy : Q) (count : nat) :
  exists d : Q,
    (d == dx * dx + dy * dy)%Q
    /\ spacingsOf (evenTicks x0 y0 dx dy count)
       = replicate (count - 1) (Math_sqrt (Fin d)).
Proof.
  exists (Qred (Qred (Qred dx * Qred dx) + Qred (Qred dy * Qred dy))).
  split; [rewrite !Qred_correct; reflexivity |].
  unfold spacingsOf.
  assert (Hlen : length (evenTicks x0 y0 dx dy count) = count).
  { unfold evenTicks. rewrite length_map, length_seq. reflexivity. }
  rewrite Hlen.
  rewrite (map_constant _
             (Math_sqrt (Fin (Qred (Qred (Qred dx * Qred dx)
                                    + Qred (Qred dy * Qred dy))))));
    [rewrite length_seq; reflexivity |]. intros i Hi. apply elem_of_seq in Hi.
  rewrite !evenTicks_lookup by lia. cbn [px py].
  assert (Hi1 : (inject_Z (Z.of_nat i) == inject_Z (Z.of_nat (i - 1)) + 1)%Q).
  { change 1%Q with (inject_Z 1). rewrite <- inject_Z_plus.
    replace (Z.of_nat (i - 1) + 1)%Z with (Z.of_nat i) by lia. reflexivity. }
  rewrite (nsub_fin _ _ dx) by (rewrite Hi1; ring).
  rewrite (nsub_fin _ _ dy) by (rewrite Hi1; ring).
  reflexivity.
Qed.

Lemma sum_replicate (r : Q) (m : nat) (a : Q) :
  exists t : Q,
    fold_left (fun a b => a + b) (replicate m (Fin r)) (Fin a) = Fin t
    /\ (t == a + inject_Z (Z.of_nat m) * r)%Q.
Proof.
  revert a. induction m as [| m IH]; intros a.
  - exists a. split; [reflexivity |]. cbn. ring.
  - cbn [replicate fold_left]. destruct (IH (Qred (a + r))) as (t & Ht & Hv).
    exists t. split; [exact Ht |]. rewrite Hv, Qred_correct.
    rewrite Nat2Z.inj_succ. unfold Z.succ. rewrite inject_Z_plus.
    change (inject_Z 1) with 1%Q. ring.
Qed.

Lemma squares_replicate (r mean : Q) (m : nat) :
  (mean == r)%Q ->
  fold_left (fun sum s => sum + Math_pow (s - Fin mean) 2)
            (replicate m (Fin r)) (Fin 0) = Fin 0.
Proof.
  intros Hm. induction m as [| m IH]; [reflexivity |].
  cbn [replicate fold_left].
  rewrite (nsub_fin r mean 0) by (rewrite Hm; ring). exact IH.
Qed.

Section EvenSpacing.

Hypothesis Math_sqrt_zero : forall q : Q, (q == 0)%Q -> Math_sqrt (Fin q) = Fin 0.
Hypothesis Math_sqrt_pos :
  forall q : Q, (0 < q)%Q -> exists r : Q, Math_sqrt (Fin q) = Fin r /\ (0 < r)%Q.

Lemma coefficientOfVariation_constant (r : Q) (m : nat) :
  (0 < r)%Q -> (0 < m)%nat ->
  coefficientOfVariation (replicate m (Fin r)) = Fin 0.
Proof.
  intros Hr Hm. unfold coefficientOfVariation, sumNums.
  rewrite length_replicate.
  destruct (sum_replicate r m 0) as (t & -> & Ht).
  assert (Hmq : (0 < inject_Z (Z.of_nat m))%Q).
  { change 0%Q with (inject_Z 0). rewrite <- Zlt_Qlt. lia. }
  unfold ofNat, ofZ. revert Ht Hmq. generalize (inject_Z (Z.of_nat m)).
  intros k Ht Hk.
  assert (Hmean : Fin t / Fin k = Fin (Qred (t / k))).
  { unfold ndiv, fin, Qeqb. destruct (Qcompare_spec k 0); try lra; reflexivity. }
  rewrite Hmean.
  assert (Hv : (Qred (t / k) == r)%Q).
  { rewrite Qred_correct, Ht. field. lra. }
  rewrite (squares_replicate r _ m Hv).
  assert (Hvar : Fin 0 / Fin k = Fin 0).
  { apply ndiv_zero_pos. unfold ngt, nlt, ncompare.
    destruct (Qcompare_spec 0 k); try lra; reflexivity. }
  rewrite Hvar, (Math_sqrt_zero 0) by reflexivity.
  apply ndiv_zero_pos. unfold ngt, nlt, ncompare.
  destruct (Qcompare_spec 0 (Qred (t / k))); try lra; reflexivity.
Qed.

Lemma evenTicks_variation (x0 y0 dx dy : Q) (count : nat) :
  (3 <= count)%nat -> ~ (dx == 0 /\ dy == 0)%Q ->
  coefficientOfVariation (spacingsOf (evenTicks x0 y0 dx dy count)) = Fin 0.
Proof.
  intros Hn Hd.
  destruct (spacingsOf_evenTicks x0 y0 dx dy count) as (d & Hdv & ->).
  assert (Hpos : (0 < d)%Q).
  { rewrite Hdv. destruct (Qeq_dec dx 0) as [Hx | Hx].
    - assert (Hy : ~ (dy == 0)%Q) by (intros Hy; apply Hd; split; assumption).
      pose proof (Qsquare_pos dy Hy). rewrite Hx. lra.
    - pose proof (Qsquare_pos dx Hx). assert (0 <= dy * dy)%Q by nra. lra. }
  destruct (Math_sqrt_pos d Hpos) as (r & -> & Hr).
  apply coefficientOfVariation_constant; [exact Hr | lia].
Qed.

(** X14. Ticks that are evenly spaced along a line (at least 3, not all
    at one point) get tick confidence 1, and a detected ruler calibration
    with them as reference points has perspective distortion 0. *)
Theorem even_ticks_undistorted (x0 y0 dx dy : Q) (count : nat)
    (scale trust : num) :
  (3 <= count)%nat -> ~ (dx == 0 /\ dy == 0)%Q ->
  let ticks := evenTicks x0 y0 dx dy count in
  calculateTickConfidence ticks = Fin 1
  /\ checkPerspective
       {| detected := true; pixelsPerCm := scale; confidence := trust;
          markerType := ruler; referencePoints := ticks |}
     = {| distortion := Fin 0;
          corrected := Fin 0 <=? maxPerspectiveDistortion thresholds |}.
Proof.
  intros Hn Hd ticks.
  assert (Hlen : length ticks = count).
  { unfold ticks, evenTicks. rewrite length_map, length_seq. reflexivity. }
  pose proof (evenTicks_variation x0 y0 dx dy count Hn Hd) as Hcv.
  fold ticks in Hcv.
  split.
  - unfold calculateTickConfidence. rewrite Hlen.
    destruct (Nat.ltb_spec count 3); [lia |]. rewrite Hcv. reflexivity.
  - unfold checkPerspective.
    cbn [detected referencePoints markerType negb orb]. rewrite Hlen.
    destruct (Nat.ltb_spec count 2); [lia |].
    destruct (Nat.leb_spec 3 count); [| lia].
    rewrite Hcv. reflexivity.
Qed.

End EvenSpacing.

(** ** Range of the quality scores *)

Lemma notNegative_add (x y : num) :
  notNegative x -> notNegative y -> notNegative (x + y).
Proof.
  intros [-> | [-> | (a & -> & Ha)]] [-> | [-> | (b & -> & Hb)]];
    try (left; reflexivity); try (right; left; reflexivity).
  right; right. eexists. split; [reflexivity |]. rewrite Qred_correct. lra.
Qed.

Lemma notNegative_div (x y : num) :
  notNegative x -> notNegative y -> notNegative (x / y).
Proof.
  intros [-> | [-> | (a & -> & Ha)]] [-> | [-> | (b & -> & Hb)]];
    try (left; reflexivity); try (right; left; reflexivity).
  - unfold ndiv. assert (Hn : Qltb b 0 = false) by (apply Qltb_false; exact Hb).
    rewrite Hn. right; left. reflexivity.
  - right; right. exists 0%Q. split; [reflexivity | lra].
  - unfold ndiv, Qeqb, Qltb.
    destruct (Qcompare_spec b 0) as [Hb0 | Hb0 | Hb0]; try lra.
    + destruct (Qcompare_spec a 0); try lra; [left | right; left]; reflexivity.
    + right; right. eexists. split; [reflexivity |]. rewrite Qred_correct.
      apply Qle_shift_div_l; lra.
Qed.

Lemma notNegative_square (y : num) : notNegative (Math_pow y 2).
Proof.
  destruct y as [| s | a]; cbn [Math_pow].
  - left. reflexivity.
  - right; left. destruct s; reflexivity.
  - right; right. eexists. split; [reflexivity |].
    rewrite !Qred_correct. assert (H : (a * (a * 1) == a * a)%Q) by ring.
    rewrite H. nra.
Qed.

Lemma nonzeroSquares_notNegative (laplacian : list num) (mean : num) :
  notNegative (nonzeroSquares laplacian mean).
Proof.
  unfold nonzeroSquares.
  assert (H : forall l x, notNegative x ->
    notNegative (fold_left
      (fun variance v =>
         if v !== Fin 0 then variance + Math_pow (v - mean) 2 else variance) l x)).
  { induction l as [| v l IH]; intros x Hx; cbn [fold_left]; [exact Hx |].
    apply IH. destruct (v !== Fin 0); [| exact Hx].
    apply notNegative_add; [exact Hx | apply notNegative_square]. }
  apply H. right; right. exists 0%Q. split; [reflexivity | lra].
Qed.

Lemma nonzeroSum_count (laplacian : list num) :
  notNegative (snd (nonzeroSum laplacian)).
Proof.
  unfold nonzeroSum.
  assert (H : forall l (s : num * num), notNegative (snd s) ->
    notNegative (snd (fold_left
      (fun '(mean, count) v =>
         if v !== Fin 0 then (mean + v, count + Fin 1) else (mean, count)) l s))).
  { induction l as [| v l IH]; intros [mean count] Hs; cbn [fold_left]; [exact Hs |].
    apply IH. destruct (v !== Fin 0); [| exact Hs]. cbn [snd] in *.
    apply notNegative_add; [exact Hs |].
    right; right. exists 1%Q. split; [reflexivity | lra]. }
  apply H. right; right. exists 0%Q. split; [reflexivity | lra].
Qed.

Lemma hundredths (x : num) :
  x = NaN \/ (exists q, x = Fin q /\ (0 <= q <= 1)%Q) ->
  isScore (Math_round (x * Fin 100) / Fin 100).
Proof.
  intros [-> | (q & -> & Hlo & Hhi)]; [left; reflexivity |].
  right. cbn [nmul Math_round]. unfold fin, ofZ.
  set (k := Qfloor (Qred (q * 100) + (1 # 2))).
  assert (Hk : (0 <= k <= 100)%Z).
  { unfold k. split.
    - change 0%Z with (Qfloor 0). apply Qfloor_resp_le.
      rewrite Qred_correct. lra.
    - pose proof (Qfloor_resp_le (Qred (q * 100) + (1 # 2)) (100 + (1 # 2))) as H.
      change (Qfloor (100 + (1 # 2))) with 100%Z in H. apply H.
      rewrite Qred_correct. lra. }
  exists (Qred (inject_Z k / 100)), k.
  split; [reflexivity |]. split; [exact Hk |]. rewrite Qred_correct. field.
Qed.

Lemma clamp_unit (x : num) :
  let c := Math_max (Fin 0) (Math_min (Fin 1) x) in
  c = NaN \/ exists q, c = Fin q /\ (0 <= q <= 1)%Q.
Proof.
  cbv zeta. destruct x as [| [|] | a].
  - left. reflexivity.
  - right. exists 0%Q. split; [reflexivity | lra].
  - right. exists 1%Q. split; [reflexivity | lra].
  - right. unfold Math_min, Math_max, ncompare.
    destruct (Qcompare_spec 1 a);
      match goal with
      | |- context [Qcompare 0 ?b] => destruct (Qcompare_spec 0 b)
      end; eexists; (split; [reflexivity | lra]).
Qed.

Lemma min_unit (x : num) :
  notNegative x ->
  Math_min (Fin 1) x = NaN \/ exists q, Math_min (Fin 1) x = Fin q /\ (0 <= q <= 1)%Q.
Proof.
  intros [-> | [-> | (a & -> & Ha)]].
  - left. reflexivity.
  - right. exists 1%Q. split; [reflexivity | lra].
  - right. unfold Math_min, ncompare.
    destruct (Qcompare_spec 1 a); eexists; (split; [reflexivity | lra]).
Qed.

(** X15. The blur and lighting scores of a quality report are each NaN
    or a whole number of hundredths between 0 and 1. *)
Theorem quality_scores_range (imageData : ImageData)
    (calibrationData : CalibrationData) :
  let report := runQualityChecks imageData calibrationData in
  isScore (blur_score (blur report))
  /\ isScore (lighting_score (lighting report)).
Proof.
  cbv zeta. unfold runQualityChecks. cbn [blur lighting]. split.
  - unfold checkBlur.
    set (laplacian := laplacianOf _ _ _).
    pose proof (nonzeroSum_count laplacian) as Hcount.
    destruct (nonzeroSum laplacian) as [mean count]. cbn [snd] in Hcount.
    cbn [blur_score].
    apply hundredths, min_unit.
    apply notNegative_div.
    + apply notNegative_div; [apply nonzeroSquares_notNegative | exact Hcount].
    + right; right. exists 1000%Q. split; [reflexivity | lra].
  - unfold checkLighting. cbn [lighting_score].
    apply hundredths, clamp_unit.
Qed.

(** ** Images without pixels *)

Lemma nge_nan (x : num) : (NaN >=? x) = false.
Proof. destruct x as [| [|] |]; reflexivity. Qed.

Lemma laplacianOf_no_pixels (grayscale : list num) (width height : nat) :
  (width * height = 0)%nat -> laplacianOf grayscale width height = [].
Proof.
  intros H. unfold laplacianOf. rewrite H.
  apply forRange_invariant; [reflexivity |].
  intros y l _ ->.
  apply forRange_invariant; [reflexivity |].
  intros x l _ ->. reflexivity.
Qed.

(** X16. An image without pixels fails both image checks: its blur and
    lighting scores are NaN, its only lighting issue is low contrast, and
    the report does not pass. *)
Theorem no_pixels_fail (imageData : ImageData) (calibrationData : CalibrationData) :
  (width imageData * height imageData = 0)%nat ->
  let report := runQualityChecks imageData calibrationData in
  blur report = {| blur_score := NaN; blur_passed := false |}
  /\ lighting report
     = {| lighting_score := NaN; lighting_passed := false;
          issues := ["Low contrast - poor lighting"%string] |}
  /\ passed report = false.
Proof.
  intros H. cbv zeta.
  assert (Hb : checkBlur imageData = {| blur_score := NaN; blur_passed := false |}).
  { unfold checkBlur. rewrite (laplacianOf_no_pixels _ _ _ H).
    cbn. rewrite nge_nan. reflexivity. }
  assert (Hl : checkLighting imageData
               = {| lighting_score := NaN; lighting_passed := false;
                    issues := ["Low contrast - poor lighting"%string] |}).
  { unfold checkLighting, lightingIssues, avgBrightness, lightingStats.
    rewrite H. cbn. rewrite nge_nan. reflexivity. }
  unfold runQualityChecks. cbn [blur lighting passed].
  rewrite Hb, Hl. repeat split.
Qed.

(** ** Measuring under a manual calibration *)

Section ManualScale.

Hypothesis Math_sqrt_zero : forall q : Q, (q == 0)%Q -> Math_sqrt (Fin q) = Fin 0.
Hypothesis Math_sqrt_pos :
  forall q : Q, (0 < q)%Q -> exists r : Q, Math_sqrt (Fin q) = Fin r /\ (0 < r)%Q.

Lemma manualCalibration_rejected (x1 y1 x2 y2 d : Q) :
  (0 < d)%Q ->
  (pixelsPerCm (manualCalibration (mkPoint (Fin x1) (Fin y1))
                  (mkPoint (Fin x2) (Fin y2)) (Fin d)) <=? Fin 0) = true
  <-> (x1 == x2 /\ y1 == y2)%Q.
Proof.
  intros Hd. unfold manualCalibration. cbn [px py pixelsPerCm].
  destruct (squaredDistance x1 y1 x2 y2) as (s & -> & Hs).
  destruct (Qlt_le_dec 0 s) as [Hpos | Hle].
  - destruct (Math_sqrt_pos s Hpos) as (r & -> & Hr).
    assert (Hq : (0 < r / d)%Q) by (apply Qlt_shift_div_l; lra).
    num_unfold. simpl.
    destruct (Qcompare_spec d 0); try lra.
    split; [qcmp |].
    intros [Hx Hy].
    assert (Hs0 : (s == 0)%Q) by (rewrite Hs, Hx, Hy; ring).
    clear Hq. lra.
  - rewrite Hs in Hle. apply Qsumsq_zero in Hle as [Hx Hy].
    assert (Hz : (s == 0)%Q) by (rewrite Hs, Hx, Hy; ring).
    rewrite (Math_sqrt_zero s Hz).
    assert (Hq : (0 / d == 0)%Q) by (field; lra).
    num_unfold. simpl.
    destruct (Qcompare_spec d 0); try lra.
    split; [| qcmp].
    intros _. clear Hq. split; lra.
Qed.

(** X17. Under a manual calibration with finite points and a finite
    positive distance, [calculateMeasurements] throws when the two points
    coincide, and returns a measurement when the distance is at most
    [1 / tiny] and the points are [clearlyDistinct] (closer points can have a
    squared distance that underflows to 0 in binary64). *)
Theorem manual_calibration_measures (segmentation : SegmentationResult)
    (x1 y1 x2 y2 d : Q) :
  (0 < d)%Q ->
  let calibration :=
    manualCalibration (mkPoint (Fin x1) (Fin y1)) (mkPoint (Fin x2) (Fin y2)) (Fin d) in
  ((x1 == x2 /\ y1 == y2)%Q ->
   calculateMeasurements segmentation calibration
   = Throw "Valid calibration required for measurement")
  /\ ((d <= 1 / tiny)%Q -> clearlyDistinct x1 y1 x2 y2 ->
      exists m, calculateMeasurements segmentation calibration = Return m).
Proof.
  intros Hd calibration.
  pose proof (manualCalibration_rejected x1 y1 x2 y2 d Hd) as Hrej.
  fold calibration in Hrej.
  unfold calculateMeasurements.
  change (detected calibration) with true. cbn [negb orb].
  destruct (pixelsPerCm calibration <=? Fin 0).
  - split; [reflexivity |].
    intros _ Hfar. exfalso.
    apply (clearlyDistinct_differ x1 y1 x2 y2 Hfar), Hrej. reflexivity.
  - destruct (calculateLengthWidth (contour segmentation)) as [l w].
    split; [| eauto]. intros H. apply Hrej in H. discriminate.
Qed.

End ManualScale.

(** ** Length and width *)

Lemma min_not_above_max (a b : num) : (Math_min a b >? Math_max a b) = false.
Proof. num_cases. Qed.

Lemma Qdiv_le_pos (a b d : Q) : (0 < d)%Q -> (a <= b)%Q -> (a / d <= b / d)%Q.
Proof.
  intros Hd Hab. unfold Qdiv. apply Qmult_le_compat_r; [exact Hab |].
  apply Qlt_le_weak, Qinv_lt_0_compat, Hd.
Qed.

Lemma ngt_false_fin (a b : Q) : (Fin a >? Fin b) = false <-> (a <= b)%Q.
Proof.
  unfold ngt, nlt, ncompare.
  destruct (Qcompare_spec b a); split; intros; try discriminate; try reflexivity; lra.
Qed.

Lemma ndiv_monotone (x y p : num) :
  (p <=? Fin 0) = false -> (x >? y) = false -> (x / p >? y / p) = false.
Proof.
  intros Hp Hxy.
  destruct p as [| [|] | d]; try discriminate.
  - destruct x as [| [|] |], y as [| [|] |]; reflexivity.
  - destruct x as [| [|] | a], y as [| [|] | b]; try reflexivity; discriminate.
  - assert (Hd : (0 < d)%Q).
    { revert Hp. unfold nle, ncompare. destruct (Qcompare_spec d 0);
        try discriminate. intros _. assumption. }
    assert (Hn : Qltb d 0 = false) by (apply Qltb_false; lra).
    assert (Hz : Qeqb d 0 = false).
    { unfold Qeqb. destruct (Qcompare_spec d 0); try reflexivity; lra. }
    destruct x as [| [|] | a], y as [| [|] | b]; try reflexivity;
      try discriminate; unfold ndiv; rewrite ?Hn, ?Hz; try reflexivity.
    apply ngt_false_fin. rewrite !Qred_correct.
    apply Qdiv_le_pos; [exact Hd |]. apply ngt_false_fin, Hxy.
Qed.

Lemma nmul_monotone (x y : num) (d : Q) :
  (0 < d)%Q -> (x >? y) = false -> (x * Fin d >? y * Fin d) = false.
Proof.
  intros Hd Hxy.
  assert (Hn : Qltb d 0 = false) by (apply Qltb_false; lra).
  assert (Hz : Qeqb d 0 = false).
  { unfold Qeqb. destruct (Qcompare_spec d 0); try reflexivity; lra. }
  destruct x as [| [|] | a], y as [| [|] | b]; try reflexivity;
    try discriminate; unfold nmul; rewrite ?Hn, ?Hz; try reflexivity.
  apply ngt_false_fin. rewrite !Qred_correct.
  apply Qmult_le_compat_r; [| lra]. apply ngt_false_fin, Hxy.
Qed.

Lemma Math_round_monotone (x y : num) :
  (x >? y) = false -> (Math_round x >? Math_round y) = false.
Proof.
  intros Hxy.
  destruct x as [| [|] | a], y as [| [|] | b]; try reflexivity; try discriminate.
  cbn [Math_round]. unfold ofZ. apply ngt_false_fin. rewrite <- Zle_Qle.
  apply Qfloor_resp_le. apply ngt_false_fin in Hxy. lra.
Qed.

Lemma round_monotone (x y : num) (decimals : nat) :
  (x >? y) = false -> (round x decimals >? round y decimals) = false.
Proof.
  intros Hxy. unfold round.
  destruct (Math_pow_ten decimals) as (P & -> & HP).
  pose proof (pow_ten_pos decimals) as Hpos. rewrite <- HP in Hpos.
  apply ndiv_monotone.
  - unfold nle, ncompare. destruct (Qcompare_spec P 0); try reflexivity; lra.
  - apply Math_round_monotone, nmul_monotone; assumption.
Qed.

Lemma calculateLengthWidth_order (contour : list Point) :
  (snd (calculateLengthWidth contour) >? fst (calculateLengthWidth contour)) = false.
Proof.
  unfold calculateLengthWidth.
  destruct (Nat.ltb (length contour) 3); [reflexivity |].
  cbn [fst snd]. apply min_not_above_max.
Qed.

(** X18. In every measurement [calculateMeasurements] returns, the width
    does not exceed the length. *)
Theorem width_not_above_length (segmentation : SegmentationResult)
    (calibration : CalibrationData) (m : WoundMeasurement) :
  calculateMeasurements segmentation calibration = Return m ->
  (m_width m >? m_length m) = false.
Proof.
  unfold calculateMeasurements.
  destruct (negb (detected calibration)); [discriminate |]. cbn [orb].
  destruct (pixelsPerCm calibration <=? Fin 0) eqn:Hp; [discriminate |].
  pose proof (calculateLengthWidth_order (contour segmentation)) as Ho.
  destruct (calculateLengthWidth (contour segmentation)) as [l w].
  cbn [fst snd] in Ho.
  intros [= <-]. cbn [m_width m_length].
  apply round_monotone, ndiv_monotone; assumption.
Qed.

(** ** Circularity *)

Lemma onCircle_count (edgePoints : list Point) (cx cy radius tolerance : num) (n : nat) :
  exists k : nat,
    fold_left
      (fun onCircle point =>
         if Math_abs (Math_sqrt (Math_pow (px point - cx) 2
                                 + Math_pow (py point - cy) 2) - radius)
            <? tolerance
         then onCircle + Fin 1 else onCircle)
      edgePoints (ofNat n) = ofNat k
    /\ (n <= k <= n + length edgePoints)%nat.
Proof.
  revert n. induction edgePoints as [| p l IH]; intros n; cbn [fold_left].
  - exists n. split; [reflexivity | cbn [length]; lia].
  - destruct (Math_abs _ <? tolerance).
    + rewrite ofNat_succ. destruct (IH (S n)) as (k & Hk & Hb).
      exists k. split; [exact Hk | cbn [length]; lia].
    + destruct (IH n) as (k & Hk & Hb).
      exists k. split; [exact Hk | cbn [length]; lia].
Qed.

Lemma onCircle_none (edgePoints : list Point) (cx cy radius tolerance : num) :
  (forall x, (x <? tolerance) = true -> (x <? Fin 0) = true) ->
  fold_left
    (fun onCircle point =>
       if Math_abs (Math_sqrt (Math_pow (px point - cx) 2
                               + Math_pow (py point - cy) 2) - radius)
          <? tolerance
       then onCircle + Fin 1 else onCircle)
    edgePoints (Fin 0) = Fin 0.
Proof.
  intros Htol. induction edgePoints as [| p l IH]; cbn [fold_left]; [reflexivity |].
  destruct (Math_abs _ <? tolerance) eqn:E; [| exact IH].
  apply Htol in E. exfalso. revert E.
  generalize (Math_sqrt (Math_pow (px p - cx) 2 + Math_pow (py p - cy) 2) - radius).
  intros x. destruct x as [| [|] | a]; try discriminate.
  unfold Math_abs, fin, nlt, ncompare.
  pose proof (Qabs_nonneg a) as Ha. rewrite <- (Qred_correct (Qabs a)) in Ha.
  destruct (Qcompare_spec (Qred (Qabs a)) 0); try discriminate; lra.
Qed.

(** X19. For a finite radius, [calculateCircularity] is between 0 and 1
    when the radius is positive, 0 when it is negative, and NaN when it is
    0, whatever the edge points and whatever [Math.sqrt] returns. *)
Theorem calculateCircularity_range (edgePoints : list Point) (cx cy : num)
    (radius : Q) :
  let c := calculateCircularity edgePoints cx cy (Fin radius) in
  ((0 < radius)%Q -> exists q, c = Fin q /\ (0 <= q <= 1)%Q)
  /\ ((radius < 0)%Q -> c = Fin 0)
  /\ ((radius == 0)%Q -> c = NaN).
Proof.
  cbv zeta. unfold calculateCircularity.
  assert (Hexp : exists e, Fin 2 * Math_PI * Fin radius = Fin e
                           /\ (e == 2 * (884279719003555 # 281474976710656) * radius)%Q).
  { eexists. split; [reflexivity |]. rewrite !Qred_correct. reflexivity. }
  destruct Hexp as (e & -> & He).
  set (pi := (884279719003555 # 281474976710656)%Q) in He.
  assert (Hpi : (0 < pi)%Q) by reflexivity.
  assert (Htol : Fin radius * Fin 0.1 = Fin (Qred (radius * 0.1))) by reflexivity.
  rewrite Htol.
  split; [| split]; intros Hr.
  - destruct (onCircle_count edgePoints cx cy (Fin radius)
                (Fin (Qred (radius * 0.1))) 0) as (k & Hk & _).
    change (ofNat 0) with (Fin 0) in Hk. rewrite Hk.
    assert (He0 : (0 < e)%Q) by (rewrite He; nra).
    assert (Hk0 : (0 <= inject_Z (Z.of_nat k))%Q).
    { change 0%Q with (inject_Z 0). rewrite <- Zle_Qle. lia. }
    unfold ofNat, ofZ. revert Hk0. generalize (inject_Z (Z.of_nat k)). intros n Hn.
    assert (Hdiv : Fin n / Fin e = Fin (Qred (n / e))).
    { unfold ndiv, fin, Qeqb. destruct (Qcompare_spec e 0); try lra; reflexivity. }
    rewrite Hdiv.
    assert (Hq : (0 <= Qred (n / e))%Q).
    { rewrite Qred_correct. apply Qle_shift_div_l; lra. }
    unfold Math_min, ncompare.
    destruct (Qcompare_spec 1 (Qred (n / e))); eexists; (split; [reflexivity | lra]).
  - rewrite onCircle_none.
    + assert (He0 : (e < 0)%Q) by (rewrite He; nra).
      unfold ndiv, Qeqb. destruct (Qcompare_spec e 0); try lra. reflexivity.
    + intros x. destruct x as [| [|] | a]; try discriminate; [reflexivity |].
      unfold nlt, ncompare. pose proof (Qred_correct (radius * 0.1)) as Ht.
      destruct (Qcompare_spec a (Qred (radius * 0.1))); try discriminate.
      intros _. destruct (Qcompare_spec a 0); try reflexivity; lra.
  - rewrite onCircle_none.
    + assert (He0 : (e == 0)%Q) by (rewrite He, Hr; ring).
      unfold ndiv, Qeqb. destruct (Qcompare_spec e 0); try lra. reflexivity.
    + intros x. destruct x as [| [|] | a]; try discriminate; [reflexivity |].
      unfold nlt, ncompare. pose proof (Qred_correct (radius * 0.1)) as Ht.
      destruct (Qcompare_spec a (Qred (radius * 0.1))); try discriminate.
      intros _. destruct (Qcompare_spec a 0); try reflexivity; lra.
Qed.

(** ** Threshold and percentile *)

(** X20. [otsuThreshold] returns a bin index: a whole number from 0 to
    255, whatever the data. *)
Theorem otsuThreshold_range (data : list num) :
  exists k : nat, (k < 256)%nat /\ otsuThreshold data = ofNat k.
Proof.
  unfold otsuThreshold.
  apply (forRange_invariant
           (fun s => exists k : nat, (k < 256)%nat /\ o_threshold s = ofNat k)).
  - exists 0%nat. split; [lia | reflexivity].
  - intros i s Hi (k & Hk & Hs). unfold otsuStep.
    destruct (o_stopped s); [eauto |].
    destruct (_ === Fin 0); [cbn [o_threshold]; eauto |].
    destruct (_ === Fin 0); [cbn [o_threshold]; eauto |].
    destruct (_ >? o_maximum s); cbn [o_threshold]; [| eauto].
    exists i. split; [lia | reflexivity].
Qed.

Lemma percentile_index (p : Q) (n : nat) :
  (0 <= p)%Q -> (p < 100)%Q -> (0 < n)%nat ->
  exists i : nat,
    arrayIndex (Math_floor ((Fin p / Fin 100) * ofNat n)) = Some i /\ (i < n)%nat.
Proof.
  intros Hlo Hhi Hn.
  assert (Hx : exists x, (Fin p / Fin 100) * ofNat n = Fin x
                         /\ (x == p / 100 * inject_Z (Z.of_nat n))%Q).
  { eexists. split; [reflexivity |]. rewrite !Qred_correct. reflexivity. }
  destruct Hx as (x & -> & Hx). cbn [Math_floor]. unfold ofZ.
  assert (Hnq : (1 <= inject_Z (Z.of_nat n))%Q).
  { change 1%Q with (inject_Z 1). rewrite <- Zle_Qle. lia. }
  assert (Hp : (p / 100 * 100 == p)%Q) by field.
  assert (H0 : (0 <= x)%Q) by (rewrite Hx; nra).
  assert (H1 : (x < inject_Z (Z.of_nat n))%Q) by (rewrite Hx; nra).
  assert (Hf0 : (0 <= Qfloor x)%Z).
  { change 0%Z with (Qfloor 0). apply Qfloor_resp_le, H0. }
  assert (Hf1 : (Qfloor x < Z.of_nat n)%Z).
  { rewrite Zlt_Qlt. pose proof (Qfloor_le x). lra. }
  rewrite (arrayIndex_int _ Hf0).
  exists (Z.to_nat (Qfloor x)). split; [reflexivity | lia].
Qed.

(** X21. For a percentile from 0 up to but not including 100 and
    non-empty data, [calculatePercentile] returns one of the data values;
    at the percentile 100 it reads past the end of the sorted copy and
    returns [undefined]. *)
Theorem calculatePercentile_defined (data : list num) (p : Q) :
  ((0 <= p)%Q -> (p < 100)%Q -> data <> [] ->
   exists v, calculatePercentile data (Fin p) = Some v /\ v ∈ data)
  /\ calculatePercentile data (Fin 100) = None.
Proof.
  split.
  - intros Hlo Hhi Hne. unfold calculatePercentile.
    rewrite sortBy_length.
    destruct (percentile_index p (length data) Hlo Hhi) as (i & -> & Hi).
    { destruct data; [congruence | cbn [length]; lia]. }
    destruct (lookup_lt_is_Some_2 (sortBy (fun a b => a - b) data) i) as [v Hv].
    { rewrite sortBy_length. exact Hi. }
    exists v. split; [exact Hv |].
    eapply sortBy_elem, list_elem_of_lookup. eauto.
  - unfold calculatePercentile. rewrite sortBy_length.
    assert (Hx : (Fin 100 / Fin 100) * ofNat (length data) = ofNat (length data)).
    { unfold ofNat, ofZ. change (Fin 100 / Fin 100) with (Fin 1).
      unfold nmul, fin. f_equal.
      rewrite <- (Qred_inject_Z (Z.of_nat (length data))) at 2.
      apply Qred_complete. ring. }
    rewrite Hx. unfold ofNat, ofZ. cbn [Math_floor]. rewrite Qfloor_Z.
    unfold ofZ. rewrite arrayIndex_int by lia. rewrite Nat2Z.id.
    apply lookup_ge_None. rewrite sortBy_length. lia.
Qed.

(** ** Parallel lines *)

Lemma addToGroups_perm (line : HoughLine) (groups : list (list HoughLine)) :
  concat (addToGroups line groups) ≡ₚ line :: concat groups.
Proof.
  induction groups as [| group groups IH]; cbn [addToGroups concat].
  - reflexivity.
  - destruct (Math_abs _ <? Fin 0.1); cbn [concat].
    + rewrite <- app_assoc. cbn [app].
      symmetry. apply Permutation_middle.
    + rewrite IH. symmetry. apply Permutation_middle.
Qed.

Lemma addToGroups_nonempty (line : HoughLine) (groups : list (list HoughLine)) :
  Forall (fun g => g <> []) groups ->
  Forall (fun g => g <> []) (addToGroups line groups)
  /\ addToGroups line groups <> [].
Proof.
  induction groups as [| group groups IH]; intros Hall; cbn [addToGroups].
  - split; [repeat constructor; discriminate | discriminate].
  - apply Forall_cons in Hall as [Hg Hall].
    destruct (Math_abs _ <? Fin 0.1).
    + split; [| discriminate]. constructor; [| exact Hall].
      destruct group; discriminate.
    + split; [| discriminate]. constructor; [exact Hg | apply IH, Hall].
Qed.

Lemma grouping_nonempty (lines : list HoughLine) (groups : list (list HoughLine)) :
  Forall (fun g => g <> []) groups -> groups <> [] ->
  fold_left (fun groups line => addToGroups line groups) lines groups <> [].
Proof.
  revert groups. induction lines as [| l lines IH]; intros gs Hall Hne;
    cbn [fold_left]; [exact Hne |].
  destruct (addToGroups_nonempty l gs Hall) as [Hall' Hne'].
  apply IH; assumption.
Qed.

Lemma grouping_spec (lines : list HoughLine) (groups : list (list HoughLine)) :
  Forall (fun g => g <> []) groups ->
  let groups' := fold_left (fun groups line => addToGroups line groups) lines groups in
  concat groups' ≡ₚ lines ++ concat groups
  /\ Forall (fun g => g <> []) groups'
  /\ (lines <> [] -> groups' <> []).
Proof.
  revert groups. induction lines as [| line lines IH]; intros groups Hall; cbn [fold_left].
  - split; [reflexivity |]. split; [exact Hall | congruence].
  - destruct (addToGroups_nonempty line groups Hall) as [Hall' Hne].
    destruct (IH _ Hall') as (Hp & Hf & _).
    split; [| split; [exact Hf |]].
    + cbv zeta in Hp. rewrite Hp, addToGroups_perm. cbn [app].
      symmetry. apply Permutation_middle.
    + intros _. apply grouping_nonempty; assumption.
Qed.

Lemma largest_spec (groups : list (list HoughLine)) (a : list HoughLine) :
  let r := fold_left (fun a b => if Nat.ltb (length b) (length a) then a else b)
             groups a in
  (r = a \/ r ∈ groups)
  /\ (length a <= length r)%nat
  /\ forall g, g ∈ groups -> (length g <= length r)%nat.
Proof.
  cbv zeta. revert a. induction groups as [| b groups IH]; intros a; cbn [fold_left].
  - split; [left; reflexivity |]. split; [lia |]. intros g Hg. inversion Hg.
  - destruct (IH (if Nat.ltb (length b) (length a) then a else b)) as (Hr & Hl & Hmax).
    destruct (Nat.ltb_spec (length b) (length a)) as [Hlt | Hge].
    + split; [destruct Hr as [Hr | Hr]; [left; exact Hr | right; apply elem_of_cons; auto] |].
      split; [exact Hl |].
      intros g Hg. apply elem_of_cons in Hg as [-> | Hg]; [lia | apply Hmax, Hg].
    + split; [right; apply elem_of_cons; destruct Hr as [Hr | Hr]; auto |].
      split; [lia |].
      intros g Hg. apply elem_of_cons in Hg as [-> | Hg]; [lia | apply Hmax, Hg].
Qed.

Lemma elem_of_concat (x : HoughLine) (g : list HoughLine) (groups : list (list HoughLine)) :
  g ∈ groups -> x ∈ g -> x ∈ concat groups.
Proof.
  intros Hg Hx. apply list_elem_of_In, in_concat. exists g.
  split; apply list_elem_of_In; assumption.
Qed.

Lemma length_in_concat (g : list HoughLine) (groups : list (list HoughLine)) :
  g ∈ groups -> (length g <= length (concat groups))%nat.
Proof.
  induction groups as [| b groups IH]; intros Hg; [inversion Hg |].
  cbn [concat]. rewrite length_app.
  apply elem_of_cons in Hg as [-> | Hg]; [lia | apply IH in Hg; lia].
Qed.

(** X22. [findParallelLines] returns a group of the given lines: every
    line it returns is one of them, it returns no more lines than it was
    given, and it returns at least one line when it is given any. *)
Theorem findParallelLines_group (lines : list HoughLine) :
  (forall line, line ∈ findParallelLines lines -> line ∈ lines)
  /\ (length (findParallelLines lines) <= length lines)%nat
  /\ (lines <> [] -> findParallelLines lines <> []).
Proof.
  unfold findParallelLines.
  destruct (grouping_spec lines [] (List.Forall_nil _)) as (Hp & Hall & Hne).
  cbv zeta in Hp, Hall, Hne. cbn [concat] in Hp. rewrite app_nil_r in Hp.
  set (groups := fold_left (fun groups line => addToGroups line groups) lines []) in *.
  destruct (largest_spec groups []) as (Hr & _ & Hmax). cbv zeta in Hr, Hmax.
  set (r := fold_left _ groups []) in *.
  split; [| split].
  - intros line Hl. destruct Hr as [Hr | Hr]; [rewrite Hr in Hl; inversion Hl |].
    rewrite <- Hp. eapply elem_of_concat; eassumption.
  - destruct Hr as [-> | Hr]; [cbn [length]; lia |].
    rewrite <- (Permutation_length Hp). apply length_in_concat, Hr.
  - intros Hlines Hempty. specialize (Hne Hlines).
    destruct groups as [| g gs]; [congruence |].
    apply Forall_cons in Hall as [Hg _].
    specialize (Hmax g). rewrite Hempty in Hmax. cbn [length] in Hmax.
    destruct g; [congruence |]. cbn [length] in Hmax.
    assert (S (length g) <= 0)%nat by (apply Hmax, elem_of_cons; auto). lia.
Qed.

(** ** Grid detection *)

(** X23. [detectGrid] reports a detection exactly when the corner
    detector finds at least 16 corners, and then its reference points are
    those corners, rearranged. *)
Theorem detectGrid_detected_iff (imageData : ImageData) :
  let corners :=
    harrisCornerDetection
      (toGrayscale (data imageData) (width imageData) (height imageData))
      (width imageData) (height imageData) in
  (detected (detectGrid imageData) = true <-> (16 <= length corners)%nat)
  /\ (detected (detectGrid imageData) = true ->
      referencePoints (detectGrid imageData) ≡ₚ corners).
Proof.
  intros corners. unfold detectGrid. fold corners.
  change (grid_minCells * 4)%nat with 16%nat.
  assert (Hlen : length (findGridPattern corners)
                 = if Nat.ltb (length corners) 4 then 0%nat else length corners).
  { unfold findGridPattern. destruct (Nat.ltb (length corners) 4);
      [reflexivity | apply sortBy_length]. }
  destruct (Nat.ltb_spec (length (findGridPattern corners)) 16) as [Hlt | Hge];
    cbn [detected referencePoints createFailedCalibration].
  - split; [| discriminate]. split; [discriminate |]. intros H.
    rewrite Hlen in Hlt. destruct (Nat.ltb_spec (length corners) 4); lia.
  - rewrite Hlen in Hge.
    destruct (Nat.ltb_spec (length corners) 4) as [H4 | H4]; [lia |].
    split; [split; [intros _; exact Hge | reflexivity] |].
    intros _. unfold findGridPattern.
    destruct (Nat.ltb_spec (length corners) 4); [lia |]. apply sortBy_perm.
Qed.

(** ** The first progress entry *)

Lemma earlier_transitive : Transitive earlier.
Proof. intros a b c. unfold earlier. lia. Qed.

(** X24. For a non-empty list of assessments, the first progress entry
    is that of an earliest assessment: it carries its date and its area, has
    healing rate 0 and no projected healing date; when the area is finite
    its area change and its percentage are 0, and when the area is not
    finite the area change is NaN. *)
Theorem first_progress_entry (assessments : list WoundAssessment) :
  assessments <> [] ->
  exists a e,
    a ∈ assessments
    /\ (forall b, b ∈ assessments -> (capturedAt a <= capturedAt b)%Z)
    /\ calculateHealingProgress assessments !! 0%nat = Some e
    /\ date e = capturedAt a
    /\ area e = m_area (measurement a)
    /\ healingRate e = Fin 0
    /\ projectedHealingDate e = None
    /\ ((exists q, area e = Fin q) ->
        areaChange e = Fin 0 /\ areaChangePercent e = Fin 0)
    /\ ((forall q, area e <> Fin q) -> areaChange e = NaN).
Proof.
  intros Hne. unfold calculateHealingProgress.
  destruct assessments as [| a0 l]; [congruence |].
  change (Nat.eqb (length (a0 :: l)) 0) with false. cbv iota zeta.
  pose proof (sortBy_by_date (a0 :: l)) as Hsorted.
  pose proof (sortBy_perm (fun a b => ofZ (capturedAt a) - ofZ (capturedAt b)) (a0 :: l))
    as Hperm.
  set (sorted := sortBy _ (a0 :: l)) in *.
  destruct sorted as [| c rest] eqn:Hs.
  { apply Permutation_nil_l in Hperm. discriminate. }
  exists c, (progressEntry (c :: rest) 0).
  split; [rewrite <- Hperm; apply elem_of_cons; auto |].
  split.
  { intros b Hb. rewrite <- Hperm in Hb.
    apply (Sorted_StronglySorted earlier_transitive) in Hsorted.
    apply StronglySorted_inv in Hsorted as [_ Hall].
    apply elem_of_cons in Hb as [-> | Hb]; [lia |].
    rewrite Forall_forall in Hall. exact (Hall b Hb). }
  do 5 (split; [reflexivity |]).
  unfold progressEntry.
  cbn [Nat.ltb Nat.leb area areaChange areaChangePercent lookup list_lookup].
  split.
  - intros [q Hq]. rewrite Hq.
    assert (Hz : Fin q - Fin q = Fin 0).
    { rewrite (nsub_fin q q 0) by ring. reflexivity. }
    rewrite Hz. split; [reflexivity |].
    destruct (Fin q >? Fin 0) eqn:Hpos; [| reflexivity].
    rewrite (ndiv_zero_pos _ Hpos). reflexivity.
  - intros Hnot. destruct (m_area (measurement c)) as [| [|] | q]; try reflexivity.
    exfalso. apply (Hnot q). reflexivity.
Qed.

(** ** Shape of the convex hull *)

Lemma popWhile_length (hull : list Point) (p : Point) :
  (length (popWhile hull p) <= length hull)%nat.
Proof.
  induction hull as [| top rest IH]; [reflexivity |].
  cbn [popWhile]. destruct rest as [| second rest']; [reflexivity |].
  destruct (crossProduct second top p <=? Fin 0); [| reflexivity].
  cbn [length] in *. lia.
Qed.

Lemma scan_length (rest hull : list Point) :
  (length (fold_left scanStep rest hull) <= length rest + length hull)%nat.
Proof.
  revert hull. induction rest as [| p rest IH]; intros hull; cbn [fold_left length].
  - lia.
  - etransitivity; [apply IH |]. unfold scanStep. cbn [length].
    pose proof (popWhile_length hull p). lia.
Qed.

(** X25. The hull [convexHull] returns for at least 3 points starts at
    a point that no input point is lower than (lower y, or equal y and lower
    x), consists of input points, has between 2 and as many points as the
    input, and no three consecutive points of it have a cross product
    [<= 0], the condition on which the scan pops. *)
Theorem convexHull_shape (points : list Point) :
  (3 <= length points)%nat ->
  let hull := convexHull points in
  (exists lowest, hull !! 0%nat = Some lowest
                  /\ forall q, q ∈ points -> lowerThan q lowest = false)
  /\ (forall q, q ∈ hull -> q ∈ points)
  /\ (2 <= length hull <= length points)%nat
  /\ goodStack (rev hull).
Proof.
  intros Hlen. cbv zeta. unfold convexHull.
  destruct (Nat.ltb_spec (length points) 3) as [| _]; [lia |].
  destruct (findLowest_spec points) as [Hlow Hmin]; [lia |].
  set (sorted := swapFirst points (findLowest points)).
  assert (Hslen : length sorted = length points) by apply swapFirst_length.
  assert (Hhead : sorted !!! 0%nat = points !!! findLowest points)
    by (apply swapFirst_head, Hlow).
  destruct (scan_spec (drop 2 sorted) [sorted !!! 1%nat; sorted !!! 0%nat])
    as (Hgood & Hlast & Helem & Hlen2).
  { discriminate. }
  { cbn. auto. }
  cbv zeta in Hgood, Hlast, Helem, Hlen2.
  set (stack := fold_left scanStep (drop 2 sorted) [sorted !!! 1%nat; sorted !!! 0%nat]) in *.
  split; [| split; [| split]].
  - exists (points !!! findLowest points). split; [| exact Hmin].
    cbn in Hlast. apply last_Some in Hlast as [l' Hl'].
    rewrite Hl', rev_app_distr, Hhead. reflexivity.
  - intros q Hq. apply list_elem_of_In, in_rev, list_elem_of_In in Hq.
    apply (swapFirst_elem points (findLowest points) q Hlow). fold sorted.
    apply Helem in Hq as [Hq | Hq].
    + apply list_elem_of_lookup in Hq as [i Hi]. rewrite lookup_drop in Hi.
      apply list_elem_of_lookup. eauto.
    + apply list_elem_of_lookup.
      apply elem_of_cons in Hq as [-> | Hq].
      * exists 1%nat. apply list_lookup_lookup_total_lt. lia.
      * apply elem_of_cons in Hq as [-> | Hq]; [| inversion Hq].
        exists 0%nat. apply list_lookup_lookup_total_lt. lia.
  - rewrite length_rev. split; [apply Hlen2; cbn; lia |].
    etransitivity; [apply scan_length |].
    rewrite length_drop, Hslen. cbn [length]. lia.
  - rewrite rev_involutive. exact Hgood.
Qed.

(** ** The circle that is detected *)

Lemma nle_trans (a b c : num) :
  (a <=? b) = true -> (b <=? c) = true -> (a <=? c) = true.
Proof. num_cases. Qed.

Lemma nle_not_ngt (a b : num) : (a <=? b) = true -> (a >? b) = false.
Proof. num_cases. Qed.

Lemma ngt_refl_le (a b : num) : (a >? b) = true -> (a <=? a) = true.
Proof. num_cases. Qed.

Lemma pick_above (a b : num) :
  (a <=? a) = true -> (b <=? b) = true ->
  let c := if a >? b then a else b in
  (a <=? c) = true /\ (b <=? c) = true.
Proof. intros Ha Hb. cbv zeta. destruct (a >? b) eqn:E; split; revert E Ha Hb; num_cases. Qed.

Lemma bestCircleOf_max (first : Circle) (others : list Circle) :
  Forall (fun c => (circularity c <=? circularity c) = true) (first :: others) ->
  forall c, c ∈ first :: others ->
    (circularity c <=? circularity (bestCircleOf first others)) = true.
Proof.
  unfold bestCircleOf. revert first.
  induction others as [| b others IH]; intros first Hall c Hc; cbn [fold_left].
  - apply elem_of_cons in Hc as [-> | Hc]; [| inversion Hc].
    apply Forall_cons in Hall as [H _]. exact H.
  - apply Forall_cons in Hall as [Hf Hall].
    pose proof Hall as Hall'. apply Forall_cons in Hall' as [Hb Ho].
    destruct (pick_above (circularity first) (circularity b) Hf Hb) as [H1 H2].
    cbv zeta in H1, H2.
    set (a' := if circularity first >? circularity b then first else b).
    assert (Ha' : circularity a'
                  = if circularity first >? circularity b
                    then circularity first else circularity b).
    { unfold a'. destruct (circularity first >? circularity b); reflexivity. }
    rewrite <- Ha' in H1, H2.
    assert (Hall2 : Forall (fun c => (circularity c <=? circularity c) = true)
                      (a' :: others)).
    { constructor; [| exact Ho].
      unfold a'. destruct (circularity first >? circularity b); assumption. }
    pose proof (IH a' Hall2 a' (proj2 (elem_of_cons _ _ _) (or_introl eq_refl))) as Hbest.
    apply elem_of_cons in Hc as [-> | Hc]; [eapply nle_trans; eassumption |].
    apply elem_of_cons in Hc as [-> | Hc]; [eapply nle_trans; eassumption |].
    apply IH; [exact Hall2 | apply elem_of_cons; auto].
Qed.

(** X26. [detectCircle] reports a detection exactly when some
    accumulator peak has a circularity above 0.7, and the confidence it then
    reports is above 0.7 and is the largest circularity among those peaks. *)
Theorem detectCircle_best (imageData : ImageData) :
  let peaks :=
    houghCirclePeaks
      (sobelEdgeDetection
         (toGrayscale (data imageData) (width imageData) (height imageData))
         (width imageData) (height imageData))
      (width imageData) (height imageData) in
  (detected (detectCircle imageData) = true
   <-> exists c, c ∈ peaks /\ (circularity c >? Fin 0.7) = true)
  /\ (detected (detectCircle imageData) = true ->
      (confidence (detectCircle imageData) >? Fin 0.7) = true
      /\ forall c, c ∈ peaks -> (circularity c >? Fin 0.7) = true ->
           (circularity c >? confidence (detectCircle imageData)) = false).
Proof.
  intros peaks. unfold detectCircle, houghCircleTransform. fold peaks.
  destruct (List.filter (fun c => circularity c >? Fin 0.7) peaks)
    as [| first others] eqn:Hf;
    cbn [detected confidence createFailedCalibration].
  - split; [| discriminate]. split; [discriminate |].
    intros (c & Hc & Hcirc). exfalso.
    assert (Hin : In c (List.filter (fun c => circularity c >? Fin 0.7) peaks)).
    { apply filter_In. split; [apply list_elem_of_In, Hc | exact Hcirc]. }
    rewrite Hf in Hin. destruct Hin.
  - assert (Hall : forall c, c ∈ first :: others ->
                     c ∈ peaks /\ (circularity c >? Fin 0.7) = true).
    { intros c Hc. rewrite <- Hf in Hc.
      apply list_elem_of_In, filter_In in Hc as [Hc Hcirc].
      split; [apply list_elem_of_In, Hc | exact Hcirc]. }
    assert (Hnan : Forall (fun c => (circularity c <=? circularity c) = true)
                     (first :: others)).
    { apply Forall_forall. intros c Hc. apply Hall in Hc as [_ Hc].
      eapply ngt_refl_le, Hc. }
    split.
    + split; [intros _ | reflexivity].
      exists first. apply Hall, elem_of_cons. auto.
    + intros _. split.
      * apply Hall, bestCircleOf_elem.
      * intros c Hc Hcirc. apply nle_not_ngt, bestCircleOf_max; [exact Hnan |].
        rewrite <- Hf. apply list_elem_of_In, filter_In.
        split; [apply list_elem_of_In, Hc | exact Hcirc].
Qed.

(** ** Lighting of a uniform image *)

Lemma brightnessAt_uniform (imageData : ImageData) (r g b : Byte.byte) (i : nat) :
  isUniform imageData r g b ->
  (i < width imageData * height imageData)%nat ->
  brightnessAt (data imageData) i = brightnessOf r g b.
Proof.
  intros Hu Hi. destruct (Hu i Hi) as (Hr & Hg & Hb).
  unfold brightnessAt, byteAt, brightnessOf. rewrite Hr, Hg, Hb. reflexivity.
Qed.

Lemma byte_range (b : Byte.byte) : (0 <= inject_Z (Z.of_N (Byte.to_N b)) <= 255)%Q.
Proof.
  pose proof (Byte.to_N_bounded b) as H.
  change 0%Q with (inject_Z 0). change 255%Q with (inject_Z 255).
  rewrite <- !Zle_Qle. lia.
Qed.

Lemma brightnessOf_range (r g b : Byte.byte) :
  exists z : Z, (0 <= z <= 255)%Z /\ brightnessOf r g b = Fin (inject_Z z).
Proof.
  unfold brightnessOf, ofZ.
  pose proof (byte_range r) as Hr. pose proof (byte_range g) as Hg.
  pose proof (byte_range b) as Hb.
  revert Hr Hg Hb.
  generalize (inject_Z (Z.of_N (Byte.to_N r))) (inject_Z (Z.of_N (Byte.to_N g)))
    (inject_Z (Z.of_N (Byte.to_N b))).
  intros x y z Hx Hy Hz. cbn [nmul nadd fin Math_round]. unfold fin, ofZ.
  eexists. split; [| reflexivity].
  split.
  - change 0%Z with (Qfloor 0). apply Qfloor_resp_le. rewrite !Qred_correct. lra.
  - match goal with
    | |- (Qfloor ?v <= 255)%Z =>
        pose proof (Qfloor_resp_le v (255 + (1 # 2))) as H
    end.
    change (Qfloor (255 + (1 # 2))) with 255%Z in H. apply H.
    rewrite !Qred_correct. lra.
Qed.

Lemma lightingStats_uniform (imageData : ImageData) (r g b : Byte.byte) :
  isUniform imageData r g b ->
  (0 < width imageData * height imageData)%nat ->
  minBrightness (lightingStats imageData) = brightnessOf r g b
  /\ maxBrightness (lightingStats imageData) = brightnessOf r g b.
Proof.
  intros Hu Hn. unfold lightingStats.
  destruct (brightnessOf_range r g b) as (z & [Hz0 Hz1] & Hz).
  assert (Hmin0 : Math_min (Fin 255) (Fin (inject_Z z)) = Fin (inject_Z z)).
  { unfold Math_min, ncompare. change 255%Q with (inject_Z 255).
    destruct (Qcompare_spec (inject_Z 255) (inject_Z z)) as [H | H | H];
      try reflexivity.
    - f_equal. unfold Qeq, inject_Z in H. cbn in H. unfold inject_Z. f_equal. lia.
    - rewrite <- Zlt_Qlt in H. lia. }
  assert (Hmax0 : Math_max (Fin 0) (Fin (inject_Z z)) = Fin (inject_Z z)).
  { unfold Math_max, ncompare. change 0%Q with (inject_Z 0).
    destruct (Qcompare_spec (inject_Z 0) (inject_Z z)) as [H | H | H];
      try reflexivity.
    - f_equal. unfold Qeq, inject_Z in H. cbn in H. unfold inject_Z. f_equal. lia.
    - rewrite <- Zlt_Qlt in H. lia. }
  assert (Hsame_min : Math_min (Fin (inject_Z z)) (Fin (inject_Z z)) = Fin (inject_Z z)).
  { unfold Math_min, ncompare.
    destruct (Qcompare_spec (inject_Z z) (inject_Z z)); try reflexivity; lra. }
  assert (Hsame_max : Math_max (Fin (inject_Z z)) (Fin (inject_Z z)) = Fin (inject_Z z)).
  { unfold Math_max, ncompare.
    destruct (Qcompare_spec (inject_Z z) (inject_Z z)); try reflexivity; lra. }
  unfold forRange. rewrite Nat.sub_0_r.
  destruct (width imageData * height imageData)%nat as [| n] eqn:Hwh; [lia |].
  cbn [seq fold_left].
  rewrite (brightnessAt_uniform imageData r g b 0 Hu) by lia.
  cbn [minBrightness maxBrightness]. rewrite Hz, Hmin0, Hmax0. rewrite <- Hz.
  replace n with (S n - 1)%nat by lia.
  apply (forRange_invariant
           (fun s => minBrightness s = brightnessOf r g b
                     /\ maxBrightness s = brightnessOf r g b) 1 (S n)).
  - cbn [minBrightness maxBrightness]. split; reflexivity.
  - intros i s Hi [Hmin Hmax]. cbn [minBrightness maxBrightness].
    rewrite (brightnessAt_uniform imageData r g b i Hu) by lia.
    rewrite Hmin, Hmax, Hz. split; assumption.
Qed.

Lemma notNegative_abs (x : num) : notNegative (Math_abs x).
Proof.
  destruct x as [| s | a]; [left | right; left | right; right]; try reflexivity.
  eexists. split; [reflexivity |]. rewrite Qred_correct. apply Qabs_nonneg.
Qed.

Lemma notNegative_scale (x : num) (d : Q) :
  (0 < d)%Q -> notNegative x -> notNegative (x * Fin d).
Proof.
  intros Hd [-> | [-> | (a & -> & Ha)]].
  - left. reflexivity.
  - right; left. unfold nmul, Qeqb, Qltb.
    destruct (Qcompare_spec d 0); try lra. reflexivity.
  - right; right. eexists. split; [reflexivity |]. rewrite Qred_correct. nra.
Qed.

Lemma low_score (penalty : num) (n : nat) :
  notNegative penalty -> (1 <= n)%nat ->
  let score :=
    Math_max (Fin 0) (Math_min (Fin 1) (Fin 1 - penalty - Fin 0.3 - ofNat n * Fin 0.15)) in
  score = NaN \/ exists q, score = Fin q /\ (q <= 0.55)%Q.
Proof.
  intros Hp Hn. cbv zeta.
  assert (Hq : (1 <= inject_Z (Z.of_nat n))%Q).
  { change 1%Q with (inject_Z 1). rewrite <- Zle_Qle. lia. }
  unfold ofNat, ofZ. revert Hq. generalize (inject_Z (Z.of_nat n)). intros k Hk.
  destruct Hp as [-> | [-> | (a & -> & Ha)]].
  - left. reflexivity.
  - right. exists 0%Q. split; [reflexivity | lra].
  - right.
    assert (Hraw : exists x, Fin 1 - Fin a - Fin 0.3 - Fin k * Fin 0.15 = Fin x
                             /\ (x == 1 - a - 0.3 - k * 0.15)%Q).
    { eexists. split; [reflexivity |]. rewrite !Qred_correct. ring. }
    destruct Hraw as (x & -> & Hx).
    unfold Math_min, Math_max, ncompare.
    destruct (Qcompare_spec 1 x);
      match goal with
      | |- context [Qcompare 0 ?b] => destruct (Qcompare_spec 0 b)
      end; eexists; (split; [reflexivity | lra]).
Qed.

(** X27. An image whose pixels all have the same colour has the low
    contrast issue, and fails the lighting check whenever the minimum
    lighting score is above 0.55, as the default 0.6 is. *)
Theorem uniform_image_fails_lighting (imageData : ImageData) (r g b : Byte.byte) :
  isUniform imageData r g b ->
  (0 < width imageData * height imageData)%nat ->
  (minLightingScore thresholds >? Fin 0.55) = true ->
  "Low contrast - poor lighting"%string ∈ issues (checkLighting imageData)
  /\ lighting_passed (checkLighting imageData) = false.
Proof.
  intros Hu Hn Hthr.
  destruct (lightingStats_uniform imageData r g b Hu Hn) as [Hmin Hmax].
  destruct (brightnessOf_range r g b) as (z & _ & Hz).
  assert (Hrange : maxBrightness (lightingStats imageData)
                   - minBrightness (lightingStats imageData) = Fin 0).
  { rewrite Hmin, Hmax, Hz. rewrite (nsub_fin _ _ 0) by ring. reflexivity. }
  assert (Hissue : "Low contrast - poor lighting"%string ∈ lightingIssues imageData
                   /\ (1 <= length (lightingIssues imageData))%nat).
  { unfold lightingIssues. cbv zeta. rewrite Hrange.
    change (Fin 0 <? Fin 100) with true. cbv iota.
    split.
    - apply elem_of_app. right. apply elem_of_app. right.
      apply elem_of_app. left. apply elem_of_cons. auto.
    - rewrite !length_app. cbn [length]. lia. }
  destruct Hissue as [Hin Hlen].
  unfold checkLighting. cbv zeta. cbn [issues lighting_passed].
  split; [exact Hin |].
  rewrite Hrange.
  change (Math_max (Fin 0) ((Fin 150 - Fin 0) / Fin 150) * Fin 0.3) with (Fin 0.3).
  destruct (low_score (Math_abs (avgBrightness imageData - Fin 128) / Fin 256 * Fin 0.3)
              (length (lightingIssues imageData))) as [Hs | (q & Hs & Hq)].
  - apply notNegative_scale; [reflexivity |].
    apply notNegative_div; [apply notNegative_abs |].
    right; right. exists 256%Q. split; [reflexivity | lra].
  - exact Hlen.
  - cbv zeta in Hs. rewrite Hs, nge_nan. reflexivity.
  - cbv zeta in Hs. rewrite Hs.
    assert (Hf : (Fin q >=? minLightingScore thresholds) = false).
    { revert Hthr. generalize (minLightingScore thresholds). intros t.
      destruct t as [| [|] | t]; try discriminate; try reflexivity.
      unfold ngt, nge, nlt, nle, ncompare.
      destruct (Qcompare_spec 0.55 t); try discriminate. intros _.
      destruct (Qcompare_spec t q); try reflexivity; lra. }
    rewrite Hf. reflexivity.
Qed.

(** ** The average healing rate *)

Lemma round_notNegative (x : num) (decimals : nat) :
  notNegative x -> notNegative (round x decimals).
Proof.
  intros [-> | [-> | (a & -> & Ha)]].
  - left. reflexivity.
  - right; left. unfold round.
    destruct (Math_pow_ten decimals) as (P & -> & HP).
    pose proof (pow_ten_pos decimals) as Hpos. rewrite <- HP in Hpos.
    unfold nmul, ndiv, Qeqb, Qltb.
    destruct (Qcompare_spec P 0); try lra. reflexivity.
  - right; right. apply round_nonneg, Ha.
Qed.

Lemma positive_notNegative (x : num) : (x >? Fin 0) = true -> notNegative x.
Proof.
  destruct x as [| [|] | a]; try discriminate; intros H.
  - right; left. reflexivity.
  - right; right. exists a. split; [reflexivity |].
    revert H. unfold ngt, nlt, ncompare.
    destruct (Qcompare_spec 0 a); try discriminate. lra.
Qed.

Lemma sumNums_notNegative (l : list num) :
  Forall notNegative l -> notNegative (sumNums l).
Proof.
  unfold sumNums. intros Hall.
  assert (H : forall x, notNegative x ->
              notNegative (fold_left (fun a b => a + b) l x)).
  { induction Hall as [| v l Hv _ IH]; intros x Hx; cbn [fold_left]; [exact Hx |].
    apply IH, notNegative_add; assumption. }
  apply H. right; right. exists 0%Q. split; [reflexivity | lra].
Qed.

Lemma ofNat_notNegative (n : nat) : notNegative (ofNat n).
Proof.
  right; right. eexists. split; [reflexivity |].
  change 0%Q with (inject_Z 0). rewrite <- Zle_Qle. lia.
Qed.

(** X28. The average healing rate and the healing velocity that
    [calculateWoundAnalytics] reports are never negative, also for a wound
    that grows: only the positive rates are averaged. *)
Theorem healing_rate_never_negative (id : string)
    (assessments : list WoundAssessment) (onset now : Z) :
  let analytics := calculateWoundAnalytics id assessments onset now in
  notNegative (averageHealingRate analytics)
  /\ notNegative (healingVelocity analytics).
Proof.
  cbv zeta. unfold calculateWoundAnalytics.
  destruct (Nat.eqb (length (calculateHealingProgress assessments)) 0).
  - cbn [averageHealingRate healingVelocity].
    split; right; right; exists 0%Q; (split; [reflexivity | lra]).
  - cbn [averageHealingRate healingVelocity].
    set (rates := map healingRate
                    (List.filter (fun p => healingRate p >? Fin 0)
                       (calculateHealingProgress assessments))).
    assert (Hrates : Forall notNegative rates).
    { apply Forall_forall. intros x Hx. unfold rates in Hx.
      apply list_elem_of_In, in_map_iff in Hx as (p & <- & Hp).
      apply filter_In in Hp as [_ Hp]. apply positive_notNegative, Hp. }
    assert (Havg : notNegative
                     (if Nat.ltb 0 (length rates)
                      then sumNums rates / ofNat (length rates) else Fin 0)).
    { destruct (Nat.ltb 0 (length rates)).
      - apply notNegative_div; [apply sumNums_notNegative, Hrates |].
        apply ofNat_notNegative.
      - right; right. exists 0%Q. split; [reflexivity | lra]. }
    split; apply round_notNegative; [exact Havg |].
    apply notNegative_scale; [reflexivity | exact Havg].
Qed.

(** ** Sign of the calibration scale *)

Lemma Sorted_lookup_lt (l : list Z) (i : nat) (a b : Z) :
  Sorted Z.lt l -> l !! i = Some a -> l !! S i = Some b -> (a < b)%Z.
Proof.
  intros Hs. revert i. induction Hs as [| x l Hs IH Hhd]; intros i Ha Hb.
  - discriminate.
  - destruct i as [| i].
    + cbn in Ha, Hb. injection Ha as <-. destruct Hhd as [| y l' Hxy]; [discriminate |].
      cbn in Hb. injection Hb as <-. exact Hxy.
    + cbn in Ha, Hb. eapply IH; eassumption.
Qed.

Lemma sum_positive (l : list num) (a : Q) :
  Forall positiveFin l ->
  exists t : Q,
    fold_left (fun a b => a + b) l (Fin a) = Fin t
    /\ (a <= t)%Q /\ (l <> [] -> (a < t)%Q).
Proof.
  intros Hall. revert a.
  induction Hall as [| x l (r & -> & Hr) _ IH]; intros a; cbn [fold_left].
  - exists a. split; [reflexivity |]. split; [lra | congruence].
  - destruct (IH (Qred (a + r))) as (t & Ht & Hle & _).
    exists t. split; [exact Ht |]. rewrite Qred_correct in Hle.
    split; [lra | intros _; lra].
Qed.

Lemma ndiv_positive (a b : Q) :
  (0 < a)%Q -> (0 < b)%Q -> positiveFin (Fin a / Fin b).
Proof.
  intros Ha Hb. unfold ndiv, fin, Qeqb.
  destruct (Qcompare_spec b 0); try lra.
  eexists. split; [reflexivity |]. rewrite Qred_correct.
  apply Qlt_shift_div_l; lra.
Qed.

Lemma positiveFin_gt (x : num) : positiveFin x -> (x >? Fin 0) = true.
Proof.
  intros (r & -> & Hr). unfold ngt, nlt, ncompare.
  destruct (Qcompare_spec 0 r); try reflexivity; lra.
Qed.

Lemma tickAt_coordinates (c s : Q) (width height profileLength : nat) (i : Z) :
  exists x y : Q,
    tickAt (Fin c) (Fin s) width height profileLength i = mkPoint (Fin x) (Fin y)
    /\ (x == (inject_Z i - inject_Z (Z.of_nat profileLength) / 2) * c
             + inject_Z (Z.of_nat width) / 2)%Q
    /\ (y == (inject_Z i - inject_Z (Z.of_nat profileLength) / 2) * s
             + inject_Z (Z.of_nat height) / 2)%Q.
Proof.
  unfold tickAt, ofNat, ofZ. eexists. eexists.
  split; [reflexivity |]. split; rewrite !Qred_correct; reflexivity.
Qed.

Lemma onCircle_zero (edgePoints : list Point) (cx cy radius tolerance : num) :
  (forall dist, (Math_abs (dist - radius) <? tolerance) = false) ->
  fold_left
    (fun onCircle point =>
       if Math_abs (Math_sqrt (Math_pow (px point - cx) 2
                               + Math_pow (py point - cy) 2) - radius)
          <? tolerance
       then onCircle + Fin 1 else onCircle)
    edgePoints (Fin 0) = Fin 0.
Proof.
  intros Htol. induction edgePoints as [| p l IH]; cbn [fold_left]; [reflexivity |].
  rewrite Htol. exact IH.
Qed.

Lemma abs_not_below (x : num) (t : Q) :
  (t <= 0)%Q -> (Math_abs x <? Fin t) = false.
Proof.
  intros Ht. destruct x as [| s | a]; try reflexivity.
  unfold Math_abs, fin, nlt, ncompare.
  pose proof (Qabs_nonneg a) as Ha. rewrite <- (Qred_correct (Qabs a)) in Ha.
  destruct (Qcompare_spec (Qred (Qabs a)) t); try reflexivity; lra.
Qed.

Lemma circularity_positive_radius (edgePoints : list Point) (cx cy radius : num) :
  (calculateCircularity edgePoints cx cy radius >? Fin 0.7) = true ->
  positiveFin radius.
Proof.
  unfold calculateCircularity.
  destruct radius as [| s | r].
  - rewrite onCircle_zero; [discriminate |].
    intros dist. destruct dist as [| [|] |]; reflexivity.
  - rewrite onCircle_zero.
    + destruct s; discriminate.
    + intros dist. destruct s, dist as [| [|] |]; reflexivity.
  - intros H. exists r. split; [reflexivity |].
    destruct (Qlt_le_dec 0 r) as [Hpos | Hle]; [exact Hpos |]. exfalso.
    assert (Htol : Fin r * Fin 0.1 = Fin (Qred (r * 0.1))) by reflexivity.
    rewrite Htol in H.
    rewrite onCircle_zero in H.
    + assert (Hexp : exists e, Fin 2 * Math_PI * Fin r = Fin e
                               /\ (e == 2 * (884279719003555 # 281474976710656) * r)%Q).
      { eexists. split; [reflexivity |]. rewrite !Qred_correct. reflexivity. }
      destruct Hexp as (e & He & Hev). rewrite He in H.
      assert (He0 : (e <= 0)%Q).
      { rewrite Hev. assert (0 < 884279719003555 # 281474976710656)%Q by reflexivity.
        nra. }
      revert H. unfold ndiv, Qeqb, Qltb.
      destruct (Qcompare_spec e 0); try lra; [discriminate |].
      change (Qred (0 / e)) with 0%Q. discriminate.
    + intros dist. apply abs_not_below. rewrite Qred_correct. lra.
Qed.

Lemma detectCalibration_cases (imageData : ImageData) :
  detectCalibration imageData = detectRuler imageData
  \/ detectCalibration imageData = detectCircle imageData
  \/ detectCalibration imageData = detectGrid imageData.
Proof.
  unfold detectCalibration. cbn [fold_left].
  destruct (_ && _); [auto |]. destruct (_ && _); [auto |].
  destruct (_ && _); [auto |].
  destruct (_ >? confidence (detectCircle imageData));
    destruct (_ >? confidence (detectGrid imageData)); auto.
Qed.

Section CalibrationScale.

(** What the properties of the scale use of [Math.sqrt]: the root of zero
    is zero and the root of a positive number is positive. *)
Hypothesis Math_sqrt_zero : forall q : Q, (q == 0)%Q -> Math_sqrt (Fin q) = Fin 0.
Hypothesis Math_sqrt_pos :
  forall q : Q, (0 < q)%Q -> exists r : Q, Math_sqrt (Fin q) = Fin r /\ (0 < r)%Q.

(** What they use of [detectTickMarks]: its ticks are the points [tickAt]
    of the local minima of the profile, which its loop visits in increasing
    order, along a direction [(cos, sin)] that is finite and not zero. *)
Hypothesis detectTickMarks_on_line :
  forall grayscale width height lines,
    exists (cos sin : Q) (profileLength : nat) (minima : list Z),
      ~ (cos == 0 /\ sin == 0)%Q
      /\ Sorted Z.lt minima
      /\ detectTickMarks grayscale width height lines
         = map (tickAt (Fin cos) (Fin sin) width height profileLength) minima.

(** What they use of the circle accumulator: the circularity of each peak
    is [calculateCircularity] of the edge points at its centre and radius. *)
Hypothesis houghCirclePeaks_circularity :
  forall edges width height c,
    c ∈ houghCirclePeaks edges width height ->
    exists edgePoints,
      circularity c
      = calculateCircularity edgePoints (centerX c) (centerY c) (radius c).

Lemma tick_spacing_positive (c s : Q) (width height profileLength : nat) (i j : Z) :
  ~ (c == 0 /\ s == 0)%Q -> (i < j)%Z ->
  let p := tickAt (Fin c) (Fin s) width height profileLength i in
  let q := tickAt (Fin c) (Fin s) width height profileLength j in
  positiveFin (Math_sqrt ((px q - px p) * (px q - px p) + (py q - py p) * (py q - py p))).
Proof.
  intros Hdir Hij. cbv zeta.
  destruct (tickAt_coordinates c s width height profileLength i) as (x1 & y1 & -> & Hx1 & Hy1).
  destruct (tickAt_coordinates c s width height profileLength j) as (x2 & y2 & -> & Hx2 & Hy2).
  cbn [px py].
  destruct (squaredDistance x1 y1 x2 y2) as (d & -> & Hd).
  apply Math_sqrt_pos.
  assert (Hk : (0 < inject_Z j - inject_Z i)%Q).
  { rewrite Zlt_Qlt in Hij. lra. }
  assert (Hdx : (x2 - x1 == (inject_Z j - inject_Z i) * c)%Q) by (rewrite Hx1, Hx2; ring).
  assert (Hdy : (y2 - y1 == (inject_Z j - inject_Z i) * s)%Q) by (rewrite Hy1, Hy2; ring).
  rewrite Hd, Hdx, Hdy. revert Hk. generalize (inject_Z j - inject_Z i)%Q. intros k Hk.
  assert (Hcs : (0 < c * c + s * s)%Q).
  { destruct (Qeq_dec c 0) as [Hc | Hc].
    - assert (Hs : ~ (s == 0)%Q) by (intros Hs; apply Hdir; split; assumption).
      pose proof (Qsquare_pos s Hs). rewrite Hc. lra.
    - pose proof (Qsquare_pos c Hc). assert (0 <= s * s)%Q by nra. lra. }
  assert (Hkk : (0 < k * k)%Q) by nra.
  assert (Heq : (k * c * (k * c) + k * s * (k * s) == k * k * (c * c + s * s))%Q) by ring.
  rewrite Heq. apply Qmult_lt_0_compat; assumption.
Qed.

Lemma tick_spacings_positive (c s : Q) (width height profileLength : nat)
    (minima : list Z) :
  ~ (c == 0 /\ s == 0)%Q -> Sorted Z.lt minima ->
  Forall positiveFin
    (spacingsOf (map (tickAt (Fin c) (Fin s) width height profileLength) minima)).
Proof.
  intros Hdir Hsorted. unfold spacingsOf. rewrite length_map.
  apply Forall_forall. intros x Hx.
  apply list_elem_of_In, in_map_iff in Hx as (i & <- & Hi).
  apply in_seq in Hi.
  destruct (lookup_lt_is_Some_2 minima (i - 1)) as [a Ha]; [lia |].
  destruct (lookup_lt_is_Some_2 minima i) as [b Hb]; [lia |].
  assert (Hab : (a < b)%Z).
  { apply (Sorted_lookup_lt minima (i - 1) a b Hsorted Ha).
    replace (S (i - 1)) with i by lia. exact Hb. }
  assert (Hla : map (tickAt (Fin c) (Fin s) width height profileLength) minima
                  !!! (i - 1)%nat
                = tickAt (Fin c) (Fin s) width height profileLength a).
  { apply list_lookup_total_correct. change (map ?f ?l) with (f <$> l).
    rewrite list_lookup_fmap, Ha. reflexivity. }
  assert (Hlb : map (tickAt (Fin c) (Fin s) width height profileLength) minima !!! i
                = tickAt (Fin c) (Fin s) width height profileLength b).
  { apply list_lookup_total_correct. change (map ?f ?l) with (f <$> l).
    rewrite list_lookup_fmap, Hb. reflexivity. }
  rewrite Hla, Hlb.
  apply (tick_spacing_positive c s width height profileLength a b Hdir Hab).
Qed.

Lemma detectRuler_scale (imageData : ImageData) :
  detected (detectRuler imageData) = true ->
  positiveFin (pixelsPerCm (detectRuler imageData)).
Proof.
  unfold detectRuler.
  destruct (Nat.ltb (length (findParallelLines _)) 2); [discriminate |].
  match goal with
  | |- context [detectTickMarks ?g ?w ?h ?l] =>
      destruct (detectTickMarks_on_line g w h l)
        as (c & s & profileLength & minima & Hdir & Hsorted & ->)
  end.
  destruct (Nat.ltb_spec (length (map (tickAt (Fin c) (Fin s) (width imageData)
                                         (height imageData) profileLength) minima))
              ruler_minTickCount) as [| Hlen]; [discriminate |].
  intros _. cbn [pixelsPerCm]. unfold calculateAverageSpacing, ruler_tickSpacingCm.
  unfold ruler_minTickCount in Hlen.
  set (ticks := map (tickAt (Fin c) (Fin s) (width imageData) (height imageData)
                       profileLength) minima) in *.
  destruct (Nat.ltb_spec (length ticks) 2); [lia |].
  pose proof (tick_spacings_positive c s (width imageData) (height imageData)
                profileLength minima Hdir Hsorted) as Hpos.
  fold ticks in Hpos.
  destruct (sum_positive (spacingsOf ticks) 0 Hpos) as (t & Ht & _ & Hlt).
  unfold sumNums. rewrite Ht.
  assert (Ht0 : (0 < t)%Q).
  { apply Hlt. unfold spacingsOf.
    destruct (length ticks) as [| [| n]]; [lia | lia |]. discriminate. }
  assert (Hn : (0 < inject_Z (Z.of_nat (length ticks - 1)))%Q).
  { change 0%Q with (inject_Z 0). rewrite <- Zlt_Qlt. lia. }
  unfold ofNat, ofZ.
  destruct (ndiv_positive t _ Ht0 Hn) as (a & -> & Ha).
  apply ndiv_positive; [exact Ha | reflexivity].
Qed.

Lemma detectCircle_scale (imageData : ImageData) :
  detected (detectCircle imageData) = true ->
  positiveFin (pixelsPerCm (detectCircle imageData)).
Proof.
  unfold detectCircle.
  destruct (houghCircleTransform _ _ _) as [| first others] eqn:Hc; [discriminate |].
  intros _. cbn [pixelsPerCm].
  pose proof (bestCircleOf_elem first others) as Hin.
  rewrite <- Hc in Hin. unfold houghCircleTransform in Hin.
  apply list_elem_of_In, filter_In in Hin as [Hin Hcirc].
  apply list_elem_of_In in Hin.
  destruct (houghCirclePeaks_circularity _ _ _ _ Hin) as (edgePoints & He).
  rewrite He in Hcirc.
  destruct (circularity_positive_radius _ _ _ _ Hcirc) as (r & -> & Hr).
  unfold circle_diameterCm.
  assert (Hd : Fin r * Fin 2 = Fin (Qred (r * 2))) by reflexivity.
  rewrite Hd. apply ndiv_positive; [rewrite Qred_correct; lra | reflexivity].
Qed.


End CalibrationScale.

End Engines.

(** * Concrete instances *)

(** ** The reference square root *)

Lemma sqrtRef_zero (q : Q) : (q == 0)%Q -> sqrtRef (Fin q) = Fin 0.
Proof.
  intros H. unfold sqrtRef.
  assert (Hneg : Qltb q 0 = false) by (apply Qltb_false; lra).
  rewrite Hneg. f_equal. unfold sqrtQ.
  rewrite (Qred_complete q 0 H). reflexivity.
Qed.

Lemma sqrtRef_pos (q : Q) :
  (0 < q)%Q -> exists r : Q, sqrtRef (Fin q) = Fin r /\ (0 < r)%Q.
Proof.
  intros H. unfold sqrtRef.
  assert (Hneg : Qltb q 0 = false) by (apply Qltb_false; lra).
  rewrite Hneg. eexists. split; [reflexivity |].
  unfold sqrtQ. rewrite Qred_correct.
  assert (Hnum : (0 < Qnum (Qred q))%Z).
  { pose proof (Qred_correct q) as Hq.
    assert (Hpos : (0 < Qred q)%Q) by lra.
    unfold Qlt in Hpos. simpl in Hpos. lia. }
  unfold Qlt. cbn [Qnum Qden]. rewrite Z.mul_0_l, Z.mul_1_r.
  apply Z.sqrt_pos. nia.
Qed.

(** ** Measurement engine *)

(** A 1 cm square at 10 px per cm measures 1 cm2, 1 cm by 1 cm, with a 4 cm
    perimeter. *)
Example unitSquare_measurement :
  calculateMeasurements sqrtRef flatAtan2 flatCos flatSin unitSquare tenPixelsPerCm
  = Return {| m_area := Fin 1; m_length := Fin 1; m_width := Fin 1;
              m_perimeter := Fin 4 |}.
Proof. vm_compute. reflexivity. Qed.

(** C1 at the unit square: the calibration is detected with a positive
    scale, and a measurement is returned. *)
Lemma calculateMeasurements_returns_unitSquare :
  exists m,
    calculateMeasurements sqrtRef flatAtan2 flatCos flatSin unitSquare tenPixelsPerCm
    = Return m.
Proof.
  apply (proj2 (calculateMeasurements_throws_iff sqrtRef flatAtan2 flatCos flatSin
                  unitSquare tenPixelsPerCm)); reflexivity.
Defined.

(** C9 at a two-point contour. *)
Lemma twoPointContour_measures_zero :
  exists m,
    calculateMeasurements sqrtRef flatAtan2 flatCos flatSin twoPointContour tenPixelsPerCm
    = Return m
    /\ m_perimeter m = Fin 0 /\ m_length m = Fin 0 /\ m_width m = Fin 0.
Proof.
  apply (degenerate_contour_measures_zero sqrtRef flatAtan2 flatCos flatSin
           twoPointContour tenPixelsPerCm).
  - simpl. lia.
  - reflexivity.
  - reflexivity.
Defined.

(** ** Calibration engine *)


(** The stand-ins [lineTicks] and [rimPeak] have the form the scale
    properties assume of the tick and circle stages. *)
Lemma lineTicks_on_line :
  forall grayscale width height lines,
    exists (cos sin : Q) (profileLength : nat) (minima : list Z),
      ~ (cos == 0 /\ sin == 0)%Q
      /\ Sorted Z.lt minima
      /\ lineTicks grayscale width height lines
         = map (tickAt (Fin cos) (Fin sin) width height profileLength) minima.
Proof.
  intros. exists 1%Q, 0%Q, 100%nat, [10; 31; 50; 71; 90]%Z.
  split; [intros [H _]; discriminate H |].
  split; [repeat constructor | reflexivity].
Qed.

Lemma rimPeak_circularity :
  forall edges width height c,
    c ∈ rimPeak edges width height ->
    exists edgePoints,
      circularity c
      = calculateCircularity sqrtRef edgePoints (centerX c) (centerY c) (radius c).
Proof.
  intros edges width height c Hc. apply list_elem_of_In in Hc.
  destruct Hc as [<- | []]. exists rimPoints. vm_compute. reflexivity.
Qed.


(** C3 on a synthetic frame with a ruler of confidence 0.9 and a circle of
    confidence 0.85: the ruler result is returned. *)
Lemma detectCalibration_ruler_over_circle :
  let r := detectRuler sqrtRef sameEdges twoParallelLines fiveTicks uniformGray in
  let c := detectCircle sameEdges oneCirclePeak uniformGray in
  confidence r = Fin 0.9
  /\ confidence c = Fin 0.85
  /\ detectCalibration sqrtRef sameEdges twoParallelLines fiveTicks oneCirclePeak
       noCorners uniformGray = r.
Proof.
  split; [vm_compute; reflexivity |]. split; [vm_compute; reflexivity |].
  apply (proj2 (proj2 (proj2 (proj2
           (detectCalibration_priority sqrtRef sameEdges twoParallelLines fiveTicks
              oneCirclePeak noCorners uniformGray)))));
    vm_compute; reflexivity.
Defined.

(** ** Healing analytics *)


(** ** Quality check engine *)

(** C6 fails as stated: for a detected circle marker with its two reference
    points the perspective check reports distortion 0 and [corrected = true]. *)
Lemma checkPerspective_circle_corrected :
  markerType circleCalibration <> ruler
  /\ checkPerspective sqrtRef DEFAULT_THRESHOLDS circleCalibration
     = {| distortion := Fin 0; corrected := true |}.
Proof. split; [discriminate | vm_compute; reflexivity]. Qed.

(** C6 (amended) at the circle marker. *)
Lemma checkPerspective_circle_fallback :
  distortion (checkPerspective sqrtRef DEFAULT_THRESHOLDS circleCalibration) = Fin 0
  /\ corrected (checkPerspective sqrtRef DEFAULT_THRESHOLDS circleCalibration)
     = detected circleCalibration
       && Nat.leb 2 (length (referencePoints circleCalibration))
       && (Fin 0 <=? maxPerspectiveDistortion DEFAULT_THRESHOLDS).
Proof.
  apply (checkPerspective_without_ruler sqrtRef DEFAULT_THRESHOLDS circleCalibration).
  left. discriminate.
Defined.

(** C4 on the dark checkerboard: the blur, calibration and perspective
    checks pass, the average brightness is 30, and the verdict fails with
    the "too dark" issue. *)
Lemma darkCheckerboard_fails :
  blur_passed (checkBlur DEFAULT_THRESHOLDS darkCheckerboard) = true
  /\ detected tenPixelsPerCm = true
  /\ (confidence tenPixelsPerCm >=? minCalibrationConfidence DEFAULT_THRESHOLDS) = true
  /\ corrected (checkPerspective sqrtRef DEFAULT_THRESHOLDS tenPixelsPerCm) = true
  /\ passed (runQualityChecks sqrtRef DEFAULT_THRESHOLDS darkCheckerboard tenPixelsPerCm)
     = false
  /\ lighting_passed
       (lighting (runQualityChecks sqrtRef DEFAULT_THRESHOLDS darkCheckerboard
                    tenPixelsPerCm)) = false
  /\ "Image is too dark"%string
     ∈ issues (lighting (runQualityChecks sqrtRef DEFAULT_THRESHOLDS darkCheckerboard
                           tenPixelsPerCm)).
Proof.
  split; [vm_compute; reflexivity |].
  split; [reflexivity |].
  split; [vm_compute; reflexivity |].
  split; [vm_compute; reflexivity |].
  apply (proj2 (proj2 (proj2 (proj2 (proj2 (proj2
           (quality_aggregate sqrtRef DEFAULT_THRESHOLDS darkCheckerboard
              tenPixelsPerCm))))))).
  vm_compute. reflexivity.
Defined.

(** C10 on a 3x3 image of one gray level. *)
Lemma uniformGray_blur_nan :
  Forall isZeroResponse
    (laplacianOf
       (toGrayscale (data uniformGray) (width uniformGray) (height uniformGray))
       (width uniformGray) (height uniformGray))
  /\ nonzeroSum
       (laplacianOf
          (toGrayscale (data uniformGray) (width uniformGray) (height uniformGray))
          (width uniformGray) (height uniformGray))
     = (Fin 0, Fin 0)
  /\ blur_score (checkBlur DEFAULT_THRESHOLDS uniformGray) = NaN
  /\ blur_passed (checkBlur DEFAULT_THRESHOLDS uniformGray) = false.
Proof.
  apply (checkBlur_uniform_nan DEFAULT_THRESHOLDS uniformGray
           (byteOf 30) (byteOf 30) (byteOf 30)).
  intros i Hi.
  do 9 (destruct i as [| i]; [repeat split; reflexivity |]).
  simpl in Hi. lia.
Defined.

(** The grid hypothesis on sixteen corners none of which is more than 5 px
    from the previous one: no spacing is collected, the cell size falls back
    to 0, and the result is still reported as detected. *)
Example detectGrid_zero_scale :
  let g := detectGrid fixedCorners uniformGray in
  detected g = true /\ pixelsPerCm g = Fin 0 /\ confidence g = Fin (4 # 5).
Proof. vm_compute. repeat split; reflexivity. Qed.

(** Listed counter-clockwise, the triangle of C8 keeps its three points. *)
Example convexHull_counterClockwise :
  convexHull flatAtan2 counterClockwiseTriangle = counterClockwiseTriangle.
Proof. reflexivity. Qed.

(** ** Instances of the further properties *)

Lemma calculateVolume_example :
  (0 <= 12)%Q /\ (0 <= 1.5)%Q /\
  exists v, calculateVolume (Fin 12) (Fin 1.5) = Fin v
    /\ (0 <= v)%Q /\ (exists k : Z, v * 100 == inject_Z k)%Q
    /\ (Qabs (v - 0.327 * 12 * 1.5) <= 1 # 200)%Q.
Proof.
  split; [| split]; [lra | lra |]. apply (calculateVolume_spec 12 1.5); lra.
Defined.

Lemma validateMeasurement_accepts_ellipse :
  isValid (validateMeasurement
             {| m_area := Fin 10; m_length := Fin 4; m_width := Fin 3.5;
                m_perimeter := Fin 12 |}) = true
  /\ isValid (validateMeasurement
                {| m_area := Fin 1.5; m_length := Fin 4.7; m_width := Fin 0.4;
                   m_perimeter := Fin 10 |}) = false.
Proof.
  split.
  - apply (validateMeasurement_bounds 10 4 3.5 12);
      [vm_compute; discriminate | vm_compute; discriminate |].
    vm_compute. repeat split; discriminate.
  - apply (validateMeasurement_bounds 1.5 4.7 0.4 10);
      [vm_compute; discriminate | vm_compute; discriminate |].
    right; right; right; left. vm_compute. reflexivity.
Defined.

Lemma validateMeasurement_accepts_all_zero :
  isValid (validateMeasurement
             {| m_area := Fin 0; m_length := Fin 0; m_width := Fin 0;
                m_perimeter := Fin 0 |}) = true
  /\ isValid (validateMeasurement
                {| m_area := Fin 5; m_length := Fin 0; m_width := Fin 0;
                   m_perimeter := Fin 0 |}) = false.
Proof.
  split.
  - apply (validateMeasurement_zero_width 0 0 0). split; reflexivity.
  - apply (validateMeasurement_zero_width 5 0 0). vm_compute. discriminate.
Defined.

Lemma brightCheckerboard_passes :
  passed (runQualityChecks sqrtRef DEFAULT_THRESHOLDS brightCheckerboard
            circleCalibration) = true
  /\ getRecommendations (runQualityChecks sqrtRef DEFAULT_THRESHOLDS
                           brightCheckerboard circleCalibration) = [].
Proof.
  split; [vm_compute; reflexivity |].
  apply (passed_report_has_no_recommendation sqrtRef DEFAULT_THRESHOLDS).
  vm_compute; reflexivity.
Defined.

Lemma weak_calibration_fails_silently :
  passed (runQualityChecks sqrtRef DEFAULT_THRESHOLDS brightCheckerboard
            weakCircleCalibration) = false
  /\ getRecommendations (runQualityChecks sqrtRef DEFAULT_THRESHOLDS
                           brightCheckerboard weakCircleCalibration) = [].
Proof.
  apply (low_confidence_fails_without_recommendation sqrtRef DEFAULT_THRESHOLDS);
    vm_compute; reflexivity.
Defined.

Lemma unitSquare_area :
  exists m a,
    calculateMeasurements sqrtRef flatAtan2 flatCos flatSin unitSquare tenPixelsPerCm
    = Return m
    /\ m_area m = Fin a
    /\ (0 <= a)%Q
    /\ (exists k : Z, a * 100 == inject_Z k)%Q
    /\ (Qabs (a - inject_Z (Z.of_nat (foregroundCount (mask unitSquare)))
                  / (10 * 10)) <= 1 # 200)%Q.
Proof.
  apply (calculateMeasurements_area sqrtRef flatAtan2 flatCos flatSin
           unitSquare tenPixelsPerCm 10); reflexivity.
Defined.

Lemma daysBetween_half_day_rounds_up : daysBetween 0 43200000 = ofZ 1.
Proof.
  apply (daysBetween_window 0 43200000 1);
    [vm_compute; discriminate | vm_compute; discriminate
    | vm_compute; discriminate | lia].
Defined.

Lemma projected_date_example :
  Fin 3024000000 = NaN
  \/ exists q, Fin 3024000000 = Fin q
       /\ (inject_Z (date (progressEntry [assessmentOn 0 10; assessmentOn 7 8] 1)) <= q
           <= inject_Z maxTime)%Q.
Proof.
  apply (projected_date_not_before [assessmentOn 0 10; assessmentOn 7 8] 1
           (Fin 3024000000)).
  reflexivity.
Defined.

Lemma detectGrid_sixteen_corners :
  exists q, confidence (detectGrid fixedCorners uniformGray) = Fin q
            /\ (0.8 <= q <= 1)%Q.
Proof. apply (detectGrid_confidence_range fixedCorners uniformGray). reflexivity. Defined.

Lemma detectCalibration_drops_zero_confidence_ruler :
  detected (detectRuler sqrtRef sameEdges twoParallelLines unevenTicks uniformGray)
  = true
  /\ detected (detectCalibration sqrtRef sameEdges twoParallelLines unevenTicks
                 noCircles noCorners uniformGray) = false.
Proof.
  split; [reflexivity |].
  apply not_true_iff_false. intros H.
  apply (detectCalibration_detected_iff sqrtRef sameEdges twoParallelLines
           unevenTicks noCircles noCorners uniformGray) in H.
  destruct H as [H | [H | [_ H]]]; vm_compute in H; discriminate.
Defined.

Lemma even_ticks_example :
  calculateTickConfidence sqrtRef (evenTicks 0 0 20 0 5) = Fin 1
  /\ checkPerspective sqrtRef DEFAULT_THRESHOLDS
       {| detected := true; pixelsPerCm := Fin 20; confidence := Fin 1;
          markerType := ruler; referencePoints := evenTicks 0 0 20 0 5 |}
     = {| distortion := Fin 0; corrected := true |}.
Proof.
  apply (even_ticks_undistorted sqrtRef DEFAULT_THRESHOLDS sqrtRef_zero sqrtRef_pos
           0 0 20 0 5 (Fin 20) (Fin 1)).
  - lia.
  - intros [H _]. discriminate H.
Defined.

Lemma zero_width_image_fails :
  let report :=
    runQualityChecks sqrtRef DEFAULT_THRESHOLDS
      {| data := []; width := 0; height := 5 |} circleCalibration in
  blur report = {| blur_score := NaN; blur_passed := false |}
  /\ lighting report
     = {| lighting_score := NaN; lighting_passed := false;
          issues := ["Low contrast - poor lighting"%string] |}
  /\ passed report = false.
Proof.
  apply (no_pixels_fail sqrtRef DEFAULT_THRESHOLDS
           {| data := []; width := 0; height := 5 |} circleCalibration).
  reflexivity.
Defined.

Lemma manual_calibration_example :
  (exists m,
     calculateMeasurements sqrtRef flatAtan2 flatCos flatSin unitSquare
       (manualCalibration sqrtRef (mkPoint (Fin 0) (Fin 0))
          (mkPoint (Fin 30) (Fin 40)) (Fin 5))
     = Return m)
  /\ calculateMeasurements sqrtRef flatAtan2 flatCos flatSin unitSquare
       (manualCalibration sqrtRef (mkPoint (Fin 7) (Fin 7))
          (mkPoint (Fin 7) (Fin 7)) (Fin 5))
     = Throw "Valid calibration required for measurement".
Proof.
  split.
  - apply (manual_calibration_measures sqrtRef flatAtan2 flatCos flatSin
             sqrtRef_zero sqrtRef_pos unitSquare 0 0 30 40 5 eq_refl);
      [vm_compute; discriminate |].
    split; [vm_compute; repeat split; discriminate |].
    left. vm_compute. split; discriminate.
  - apply (manual_calibration_measures sqrtRef flatAtan2 flatCos flatSin
             sqrtRef_zero sqrtRef_pos unitSquare 7 7 7 7 5 eq_refl).
    split; reflexivity.
Defined.

Lemma wideRectangle_width_length :
  let m := {| m_area := Fin 1; m_length := Fin 2; m_width := Fin 1;
              m_perimeter := Fin 6 |} in
  calculateMeasurements sqrtRef flatAtan2 flatCos flatSin wideRectangle tenPixelsPerCm
  = Return m
  /\ (m_width m >? m_length m) = false.
Proof.
  intros m. split; [vm_compute; reflexivity |].
  apply (width_not_above_length sqrtRef flatAtan2 flatCos flatSin wideRectangle
           tenPixelsPerCm m).
  vm_compute. reflexivity.
Defined.

Lemma first_progress_entry_example :
  exists a e,
    a ∈ [assessmentOn 7 8; assessmentOn 0 10]
    /\ (forall b, b ∈ [assessmentOn 7 8; assessmentOn 0 10] ->
        (capturedAt a <= capturedAt b)%Z)
    /\ calculateHealingProgress [assessmentOn 7 8; assessmentOn 0 10] !! 0%nat = Some e
    /\ date e = capturedAt a
    /\ area e = m_area (measurement a)
    /\ healingRate e = Fin 0
    /\ projectedHealingDate e = None
    /\ ((exists q, area e = Fin q) ->
        areaChange e = Fin 0 /\ areaChangePercent e = Fin 0)
    /\ ((forall q, area e <> Fin q) -> areaChange e = NaN).
Proof.
  apply (first_progress_entry [assessmentOn 7 8; assessmentOn 0 10]). discriminate.
Defined.

Lemma calculatePercentile_example :
  exists v, calculatePercentile [Fin 3; Fin 1; Fin 2] (Fin 99) = Some v
            /\ v ∈ [Fin 3; Fin 1; Fin 2].
Proof.
  apply (calculatePercentile_defined [Fin 3; Fin 1; Fin 2] 99);
    [discriminate | reflexivity | discriminate].
Defined.

Lemma convexHull_shape_triangle :
  let hull := convexHull flatAtan2 counterClockwiseTriangle in
  (exists lowest, hull !! 0%nat = Some lowest
                  /\ forall q, q ∈ counterClockwiseTriangle -> lowerThan q lowest = false)
  /\ (forall q, q ∈ hull -> q ∈ counterClockwiseTriangle)
  /\ (2 <= length hull <= length counterClockwiseTriangle)%nat
  /\ goodStack (rev hull).
Proof. apply (convexHull_shape flatAtan2 counterClockwiseTriangle). cbn. lia. Defined.

Lemma uniformGray_fails_lighting :
  "Low contrast - poor lighting"%string
    ∈ issues (checkLighting DEFAULT_THRESHOLDS uniformGray)
  /\ lighting_passed (checkLighting DEFAULT_THRESHOLDS uniformGray) = false.
Proof.
  apply (uniform_image_fails_lighting DEFAULT_THRESHOLDS uniformGray
           (byteOf 30) (byteOf 30) (byteOf 30)).
  - intros i Hi.
    do 9 (destruct i as [| i]; [repeat split; reflexivity |]).
    simpl in Hi. lia.
  - cbn. lia.
  - reflexivity.
Defined.
